(** * libdns/tecnocratica: record translation and reconciliation

    A shallow embedding of the provider of [tecnocratica.go] (the libdns
    provider for the Neodigit / Virtualname control-panel API) and of its
    API client, together with the parts of the Go standard library they
    call, and the properties of the translation functions and of the four
    provider operations.

    Go strings are byte sequences: they are modelled as [string] (a list of
    [ascii] bytes).  Go [int] is taken to be 64 bits wide and is modelled as
    [Z]; the one place where the code does arithmetic on it writes the
    wrap-around out. *)

From Stdlib Require Import ZArith Ascii String List Permutation.
From stdpp Require Import base tactics option list strings pretty gmap fin_maps.

Local Open Scope string_scope.
Local Open Scope list_scope.

(** ** The [strings] package of Go, on byte strings *)

Module GoStrings.

(** [s[:n]] *)
Definition take (n : nat) (s : string) : string := substring 0 n s.

(** [s[n:]] *)
Definition drop (n : nat) (s : string) : string :=
  substring n (String.length s - n) s.

(** [len(s) >= len(suffix) && s[len(s)-len(suffix):] == suffix] *)
Definition HasSuffix (s suffix : string) : bool :=
  (String.length suffix <=? String.length s)%nat
  && String.eqb (drop (String.length s - String.length suffix) s) suffix.

(** [if HasSuffix(s, suffix) { return s[:len(s)-len(suffix)] }; return s] *)
Definition TrimSuffix (s suffix : string) : string :=
  if HasSuffix s suffix
  then take (String.length s - String.length suffix) s
  else s.

(** [CutSuffix] returns [s] without the suffix and whether it was found. *)
Definition CutSuffix (s suffix : string) : string * bool :=
  if HasSuffix s suffix
  then (take (String.length s - String.length suffix) s, true)
  else (s, false).

(** [Trim(s, cutset)] for a cutset of one ASCII byte: that byte is removed
    from both ends, as many times as it occurs there. *)
Fixpoint trimLeftByte (s : string) (c : ascii) : string :=
  match s with
  | String a s' => if Ascii.eqb a c then trimLeftByte s' c else s
  | EmptyString => EmptyString
  end.

Fixpoint trimRightByte (s : string) (c : ascii) : string :=
  match s with
  | String a s' =>
      match trimRightByte s' c with
      | EmptyString => if Ascii.eqb a c then EmptyString else String a EmptyString
      | t => String a t
      end
  | EmptyString => EmptyString
  end.

Definition TrimByte (s : string) (c : ascii) : string :=
  trimLeftByte (trimRightByte s c) c.

(** [unicode.IsSpace] read off the UTF-8 bytes: the width in bytes of the
    white-space rune that starts the byte sequence, or [0] when none does.
    The runes are U+0009..U+000D, U+0020, U+0085, U+00A0, U+1680,
    U+2000..U+200A, U+2028, U+2029, U+202F, U+205F and U+3000.  A lead byte
    of one of these encodings is never a continuation byte, so the decoder
    of [range s] is at a rune boundary whenever one of them starts. *)
Definition spaceWidth (bs : list N) : nat :=
  match bs with
  | (9 | 10 | 11 | 12 | 13 | 32)%N :: _ => 1
  | 194%N :: (133 | 160)%N :: _ => 2
  | 225%N :: 154%N :: 128%N :: _ => 3
  | 226%N :: 128%N :: b :: _ =>
      if ((128 <=? b) && (b <=? 138) || (b =? 168) || (b =? 169) || (b =? 175))%N
      then 3 else 0
  | 226%N :: 129%N :: 159%N :: _ => 3
  | 227%N :: 128%N :: 128%N :: _ => 3
  | _ => 0
  end.

Definition bytes (s : string) : list N := map N_of_ascii (list_ascii_of_string s).

Definition flush (cur : list ascii) : list string :=
  match cur with
  | [] => []
  | _ => [string_of_list_ascii (rev cur)]
  end.

(** The scan of [FieldsFunc(s, unicode.IsSpace)] (of which the ASCII path
    of [Fields] is a special case): [skip] counts the remaining bytes of
    the white-space rune being crossed, [cur] is the field being read, in
    reverse. *)
Fixpoint fieldsFrom (s : string) (skip : nat) (cur : list ascii) : list string :=
  match s with
  | EmptyString => flush cur
  | String a s' =>
      match skip with
      | S k => fieldsFrom s' k cur
      | O =>
          match spaceWidth (bytes s) with
          | O => fieldsFrom s' 0 (a :: cur)
          | S k => flush cur ++ fieldsFrom s' k []
          end
      end
  end.

Definition Fields (s : string) : list string := fieldsFrom s 0 [].

(** [Join(elems, sep)] *)
Definition Join (elems : list string) (sep : string) : string :=
  String.concat sep elems.

End GoStrings.

(** ** The two [fmt] calls of the provider *)

Module GoFmt.

Definition isDigit (a : ascii) : bool :=
  ((48 <=? N_of_ascii a) && (N_of_ascii a <=? 57))%N.

Definition isSign (a : ascii) : bool :=
  Ascii.eqb a "+" || Ascii.eqb a "-".

(** [scanNumber]: the longest prefix of decimal digits. *)
Fixpoint scanNumber (s : string) : list ascii :=
  match s with
  | String a s' => if isDigit a then a :: scanNumber s' else []
  | EmptyString => []
  end.

Definition digitValue (a : ascii) : Z := Z.of_N (N_of_ascii a) - 48.

Definition decimalValue (ds : list ascii) : Z :=
  fold_left (fun acc a => 10 * acc + digitValue a)%Z ds 0%Z.

Definition minInt64 : Z := (- 2 ^ 63)%Z.
Definition maxInt64 : Z := (2 ^ 63 - 1)%Z.

(** [fmt.Sscanf(str, "%d", &v)] on a string without leading white space:
    [scanInt] accepts one optional sign, [scanNumber] wants at least one
    digit and takes all that follow, and [strconv.ParseInt(tok, 10, 64)]
    fails when the value does not fit 64 bits.  [None] stands for every
    failure: [v] is then left as it was.  Input after the number is not
    looked at. *)
Definition Sscanf_d (str : string) : option Z :=
  let '(neg, rest) :=
    match str with
    | String a s' => if isSign a then (Ascii.eqb a "-", s') else (false, str)
    | EmptyString => (false, str)
    end in
  match scanNumber rest with
  | [] => None
  | ds =>
      let i := if neg then (- decimalValue ds)%Z else decimalValue ds in
      if ((minInt64 <=? i) && (i <=? maxInt64))%Z then Some i else None
  end.

(** [fmt.Sprintf("%d %s", n, s)] *)
Definition Sprintf_d_s (n : Z) (s : string) : string :=
  pretty n +:+ " " +:+ s.

(** [fmt.Sprintf("%d", n)], as it appears inside the error messages. *)
Definition Sprintf_d (n : Z) : string := pretty n.

End GoFmt.

(** ** Errors and results *)

(** A Go [error] value.  [ExternalError] is an error made by a collaborator
    (the HTTP transport, [net/url], the libdns parser); [Errorf] is
    [fmt.Errorf] without [%w]; [Wrapf msg e] is [fmt.Errorf(msg + ": %w", e)]. *)
Inductive error : Type :=
| ExternalError (msg : string)
| Errorf (msg : string)
| Wrapf (msg : string) (e : error).

(** A Go return pair [(value, error)]: the value with a nil error, or a
    non-nil error (the value is then not looked at by any caller here). *)
Inductive result (A : Type) : Type :=
| Ok (a : A)
| Err (e : error).
Arguments Ok {A} a.
Arguments Err {A} e.

(** ** Data *)

(** Modelled from the spec: the declarations of the structs [Record] and
    [Zone], which the provider and the client use and do not declare.  The
    fields are the ones of the data model of the specification, under the
    names the provider and its tests read and write: [ID], [Name], [Type],
    [Content], [TTL], [Priority] for a record and [ID], [Name] for a zone.
    [Record] is spelt [Record_], [Type] is spelt [Type_], and the fields of
    [Zone] are [ZoneID] and [ZoneName]. *)
Record Record_ : Type := mkRecord {
  ID : Z;
  Name : string;
  Type_ : string;
  Content : string;
  TTL : Z;
  Priority : Z
}.

Record Zone : Type := mkZone {
  ZoneID : Z;
  ZoneName : string
}.

(** The libdns package is a collaborator: its [RR] struct is plain data, the
    [Record] interface and [RR.Parse] are taken as given. *)
Module libdns.

(** [libdns.RR]; [TTL] is a [time.Duration], a count of nanoseconds. *)
Record RR : Type := mkRR {
  Name : string;
  Type_ : string;
  Data : string;
  TTL : Z
}.

Class Codec : Type := {
  (** the values of the interface type [libdns.Record] *)
  Record_ : Type;
  (** [rec.RR()] *)
  toRR : Record_ -> RR;
  (** [rr.Parse()] *)
  Parse : RR -> result Record_;
  (** [int(d.Seconds())]: [Duration.Seconds] computes in [float64]; the
      conversion is kept abstract. *)
  SecondsInt : Z -> Z
}.

End libdns.

(** 64-bit wrap-around of signed arithmetic. *)
Definition wrap64 (z : Z) : Z := ((z + 2 ^ 63) mod 2 ^ 64 - 2 ^ 63)%Z.

(** [time.Second], in nanoseconds. *)
Definition Second : Z := 1000000000%Z.

(** The byte of the double quote. *)
Definition quote : ascii := ascii_of_nat 34.

(** ** The record translator *)

Section Translator.

Context {codec : libdns.Codec}.

(** The name part of [libdnsToInternal]: the zone suffix is cut off and the
    apex names become ["@"]. *)
Definition providerName (zone name0 : string) : string :=
  let name := name0 in
  let normalizedZone := GoStrings.TrimSuffix zone "." in
  let normalizedName := GoStrings.TrimSuffix name "." in
  let zoneSuffix := "." +:+ normalizedZone in
  let name :=
    match GoStrings.CutSuffix normalizedName zoneSuffix with
    | (after, true) => after
    | (_, false) => name
    end in
  if (name =? "") || (name =? "@") || (name =? zone)
     || (name =? GoStrings.TrimSuffix zone ".")
  then "@" else name.

(** The [switch rr.Type] of [libdnsToInternal]: priority and content of the
    provider record, from the initial [priority] and [data]. *)
Definition providerPayload (type_ rrData : string) (priority : Z) (data : string)
  : Z * string :=
  if type_ =? "MX" then
    let parts := GoStrings.Fields rrData in
    if (2 <=? length parts)%nat then
      (default priority (GoFmt.Sscanf_d (hd "" parts)),
       GoStrings.Join (tl parts) " ")
    else (priority, data)
  else if type_ =? "SRV" then
    let parts := GoStrings.Fields rrData in
    if (4 <=? length parts)%nat then
      (default priority (GoFmt.Sscanf_d (hd "" parts)),
       GoStrings.Join (tl parts) " ")
    else (priority, data)
  else (priority, data).

(** [libdnsToInternal] converts a [libdns.Record] to an internal record. *)
Definition libdnsToInternal (zone : string) (rec : libdns.Record_) : Record_ :=
  let rr := libdns.toRR rec in
  let name := providerName zone (libdns.Name rr) in
  let priority := 0%Z in
  let data := libdns.Data rr in
  let data :=
    if libdns.Type_ rr =? "TXT" then GoStrings.TrimByte data quote else data in
  let '(priority, data) :=
    providerPayload (libdns.Type_ rr) (libdns.Data rr) priority data in
  {| ID := 0;
     Name := name;
     Type_ := libdns.Type_ rr;
     Content := data;
     TTL := libdns.SecondsInt (libdns.TTL rr);
     Priority := priority |}.

(** The absolute name that [internalToLibdns] rebuilds from a provider
    name (after the SRV placeholder has been put in). *)
Definition absoluteName (zone name : string) : string :=
  let normalizedZone := GoStrings.TrimSuffix zone "." in
  if (name =? "") || (name =? "@") then
    if negb (GoStrings.HasSuffix zone ".") then zone +:+ "." else zone
  else if GoStrings.HasSuffix name ("." +:+ normalizedZone)
          || GoStrings.HasSuffix name ("." +:+ normalizedZone +:+ ".") then
    GoStrings.TrimSuffix name "." +:+ "."
  else if (name =? normalizedZone) || (name =? normalizedZone +:+ ".") then
    normalizedZone +:+ "."
  else name +:+ "." +:+ normalizedZone +:+ ".".

(** [internalToLibdns] up to its last line: the [libdns.RR] that is handed
    to [Parse]. *)
Definition internalToRR (zone : string) (rec : Record_) : libdns.RR :=
  let data := Content rec in
  let data :=
    if Type_ rec =? "TXT" then GoStrings.TrimByte data quote else data in
  let data :=
    if Type_ rec =? "MX" then GoFmt.Sprintf_d_s (Priority rec) (Content rec)
    else if Type_ rec =? "SRV" then GoFmt.Sprintf_d_s (Priority rec) (Content rec)
    else data in
  let name := Name rec in
  let name :=
    if (Type_ rec =? "SRV") && ((name =? "") || (name =? "@"))
    then "_service._tcp" else name in
  let name := absoluteName zone name in
  {| libdns.Name := name;
     libdns.Type_ := Type_ rec;
     libdns.Data := data;
     libdns.TTL := wrap64 (TTL rec * Second) |}.

(** [internalToLibdns] converts an internal record to a [libdns.Record]. *)
Definition internalToLibdns (zone : string) (rec : Record_)
  : result libdns.Record_ :=
  libdns.Parse (internalToRR zone rec).

End Translator.

(** ** The API client and the world it talks to *)

(** [Provider]: the API token and the base URL of the control panel. *)
Record Provider : Type := mkProvider {
  APIToken : string;
  APIURL : string
}.

(** [Client]; the parsed [*url.URL] is kept as the string it prints as, the
    [http.Client] is part of the world. *)
Record Client : Type := mkClient {
  token : string;
  BaseURL : string
}.

Definition DefaultBaseURL : string := "https://api.neodigit.net/v1".

(** The five calls of the API client. *)
Inductive Call : Type :=
| CallGetZones
| CallGetRecords (zoneID : Z) (recordType : string)
| CallCreateRecord (zoneID : Z) (record : Record_)
| CallUpdateRecord (zoneID recordID : Z) (record : Record_)
| CallDeleteRecord (zoneID recordID : Z).

(** Everything behind the five client methods (request building, transport,
    the remote API and its database, cancellation of the context) is a
    transition system on a state [Server]: each call moves the state and
    answers with a value or an error.  [url_Parse] is [url.Parse], reduced
    to the string form of the URL. *)
Class Backend : Type := {
  Server : Type;
  url_Parse : string -> result string;
  do_getZones : Client -> Server -> Server * result (list Zone);
  do_getRecords : Client -> Z -> string -> Server -> Server * result (list Record_);
  do_createRecord : Client -> Z -> Record_ -> Server -> Server * result Record_;
  do_updateRecord : Client -> Z -> Z -> Record_ -> Server -> Server * result Record_;
  do_deleteRecord : Client -> Z -> Z -> Server -> Server * result unit
}.

(** The key type of the map [inputByKey] of [SetRecords]. *)
Definition recordKey : Type := string * string.

(** The order in which [for key, inputRecs := range inputByKey] visits the
    map is chosen by the Go run time: some permutation of the entries. *)
Class Runtime : Type := {
  mapRange : list (recordKey * list Record_) -> list (recordKey * list Record_);
  mapRange_perm : forall l, Permutation (mapRange l) l
}.

Section Monad.

Context {backend : Backend}.

(** The world of a run: the state behind the client, and the trace of the
    client calls made so far (oldest first). *)
Record World : Type := mkWorld {
  server : Server;
  calls : list Call
}.

(** Computations that talk to the world and may stop on an error. *)
Definition M (A : Type) : Type := World -> World * result A.

Definition ret {A} (a : A) : M A := fun w => (w, Ok a).

Definition fail {A} (e : error) : M A := fun w => (w, Err e).

Definition bind {A B} (m : M A) (k : A -> M B) : M B :=
  fun w =>
    match m w with
    | (w', Ok a) => k a w'
    | (w', Err e) => (w', Err e)
    end.

(** A pure call that returns [(value, error)]. *)
Definition lift {A} (r : result A) : M A := fun w => (w, r).

(** [if err != nil { return nil, fmt.Errorf(msg + ": %w", err) }] *)
Definition wrapErr {A} (msg : string) (m : M A) : M A :=
  fun w =>
    match m w with
    | (w', Ok a) => (w', Ok a)
    | (w', Err e) => (w', Err (Wrapf msg e))
    end.

(** One client call: it is recorded in the trace and answered by the
    backend. *)
Definition call {A} (c : Call) (f : Server -> Server * result A) : M A :=
  fun w =>
    let '(s, r) := f (server w) in
    ({| server := s; calls := calls w ++ [c] |}, r).

End Monad.

Declare Scope go_scope.
Delimit Scope go_scope with go.
Notation "'let*' x ':=' m 'in' k" := (bind m (fun x => k))
  (at level 10, x name, m at level 100, k at level 200) : go_scope.
Notation "'do*' m 'in' k" := (bind m (fun _ => k))
  (at level 10, m at level 100, k at level 200) : go_scope.
Local Open Scope go_scope.

Section Client.

Context {backend : Backend}.

(** [newClient] *)
Definition newClient (p : Provider) : result Client :=
  let baseURL := APIURL p in
  let baseURL := if baseURL =? "" then DefaultBaseURL else baseURL in
  match url_Parse baseURL with
  | Err err => Err (Wrapf "invalid API URL" err)
  | Ok parsedURL => Ok {| token := APIToken p; BaseURL := parsedURL |}
  end.

Definition getZones (c : Client) : M (list Zone) :=
  call CallGetZones (do_getZones c).

Definition getRecords (c : Client) (zoneID : Z) (recordType : string)
  : M (list Record_) :=
  call (CallGetRecords zoneID recordType) (do_getRecords c zoneID recordType).

Definition createRecord (c : Client) (zoneID : Z) (record : Record_) : M Record_ :=
  call (CallCreateRecord zoneID record) (do_createRecord c zoneID record).

Definition updateRecord (c : Client) (zoneID recordID : Z) (record : Record_)
  : M Record_ :=
  call (CallUpdateRecord zoneID recordID record)
       (do_updateRecord c zoneID recordID record).

Definition deleteRecord (c : Client) (zoneID recordID : Z) : M unit :=
  call (CallDeleteRecord zoneID recordID) (do_deleteRecord c zoneID recordID).

End Client.

(** ** The provider *)

Section ProviderOps.

Context {codec : libdns.Codec} {backend : Backend} {runtime : Runtime}.

(** The loop of [getZoneID]: the ID of the first zone whose name, without
    one trailing dot, is [zoneName]. *)
Fixpoint zoneLoop (zoneName : string) (zones : list Zone) : option Z :=
  match zones with
  | [] => None
  | z :: zones' =>
      if GoStrings.TrimSuffix (ZoneName z) "." =? zoneName
      then Some (ZoneID z)
      else zoneLoop zoneName zones'
  end.

(** [getZoneID] finds the zone ID for a given zone name. *)
Definition getZoneID (p : Provider) (zone : string) : M Z :=
  let* client := lift (newClient p) in
  let* zones := getZones client in
  let zoneName := GoStrings.TrimSuffix zone "." in
  match zoneLoop zoneName zones with
  | Some id => ret id
  | None => fail (Errorf ("zone not found: " +:+ zone))
  end.

(** The loop of [GetRecords]: a record that cannot be converted is
    skipped. *)
Fixpoint getLoop (zone : string) (records : list Record_)
         (libdnsRecords : list libdns.Record_) : list libdns.Record_ :=
  match records with
  | [] => libdnsRecords
  | record :: records' =>
      match internalToLibdns zone record with
      | Err _ => getLoop zone records' libdnsRecords
      | Ok libdnsRec => getLoop zone records' (libdnsRecords ++ [libdnsRec])
      end
  end.

(** [GetRecords] lists all the records in the zone. *)
Definition GetRecords (p : Provider) (zone : string) : M (list libdns.Record_) :=
  let* zoneID := getZoneID p zone in
  let* client := lift (newClient p) in
  let* records := getRecords client zoneID "" in
  ret (getLoop zone records []).

(** The loop of [AppendRecords]. *)
Fixpoint appendLoop (zone : string) (client : Client) (zoneID : Z)
         (records : list libdns.Record_) (appendedRecords : list libdns.Record_)
  : M (list libdns.Record_) :=
  match records with
  | [] => ret appendedRecords
  | record :: records' =>
      let internalRec := libdnsToInternal zone record in
      let* createdRec :=
        wrapErr "failed to create record" (createRecord client zoneID internalRec) in
      let* libdnsRec :=
        wrapErr "failed to convert created record"
                (lift (internalToLibdns zone createdRec)) in
      appendLoop zone client zoneID records' (appendedRecords ++ [libdnsRec])
  end.

(** [AppendRecords] adds records to the zone and returns the records that
    were added. *)
Definition AppendRecords (p : Provider) (zone : string)
           (records : list libdns.Record_) : M (list libdns.Record_) :=
  let* zoneID := getZoneID p zone in
  let* client := lift (newClient p) in
  appendLoop zone client zoneID records [].

(** [recordKey{internalRec.Name, internalRec.Type}] *)
Definition keyOf (rec : Record_) : recordKey := (Name rec, Type_ rec).

(** [existing.Name == key.Name && existing.Type == key.Type] *)
Definition hasKey (key : recordKey) (existing : Record_) : bool :=
  (Name existing =? key.1) && (Type_ existing =? key.2).

(** The grouping loop of [SetRecords]:
    [inputByKey[key] = append(inputByKey[key], internalRec)]. *)
Definition groupStep (zone : string) (inputByKey : gmap recordKey (list Record_))
           (record : libdns.Record_) : gmap recordKey (list Record_) :=
  let internalRec := libdnsToInternal zone record in
  let key := keyOf internalRec in
  <[key := default [] (inputByKey !! key) ++ [internalRec]]> inputByKey.

Definition groupInput (zone : string) (records : list libdns.Record_)
  : gmap recordKey (list Record_) :=
  fold_left (groupStep zone) records ∅.

(** The loop over [existingRecords] that collects [existingForKey]. *)
Fixpoint existingLoop (key : recordKey) (existingRecords : list Record_)
         (existingForKey : list Record_) : list Record_ :=
  match existingRecords with
  | [] => existingForKey
  | existing :: rest =>
      if hasKey key existing
      then existingLoop key rest (existingForKey ++ [existing])
      else existingLoop key rest existingForKey
  end.

(** The loop [for i, internalRec := range inputRecs] of [SetRecords].  The
    test [i < len(existingForKey)] and the access [existingForKey[i]] are
    one lookup: it finds an element exactly when the index is in range. *)
Fixpoint inputLoop (zone : string) (client : Client) (zoneID : Z)
         (existingForKey : list Record_) (i : nat) (inputRecs : list Record_)
         (setRecords : list libdns.Record_) : M (list libdns.Record_) :=
  match inputRecs with
  | [] => ret setRecords
  | internalRec :: inputRecs' =>
      let* resultRec :=
        match existingForKey !! i with
        | Some existing =>
            wrapErr ("failed to update record " +:+ GoFmt.Sprintf_d (ID existing))
                    (updateRecord client zoneID (ID existing) internalRec)
        | None =>
            wrapErr "failed to create record"
                    (createRecord client zoneID internalRec)
        end in
      let* libdnsRec :=
        wrapErr "failed to convert record"
                (lift (internalToLibdns zone resultRec)) in
      inputLoop zone client zoneID existingForKey (S i) inputRecs'
                (setRecords ++ [libdnsRec])
  end.

(** The loop [for i := len(inputRecs); i < len(existingForKey); i++] of
    [SetRecords], over the elements of [existingForKey] from index
    [len(inputRecs)] on. *)
Fixpoint extraLoop (client : Client) (zoneID : Z) (extra : list Record_) : M unit :=
  match extra with
  | [] => ret tt
  | existing :: extra' =>
      do* wrapErr ("failed to delete extra record " +:+ GoFmt.Sprintf_d (ID existing))
                  (deleteRecord client zoneID (ID existing)) in
      extraLoop client zoneID extra'
  end.

(** The loop [for key, inputRecs := range inputByKey] of [SetRecords], over
    the entries in the order the run time visits them. *)
Fixpoint keyLoop (zone : string) (client : Client) (zoneID : Z)
         (existingRecords : list Record_)
         (entries : list (recordKey * list Record_))
         (setRecords : list libdns.Record_) : M (list libdns.Record_) :=
  match entries with
  | [] => ret setRecords
  | (key, inputRecs) :: entries' =>
      let existingForKey := existingLoop key existingRecords [] in
      let* setRecords :=
        inputLoop zone client zoneID existingForKey 0 inputRecs setRecords in
      do* extraLoop client zoneID (drop (length inputRecs) existingForKey) in
      keyLoop zone client zoneID existingRecords entries' setRecords
  end.

(** [SetRecords] sets the records in the zone, either by updating existing
    records or creating new ones, and returns the records which were set. *)
Definition SetRecords (p : Provider) (zone : string)
           (records : list libdns.Record_) : M (list libdns.Record_) :=
  let* zoneID := getZoneID p zone in
  let* client := lift (newClient p) in
  let* existingRecords := getRecords client zoneID "" in
  let inputByKey := groupInput zone records in
  keyLoop zone client zoneID existingRecords
          (mapRange (map_to_list inputByKey)) [].

(** The first inner loop of [DeleteRecords]: every existing record equal
    to [internalRec] on name, type and content is deleted. *)
Fixpoint exactLoop (zone : string) (client : Client) (zoneID : Z)
         (internalRec : Record_) (existingRecords : list Record_)
         (deletedRecords : list libdns.Record_) (found : bool)
  : M (list libdns.Record_ * bool) :=
  match existingRecords with
  | [] => ret (deletedRecords, found)
  | existing :: rest =>
      if (Name existing =? Name internalRec)
         && (Type_ existing =? Type_ internalRec)
         && (Content existing =? Content internalRec)
      then
        do* wrapErr ("failed to delete record " +:+ GoFmt.Sprintf_d (ID existing))
                    (deleteRecord client zoneID (ID existing)) in
        let* libdnsRec :=
          wrapErr "failed to convert deleted record"
                  (lift (internalToLibdns zone existing)) in
        exactLoop zone client zoneID internalRec rest
                  (deletedRecords ++ [libdnsRec]) true
      else exactLoop zone client zoneID internalRec rest deletedRecords found
  end.

(** The fallback loop of [DeleteRecords]: the first existing record equal
    to [internalRec] on name and type is deleted, then the loop breaks. *)
Fixpoint fallbackLoop (zone : string) (client : Client) (zoneID : Z)
         (internalRec : Record_) (existingRecords : list Record_)
         (deletedRecords : list libdns.Record_) : M (list libdns.Record_) :=
  match existingRecords with
  | [] => ret deletedRecords
  | existing :: rest =>
      if (Name existing =? Name internalRec)
         && (Type_ existing =? Type_ internalRec)
      then
        do* wrapErr ("failed to delete record " +:+ GoFmt.Sprintf_d (ID existing))
                    (deleteRecord client zoneID (ID existing)) in
        let* libdnsRec :=
          wrapErr "failed to convert deleted record"
                  (lift (internalToLibdns zone existing)) in
        ret (deletedRecords ++ [libdnsRec])
      else fallbackLoop zone client zoneID internalRec rest deletedRecords
  end.

(** The outer loop of [DeleteRecords]. *)
Fixpoint deleteLoop (zone : string) (client : Client) (zoneID : Z)
         (existingRecords : list Record_) (records : list libdns.Record_)
         (deletedRecords : list libdns.Record_) : M (list libdns.Record_) :=
  match records with
  | [] => ret deletedRecords
  | record :: records' =>
      let internalRec := libdnsToInternal zone record in
      let* exact :=
        exactLoop zone client zoneID internalRec existingRecords
                  deletedRecords false in
      let '(deletedRecords, found) := exact in
      let* deletedRecords :=
        if negb found
        then fallbackLoop zone client zoneID internalRec existingRecords
                          deletedRecords
        else ret deletedRecords in
      deleteLoop zone client zoneID existingRecords records' deletedRecords
  end.

(** [DeleteRecords] deletes the specified records from the zone and
    returns the records that were deleted. *)
Definition DeleteRecords (p : Provider) (zone : string)
           (records : list libdns.Record_) : M (list libdns.Record_) :=
  let* zoneID := getZoneID p zone in
  let* client := lift (newClient p) in
  let* existingRecords := getRecords client zoneID "" in
  deleteLoop zone client zoneID existingRecords records [].

End ProviderOps.

(** ** Test doubles

    A stand-in for the libdns codec, an in-memory API in the manner of the
    [httptest] servers of the Go tests, and two iteration orders.  They give
    the statements below concrete runs. *)

Module TestDouble.

(** The canonical records are the [RR]s themselves; parsing rejects empty
    data and an SRV name that does not start with an underscore. *)
Definition parse (rr : libdns.RR) : result libdns.RR :=
  if libdns.Data rr =? "" then Err (ExternalError "empty data")
  else if (libdns.Type_ rr =? "SRV")
          && negb (String.prefix "_" (libdns.Name rr))
  then Err (ExternalError "invalid SRV name")
  else Ok rr.

#[export] Instance codec : libdns.Codec := {|
  libdns.Record_ := libdns.RR;
  libdns.toRR := fun rr => rr;
  libdns.Parse := parse;
  libdns.SecondsInt := fun d => (d `quot` Second)%Z
|}.

(** The state of the in-memory API: its zones, the records of the one
    zone it serves, the next ID to hand out, and the number of writes it
    will still accept before answering every write with an error. *)
Record state : Type := mkState {
  zones : list Zone;
  records : list Record_;
  nextID : Z;
  budget : nat
}.

Definition withID (id : Z) (r : Record_) : Record_ :=
  {| ID := id; Name := Name r; Type_ := Type_ r; Content := Content r;
     TTL := TTL r; Priority := Priority r |}.

Definition serverError {A} : result A :=
  Err (ExternalError "unexpected status code: 500").

Definition create (r : Record_) (s : state) : state * result Record_ :=
  match budget s with
  | O => (s, serverError)
  | S b =>
      let r' := withID (nextID s) r in
      ({| zones := zones s; records := records s ++ [r'];
          nextID := (nextID s + 1)%Z; budget := b |}, Ok r')
  end.

Definition update (id : Z) (r : Record_) (s : state) : state * result Record_ :=
  match budget s with
  | O => (s, serverError)
  | S b =>
      let r' := withID id r in
      ({| zones := zones s;
          records := map (fun x => if (ID x =? id)%Z then r' else x) (records s);
          nextID := nextID s; budget := b |}, Ok r')
  end.

Definition delete (id : Z) (s : state) : state * result unit :=
  match budget s with
  | O => (s, serverError)
  | S b =>
      ({| zones := zones s;
          records := List.filter (fun x => negb (ID x =? id)%Z) (records s);
          nextID := nextID s; budget := b |}, Ok tt)
  end.

#[export] Instance backend : Backend := {|
  Server := state;
  url_Parse := fun u =>
    if String.prefix ":" u then Err (ExternalError "missing protocol scheme")
    else Ok u;
  do_getZones := fun _ s => (s, Ok (zones s));
  do_getRecords := fun _ _ _ s => (s, Ok (records s));
  do_createRecord := fun _ _ => create;
  do_updateRecord := fun _ _ => update;
  do_deleteRecord := fun _ _ => delete
|}.

(** The map is visited in the order of [map_to_list], or in the reverse
    order. *)
Definition forward : Runtime := {|
  mapRange := fun l => l;
  mapRange_perm := fun l => Permutation_refl l
|}.

Definition backward : Runtime := {|
  mapRange := @rev _;
  mapRange_perm := fun l => Permutation_sym (Permutation_rev l)
|}.

Definition provider : Provider := {| APIToken := "test-token"; APIURL := "" |}.

Definition rr (name type_ data : string) (ttl : Z) : libdns.RR :=
  {| libdns.Name := name; libdns.Type_ := type_; libdns.Data := data;
     libdns.TTL := (ttl * Second)%Z |}.

Definition rec (id : Z) (name type_ content : string) : Record_ :=
  {| ID := id; Name := name; Type_ := type_; Content := content;
     TTL := 3600; Priority := 0 |}.

Definition start (rs : list Record_) (b : nat) : World :=
  {| server := {| zones := [ {| ZoneID := 1; ZoneName := "example.com" |};
                             {| ZoneID := 2; ZoneName := "example.org" |} ];
                  records := rs; nextID := 100; budget := b |};
     calls := [] |}.

End TestDouble.

(** * The operations as data

    Definitions in the words of the specification, against which the loops
    above are compared. *)

(** The records of a list that convert, converted, in their order. *)
Definition converted `{codec : libdns.Codec} (zone : string)
    (records : list Record_) : list libdns.Record_ :=
  omap (fun record =>
          match internalToLibdns zone record with
          | Ok libdnsRec => Some libdnsRec
          | Err _ => None
          end) records.

(** ** The plan of a reconciliation

    The operations that [SetRecords] and [AppendRecords] go through, written
    as data: what the specification calls the create, update and delete
    operations computed from the desired and the existing records. *)

Inductive Op : Type :=
| OpUpdate (id : Z) (r : Record_)
| OpCreate (r : Record_)
| OpDelete (id : Z).

Definition callOf (zoneID : Z) (op : Op) : Call :=
  match op with
  | OpUpdate id r => CallUpdateRecord zoneID id r
  | OpCreate r => CallCreateRecord zoneID r
  | OpDelete id => CallDeleteRecord zoneID id
  end.

(** An update or a create gives a record back; a delete does not. *)
Definition isWrite (op : Op) : bool :=
  match op with
  | OpDelete _ => false
  | _ => true
  end.

(** Desired record number [i + j] is paired with existing record number
    [i + j] when there is one, and created otherwise. *)
Fixpoint planInputs (existingForKey : list Record_) (i : nat)
         (inputRecs : list Record_) : list Op :=
  match inputRecs with
  | [] => []
  | d :: inputRecs' =>
      match existingForKey !! i with
      | Some e => OpUpdate (ID e) d
      | None => OpCreate d
      end :: planInputs existingForKey (S i) inputRecs'
  end.

(** The current records with a given key, in the order of the provider. *)
Definition existingFor (key : recordKey) (existingRecords : list Record_)
  : list Record_ :=
  filter (fun e => keyOf e = key) existingRecords.

(** Per key: the pairs and the creates, then the deletes of the surplus. *)
Definition planKey (existingRecords : list Record_)
           (entry : recordKey * list Record_) : list Op :=
  let existing := existingFor entry.1 existingRecords in
  planInputs existing 0 entry.2
  ++ map (fun e => OpDelete (ID e)) (drop (length entry.2) existing).

Definition plan (existingRecords : list Record_)
           (entries : list (recordKey * list Record_)) : list Op :=
  concat (map (planKey existingRecords) entries).

(** The input bucket of a key: the translated input records with that key,
    in input order. *)
Definition bucket `{codec : libdns.Codec} (zone : string)
           (records : list libdns.Record_) (key : recordKey) : list Record_ :=
  filter (fun r => keyOf r = key) (map (libdnsToInternal zone) records).

Section RunOps.

Context {codec : libdns.Codec} {backend : Backend}.

(** One operation, with the conversion of its result: the step that
    either succeeds or ends the whole call. *)
Definition stepOp (convertMsg : string) (zone : string) (client : Client)
           (zoneID : Z) (op : Op) : M (option libdns.Record_) :=
  match op with
  | OpUpdate id r =>
      let* resultRec :=
        wrapErr ("failed to update record " +:+ GoFmt.Sprintf_d id)
                (updateRecord client zoneID id r) in
      let* libdnsRec :=
        wrapErr convertMsg (lift (internalToLibdns zone resultRec)) in
      ret (Some libdnsRec)
  | OpCreate r =>
      let* resultRec :=
        wrapErr "failed to create record" (createRecord client zoneID r) in
      let* libdnsRec :=
        wrapErr convertMsg (lift (internalToLibdns zone resultRec)) in
      ret (Some libdnsRec)
  | OpDelete id =>
      do* wrapErr ("failed to delete extra record " +:+ GoFmt.Sprintf_d id)
                  (deleteRecord client zoneID id) in
      ret None
  end.

(** The operations one after the other; the first step that fails ends
    the run with its error, and nothing follows it. *)
Fixpoint runOps (convertMsg : string) (zone : string) (client : Client)
         (zoneID : Z) (ops : list Op) (acc : list libdns.Record_)
  : M (list libdns.Record_) :=
  match ops with
  | [] => ret acc
  | op :: ops' =>
      let* o := stepOp convertMsg zone client zoneID op in
      runOps convertMsg zone client zoneID ops'
             (match o with Some l => acc ++ [l] | None => acc end)
  end.

End RunOps.

(** The entries that the key loop of [SetRecords] visits. *)
Definition entriesOf `{codec : libdns.Codec} `{runtime : Runtime}
           (zone : string) (records : list libdns.Record_)
  : list (recordKey * list Record_) :=
  mapRange (map_to_list (groupInput zone records)).

(** The calls that only read. *)
Definition isRead (c : Call) : Prop :=
  match c with
  | CallGetZones | CallGetRecords _ _ => True
  | _ => False
  end.

(** The calls that create or update a record. *)
Definition isWriteCall (c : Call) : bool :=
  match c with
  | CallCreateRecord _ _ | CallUpdateRecord _ _ _ => true
  | _ => false
  end.

(** The fetched records equal to a provider record on name, type and
    content; those equal to it on name and type; and the records that
    [DeleteRecords] deletes for it: all of the first kind, or, when there
    is none, the first of the second kind. *)
Definition exactMatches (internalRec : Record_) (existingRecords : list Record_)
  : list Record_ :=
  filter (fun e => Name e = Name internalRec
                   /\ Type_ e = Type_ internalRec
                   /\ Content e = Content internalRec) existingRecords.

Definition keyMatches (internalRec : Record_) (existingRecords : list Record_)
  : list Record_ :=
  filter (fun e => Name e = Name internalRec /\ Type_ e = Type_ internalRec)
         existingRecords.

Definition deleteTargets (internalRec : Record_) (existingRecords : list Record_)
  : list Record_ :=
  match exactMatches internalRec existingRecords with
  | [] => take 1 (keyMatches internalRec existingRecords)
  | matches => matches
  end.

(** The records that a run of [DeleteRecords] deletes, input record by input
    record. *)
Definition allTargets `{codec : libdns.Codec} (zone : string)
           (existingRecords : list Record_) (records : list libdns.Record_)
  : list Record_ :=
  concat (map (fun record =>
                 deleteTargets (libdnsToInternal zone record) existingRecords)
              records).

(** ** Words

    The printable ASCII bytes other than the space, and the strings made of
    them: what a host name, a port or a weight is written with. *)
Definition isWordByte (a : ascii) : bool :=
  ((33 <=? N_of_ascii a) && (N_of_ascii a <=? 126))%N.

Definition isWord (s : string) : bool :=
  negb (s =? "") && forallb isWordByte (list_ascii_of_string s).

(** ** Kinds of calls and of operations *)

Definition isUpdateCall (c : Call) : bool :=
  match c with CallUpdateRecord _ _ _ => true | _ => false end.

Definition isCreateCall (c : Call) : bool :=
  match c with CallCreateRecord _ _ => true | _ => false end.

Definition isDeleteCall (c : Call) : bool :=
  match c with CallDeleteRecord _ _ => true | _ => false end.

(** The delete calls that [DeleteRecords] may make for its input: the
    deletes of a fetched record that has the name and the type of one of
    the translated input records. *)
Definition deleteOf `{codec : libdns.Codec} (zone : string) (zoneID : Z)
           (existingRecords : list Record_) (records : list libdns.Record_)
           (c : Call) : Prop :=
  exists record e,
    record ∈ records
    /\ e ∈ existingRecords
    /\ Name e = Name (libdnsToInternal zone record)
    /\ Type_ e = Type_ (libdnsToInternal zone record)
    /\ c = CallDeleteRecord zoneID (ID e).

(** * The client on the wire

    The five client methods as they are written, over [net/http]: the
    request is built by [doJSONRequest] and sent by [do]. *)

(** ** [net/textproto] and [net/http]: header keys, headers, messages *)

Module textproto.

Definition isLower (c : ascii) : bool :=
  ((97 <=? N_of_ascii c) && (N_of_ascii c <=? 122))%N.

Definition isUpper (c : ascii) : bool :=
  ((65 <=? N_of_ascii c) && (N_of_ascii c <=? 90))%N.

(** The bytes of a header field name: letters, digits and
    [!#$%&'*+-.^_`|~]. *)
Definition validHeaderFieldByte (c : ascii) : bool :=
  isLower c || isUpper c
  || ((48 <=? N_of_ascii c) && (N_of_ascii c <=? 57))%N
  || existsb (N.eqb (N_of_ascii c))
             [33; 35; 36; 37; 38; 39; 42; 43; 45; 46; 94; 95; 96; 124; 126]%N.

(** The loop of [canonicalMIMEHeaderKey]: the first letter and every letter
    after a dash in upper case, the other letters in lower case. *)
Fixpoint canonical (upper : bool) (s : string) : string :=
  match s with
  | EmptyString => EmptyString
  | String c s' =>
      let c' :=
        if upper && isLower c then ascii_of_N (N_of_ascii c - 32)
        else if negb upper && isUpper c then ascii_of_N (N_of_ascii c + 32)
        else c in
      String c' (canonical (Ascii.eqb c' "-") s')
  end.

(** [CanonicalMIMEHeaderKey]: a key with a byte that is not one of a field
    name is left as it is. *)
Definition CanonicalMIMEHeaderKey (s : string) : string :=
  if forallb validHeaderFieldByte (list_ascii_of_string s)
  then canonical true s
  else s.

End textproto.

Module http.

(** [http.Header]: the values of each canonical key. *)
Definition Header : Type := gmap string (list string).

(** [h.Set(key, value)] *)
Definition Header_Set (h : Header) (key value : string) : Header :=
  <[textproto.CanonicalMIMEHeaderKey key := [value]]> h.

(** [h.Get(key)]: the first value of the key, or the empty string. *)
Definition Header_Get (h : Header) (key : string) : string :=
  match h !! textproto.CanonicalMIMEHeaderKey key with
  | Some (v :: _) => v
  | _ => ""
  end.

(** [http.Request], as far as the client fills it: the URL as the string
    it prints as, the body as the bytes of the buffer. *)
Record Request : Type := mkRequest {
  Method : string;
  URL : string;
  Header_ : Header;
  Body : string
}.

(** [http.Response], as far as the client looks at it: the status code and
    what [io.ReadAll(resp.Body)] returns, the bytes read and the error, if
    any, that ended the reading. *)
Record Response : Type := mkResponse {
  StatusCode : Z;
  Raw : string;
  ReadErr : option error
}.

Definition MethodGet : string := "GET".
Definition MethodPost : string := "POST".
Definition MethodPut : string := "PUT".
Definition MethodDelete : string := "DELETE".

End http.

(** [strconv.Itoa] *)
Definition Itoa (n : Z) : string := pretty n.

(** What the client takes from its libraries and from the network: the URL
    functions (URLs are the strings they print as), the JSON coding of the
    three types that cross the wire, the checks of
    [http.NewRequestWithContext] on the method and the URL (with the URL of
    the request as it prints), and [HTTPClient.Do], a transition on the
    state [Conn] of the network and of the remote side (the context and its
    cancellation are part of it). *)
Class Wire : Type := {
  Conn : Type;
  wire_url_Parse : string -> result string;
  url_JoinPath : string -> list string -> string;
  url_setQuery : string -> string -> string -> string;
  json_Encode : Record_ -> result string;
  json_Unmarshal_zones : string -> result (list Zone);
  json_Unmarshal_records : string -> result (list Record_);
  json_Unmarshal_record : string -> result Record_;
  request_URL : string -> string -> result string;
  HTTPClient_Do : http.Request -> Conn -> Conn * result http.Response
}.

Definition userAgent : string := "tecnocratica-libdns/1.0".

(** The zero value of [Record]. *)
Definition zeroRecord : Record_ :=
  {| ID := 0; Name := ""; Type_ := ""; Content := ""; TTL := 0; Priority := 0 |}.

Module wire.

Section Methods.

Context {W : Wire}.

(** The state of the connection, and the requests sent over it so far
    (oldest first). *)
Record Line : Type := mkLine {
  conn : Conn;
  sent : list http.Request
}.

(** [c.HTTPClient.Do(req)] *)
Definition roundTrip (req : http.Request) (l : Line)
  : Line * result http.Response :=
  let '(s, r) := HTTPClient_Do req (conn l) in
  ({| conn := s; sent := sent l ++ [req] |}, r).

(** [http.NewRequestWithContext(ctx, method, url, body)]; an empty method
    stands for GET. *)
Definition NewRequestWithContext (method url body : string)
  : result http.Request :=
  let method := if method =? "" then http.MethodGet else method in
  match request_URL method url with
  | Err err => Err err
  | Ok u => Ok {| http.Method := method; http.URL := u;
                  http.Header_ := ∅; http.Body := body |}
  end.

(** [req.Header.Set(key, value)] *)
Definition setHeader (req : http.Request) (key value : string) : http.Request :=
  {| http.Method := http.Method req; http.URL := http.URL req;
     http.Header_ := http.Header_Set (http.Header_ req) key value;
     http.Body := http.Body req |}.

(** [doJSONRequest]; the payload is [nil] or a [RecordRequest] with its
    record. *)
Definition doJSONRequest (method endpoint : string) (payload : option Record_)
  : result http.Request :=
  match
    match payload with
    | Some record =>
        match json_Encode record with
        | Err err => Err (Wrapf "failed to create request JSON body" err)
        | Ok bytes => Ok bytes
        end
    | None => Ok ""
    end
  with
  | Err err => Err err
  | Ok body =>
      match NewRequestWithContext method endpoint body with
      | Err err => Err (Wrapf "unable to create request" err)
      | Ok req =>
          let req := setHeader req "User-Agent" userAgent in
          let req := setHeader req "Accept" "application/json" in
          let req :=
            match payload with
            | Some _ => setHeader req "Content-Type" "application/json"
            | None => req
            end in
          Ok req
      end
  end.

(** [c.do(req, result)].  [result] is [nil] or a pointer; a pointer is given
    by the [json.Unmarshal] into its type, and [zero] is what it points to
    before the call.  The value returned with a nil error is what it points
    to after the call. *)
Definition do {A : Type} (c : Client) (req : http.Request)
           (result_ : option (string -> result A)) (zero : A) (l : Line)
  : Line * result A :=
  let req := setHeader req "X-TCpanel-Token" (token c) in
  match roundTrip req l with
  | (l', Err err) =>
      (l', Err (Wrapf ("unexpected http error: request: " +:+ http.URL req
                       +:+ ", error") err))
  | (l', Ok resp) =>
      if negb (http.StatusCode resp `quot` 100 =? 2)%Z then
        (l', Err (Errorf ("unexpected status code: "
                          +:+ GoFmt.Sprintf_d (http.StatusCode resp)
                          +:+ ", request: " +:+ http.URL req
                          +:+ ", response: " +:+ http.Raw resp)))
      else
        match result_ with
        | None => (l', Ok zero)
        | Some unmarshal =>
            match http.ReadErr resp with
            | Some err =>
                (l', Err (Wrapf ("error reading response: status: "
                                 +:+ GoFmt.Sprintf_d (http.StatusCode resp)
                                 +:+ ", request: " +:+ http.URL req
                                 +:+ ", error") err))
            | None =>
                match unmarshal (http.Raw resp) with
                | Err err =>
                    (l', Err (Wrapf ("error unmarshaling response: status: "
                                     +:+ GoFmt.Sprintf_d (http.StatusCode resp)
                                     +:+ ", request: " +:+ http.URL req
                                     +:+ ", response: " +:+ http.Raw resp
                                     +:+ ", error") err))
                | Ok a => (l', Ok a)
                end
            end
        end
  end.

(** [getZones] *)
Definition getZones (c : Client) (l : Line) : Line * result (list Zone) :=
  let endpoint := url_JoinPath (BaseURL c) ["dns"; "zones"] in
  match doJSONRequest http.MethodGet endpoint None with
  | Err err => (l, Err err)
  | Ok req => do c req (Some json_Unmarshal_zones) [] l
  end.

(** [getRecords] *)
Definition getRecords (c : Client) (zoneID : Z) (recordType : string)
           (l : Line) : Line * result (list Record_) :=
  let endpoint := url_JoinPath (BaseURL c) ["dns"; "zones"; Itoa zoneID; "records"] in
  let endpoint :=
    if negb (recordType =? "") then url_setQuery endpoint "type" recordType
    else endpoint in
  match doJSONRequest http.MethodGet endpoint None with
  | Err err => (l, Err err)
  | Ok req => do c req (Some json_Unmarshal_records) [] l
  end.

(** [createRecord] *)
Definition createRecord (c : Client) (zoneID : Z) (record : Record_)
           (l : Line) : Line * result Record_ :=
  let endpoint := url_JoinPath (BaseURL c) ["dns"; "zones"; Itoa zoneID; "records"] in
  match doJSONRequest http.MethodPost endpoint (Some record) with
  | Err err => (l, Err err)
  | Ok req => do c req (Some json_Unmarshal_record) zeroRecord l
  end.

(** [updateRecord] *)
Definition updateRecord (c : Client) (zoneID recordID : Z) (record : Record_)
           (l : Line) : Line * result Record_ :=
  let endpoint :=
    url_JoinPath (BaseURL c)
                 ["dns"; "zones"; Itoa zoneID; "records"; Itoa recordID] in
  match doJSONRequest http.MethodPut endpoint (Some record) with
  | Err err => (l, Err err)
  | Ok req => do c req (Some json_Unmarshal_record) zeroRecord l
  end.

(** [deleteRecord] *)
Definition deleteRecord (c : Client) (zoneID recordID : Z) (l : Line)
  : Line * result unit :=
  let endpoint :=
    url_JoinPath (BaseURL c)
                 ["dns"; "zones"; Itoa zoneID; "records"; Itoa recordID] in
  match doJSONRequest http.MethodDelete endpoint None with
  | Err err => (l, Err err)
  | Ok req => do c req None tt l
  end.

(** The five methods are the backend of the provider. *)
#[export] Instance backend : Backend := {|
  Server := Line;
  url_Parse := wire_url_Parse;
  do_getZones := getZones;
  do_getRecords := getRecords;
  do_createRecord := createRecord;
  do_updateRecord := updateRecord;
  do_deleteRecord := deleteRecord
|}.

(** What every request of a client carries: one of the four methods, the
    token of the client, the user agent, the accepted type, and the type of
    the body exactly when it is a POST or a PUT. *)
Definition carries (tok : string) (req : http.Request) : Prop :=
  http.Method req ∈ [http.MethodGet; http.MethodPost; http.MethodPut;
                     http.MethodDelete]
  /\ http.Header_Get (http.Header_ req) "X-TCpanel-Token" = tok
  /\ http.Header_Get (http.Header_ req) "User-Agent" = userAgent
  /\ http.Header_Get (http.Header_ req) "Accept" = "application/json"
  /\ http.Header_Get (http.Header_ req) "Content-Type"
     = (if (http.Method req =? http.MethodPost)
           || (http.Method req =? http.MethodPut)
        then "application/json" else "")
  /\ ((http.Method req =? http.MethodGet)
      || (http.Method req =? http.MethodDelete) = true -> http.Body req = "").

(** The requests of a step: what it adds to the requests sent. *)
Definition sends (P : http.Request -> Prop) (atMost : nat) (l l' : Line) : Prop :=
  exists reqs, sent l' = sent l ++ reqs
               /\ length reqs <= atMost /\ Forall P reqs.

End Methods.

End wire.

(** Every run of a computation relates the world before it to the world
    after it. *)
Definition preserves `{backend : Backend} (R : World -> World -> Prop)
           {A : Type} (m : M A) : Prop :=
  forall w w' r, m w = (w', r) -> R w w'.

(** Between two worlds of the provider over the wire: the requests sent in
    between all carry the token, and they are no more than the client calls
    made in between. *)
Definition onTheWire `{W : Wire} (tok : string)
           (w w' : @World wire.backend) : Prop :=
  exists reqs,
    wire.sent (server w') = wire.sent (server w) ++ reqs
    /\ Forall (wire.carries tok) reqs
    /\ length (calls w) + length reqs <= length (calls w').

(** ** A scripted network

    The remote side answers the first [n] requests with status 200 and the
    body of the request, and every later one with status 500. *)

Module TestWire.

Definition answer (req : http.Request) (n : nat) : nat * result http.Response :=
  match n with
  | O => (O, Ok {| http.StatusCode := 500; http.Raw := "error";
                   http.ReadErr := None |})
  | S k => (k, Ok {| http.StatusCode := 200; http.Raw := http.Body req;
                     http.ReadErr := None |})
  end.

#[export] Instance net : Wire := {|
  Conn := nat;
  wire_url_Parse := fun u =>
    if String.prefix ":" u then Err (ExternalError "missing protocol scheme")
    else Ok u;
  url_JoinPath := fun base elems => base +:+ "/" +:+ GoStrings.Join elems "/";
  url_setQuery := fun u k v => u +:+ "?" +:+ k +:+ "=" +:+ v;
  json_Encode := fun r => Ok (Name r +:+ " " +:+ Type_ r +:+ " " +:+ Content r);
  json_Unmarshal_zones := fun _ => Ok [ {| ZoneID := 1; ZoneName := "example.com" |} ];
  json_Unmarshal_records := fun _ => Ok [];
  json_Unmarshal_record := fun raw =>
    if raw =? "" then Err (ExternalError "unexpected end of JSON input")
    else Ok {| ID := 7; Name := raw; Type_ := ""; Content := ""; TTL := 0;
               Priority := 0 |};
  request_URL := fun method url =>
    if existsb (Ascii.eqb " ") (list_ascii_of_string method)
    then Err (ExternalError "invalid method")
    else Ok url;
  HTTPClient_Do := answer
|}.

Definition client : Client := {| token := "test-token"; BaseURL := DefaultBaseURL |}.

Definition line (n : nat) : wire.Line := {| wire.conn := n; wire.sent := [] |}.

Definition start (n : nat) : @World (@wire.backend net) :=
  @mkWorld (@wire.backend net) (line n) [].

End TestWire.

(** * Properties *)

(** ** Facts about the string functions *)

Section StringFacts.

Import GoStrings.

Lemma length_app_string (s t : string) :
  String.length (s +:+ t) = String.length s + String.length t.
Proof. induction s as [|c s IH]; simpl; [done | by rewrite IH]. Qed.

Lemma substring_whole (s : string) : substring 0 (String.length s) s = s.
Proof. induction s as [|c s IH]; simpl; [done | by rewrite IH]. Qed.

Lemma length_take (n : nat) (s : string) :
  String.length (take n s) = n `min` String.length s.
Proof.
  unfold take. revert n.
  induction s as [|c s IH]; intros [|n]; simpl; try done.
  by rewrite IH.
Qed.

Lemma drop_S (n : nat) (c : ascii) (s : string) :
  drop (S n) (String c s) = drop n s.
Proof. reflexivity. Qed.

Lemma take_drop (n : nat) (s : string) : take n s +:+ drop n s = s.
Proof.
  revert n. induction s as [|c s IH]; intros [|n]; try done.
  - unfold take, drop. simpl. by rewrite substring_whole.
  - rewrite drop_S. change (take (S n) (String c s)) with (String c (take n s)).
    change (String c (take n s) +:+ drop n s)
      with (String c (take n s +:+ drop n s)).
    by rewrite IH.
Qed.

Lemma take_app (s t : string) : take (String.length s) (s +:+ t) = s.
Proof.
  unfold take. induction s as [|c s IH]; simpl.
  - by destruct t.
  - by rewrite IH.
Qed.

Lemma drop_app (s t : string) : drop (String.length s) (s +:+ t) = t.
Proof.
  induction s as [|c s IH].
  - unfold drop. simpl. rewrite Nat.sub_0_r. apply substring_whole.
  - exact IH.
Qed.

Lemma HasSuffix_app (s suffix : string) : HasSuffix (s +:+ suffix) suffix = true.
Proof.
  unfold HasSuffix. rewrite length_app_string.
  replace (String.length s + String.length suffix - String.length suffix)
    with (String.length s) by lia.
  rewrite drop_app, String.eqb_refl, andb_true_r.
  apply Nat.leb_le. lia.
Qed.

Lemma HasSuffix_short (s suffix : string) :
  String.length s < String.length suffix -> HasSuffix s suffix = false.
Proof.
  intros Hlt. unfold HasSuffix.
  destruct (Nat.leb_spec (String.length suffix) (String.length s)); [lia | done].
Qed.

Lemma TrimSuffix_app (s suffix : string) : TrimSuffix (s +:+ suffix) suffix = s.
Proof.
  unfold TrimSuffix. rewrite HasSuffix_app, length_app_string.
  replace (String.length s + String.length suffix - String.length suffix)
    with (String.length s) by lia.
  apply take_app.
Qed.

Lemma TrimSuffix_restore (s suffix : string) :
  HasSuffix s suffix = true -> TrimSuffix s suffix +:+ suffix = s.
Proof.
  intros Hs. unfold TrimSuffix. rewrite Hs.
  unfold HasSuffix in Hs. apply andb_true_iff in Hs as [_ Heq].
  apply String.eqb_eq in Heq.
  rewrite <- Heq at 2. apply take_drop.
Qed.

Lemma TrimSuffix_without (s suffix : string) :
  HasSuffix s suffix = false -> TrimSuffix s suffix = s.
Proof. intros Hs. unfold TrimSuffix. by rewrite Hs. Qed.

Lemma length_TrimSuffix_le (s suffix : string) :
  String.length (TrimSuffix s suffix) <= String.length s.
Proof.
  unfold TrimSuffix. destruct (HasSuffix s suffix); [|done].
  rewrite length_take. lia.
Qed.

Lemma CutSuffix_short (s suffix : string) :
  String.length s < String.length suffix -> CutSuffix s suffix = (s, false).
Proof. intros Hlt. unfold CutSuffix. by rewrite HasSuffix_short. Qed.

(** The zone with exactly one trailing dot, whether or not it was given
    with one. *)
Lemma dotted_zone (zone : string) :
  (if negb (HasSuffix zone ".") then zone +:+ "." else zone)
  = TrimSuffix zone "." +:+ ".".
Proof.
  destruct (HasSuffix zone ".") eqn:Hz; simpl.
  - by rewrite TrimSuffix_restore.
  - by rewrite TrimSuffix_without.
Qed.

End StringFacts.

(** ** The record translator *)

Section TranslatorFacts.

Context {codec : libdns.Codec}.

Lemma Name_libdnsToInternal (zone : string) (rec : libdns.Record_) :
  Name (libdnsToInternal zone rec)
  = providerName zone (libdns.Name (libdns.toRR rec)).
Proof. unfold libdnsToInternal. by destruct (providerPayload _ _ _ _). Qed.

Lemma Type_libdnsToInternal (zone : string) (rec : libdns.Record_) :
  Type_ (libdnsToInternal zone rec) = libdns.Type_ (libdns.toRR rec).
Proof. unfold libdnsToInternal. by destruct (providerPayload _ _ _ _). Qed.

Lemma payload_libdnsToInternal (zone : string) (rec : libdns.Record_) :
  let rr := libdns.toRR rec in
  (Priority (libdnsToInternal zone rec), Content (libdnsToInternal zone rec))
  = providerPayload (libdns.Type_ rr) (libdns.Data rr) 0
      (if libdns.Type_ rr =? "TXT"
       then GoStrings.TrimByte (libdns.Data rr) quote else libdns.Data rr).
Proof. simpl. unfold libdnsToInternal. by destruct (providerPayload _ _ _ _). Qed.

(** A name that is no longer than the zone without its dot keeps its zone
    suffix: there is none to cut. *)
Lemma providerName_no_cut (zone name : string) :
  String.length (GoStrings.TrimSuffix name ".")
    <= String.length (GoStrings.TrimSuffix zone ".") ->
  providerName zone name =
    if (name =? "") || (name =? "@") || (name =? zone)
       || (name =? GoStrings.TrimSuffix zone ".")
    then "@" else name.
Proof.
  intros Hlen. unfold providerName.
  rewrite CutSuffix_short; [done|].
  rewrite length_app_string. simpl. lia.
Qed.

Lemma providerName_apex (zone name : string) :
  name = zone \/ name = GoStrings.TrimSuffix zone "." \/ name = "@" \/ name = "" ->
  providerName zone name = "@".
Proof.
  intros Hname.
  destruct (decide (name = "@")) as [->|Hat].
  { unfold providerName.
    change (GoStrings.TrimSuffix "@" ".") with "@".
    destruct (GoStrings.TrimSuffix zone ".") as [|c z] eqn:Hz; [done|].
    rewrite CutSuffix_short; [done | simpl; lia]. }
  rewrite providerName_no_cut.
  - destruct Hname as [->|[->|[->| ->]]]; try done.
    + by rewrite String.eqb_refl, !orb_true_r.
    + by rewrite (String.eqb_refl (GoStrings.TrimSuffix zone ".")), !orb_true_r.
  - destruct Hname as [->|[->|[->| ->]]]; try done.
    + apply length_TrimSuffix_le.
    + simpl. lia.
Qed.

Lemma absoluteName_apex (zone name : string) :
  name = "@" \/ name = "" ->
  absoluteName zone name = GoStrings.TrimSuffix zone "." +:+ ".".
Proof.
  intros [-> | ->]; unfold absoluteName; simpl; apply dotted_zone.
Qed.

Lemma providerPayload_MX (rrData : string) (priority : Z) (data : string) :
  providerPayload "MX" rrData priority data =
    let parts := GoStrings.Fields rrData in
    if (2 <=? length parts)%nat
    then (default priority (GoFmt.Sscanf_d (hd "" parts)),
          GoStrings.Join (tl parts) " ")
    else (priority, data).
Proof. reflexivity. Qed.

Lemma providerPayload_SRV (rrData : string) (priority : Z) (data : string) :
  providerPayload "SRV" rrData priority data =
    let parts := GoStrings.Fields rrData in
    if (4 <=? length parts)%nat
    then (default priority (GoFmt.Sscanf_d (hd "" parts)),
          GoStrings.Join (tl parts) " ")
    else (priority, data).
Proof. reflexivity. Qed.

Lemma eqb_false_of_ne (s t : string) : s <> t -> (s =? t) = false.
Proof. apply String.eqb_neq. Qed.

End TranslatorFacts.

(** C2, at the inputs that refute it as stated.  For an SRV record the
    provider name ["@"] is first replaced by the placeholder label
    ["_service._tcp"], so the rebuilt name is not the zone name with a
    trailing dot.  And under a zone given without its trailing dot, the
    canonical name that is the zone with the trailing dot is outside the
    apex test of [libdnsToInternal]: it is kept as it is. *)
Lemma apex_srv_placeholder :
  libdns.Name (internalToRR "example.com."
                 {| ID := 5; Name := "@"; Type_ := "SRV";
                    Content := "20 5060 sip.example.com"; TTL := 3600;
                    Priority := 10 |})
  = "_service._tcp.example.com."
  /\ libdns.Name (internalToRR "example.com."
                    {| ID := 5; Name := "@"; Type_ := "SRV";
                       Content := "20 5060 sip.example.com"; TTL := 3600;
                       Priority := 10 |})
     <> "example.com."
  /\ Name (libdnsToInternal (codec := TestDouble.codec) "example.com"
             (TestDouble.rr "example.com." "A" "192.0.2.1" 3600))
     = "example.com."
  /\ Name (libdnsToInternal (codec := TestDouble.codec) "example.com"
             (TestDouble.rr "example.com." "A" "192.0.2.1" 3600))
     <> "@".
Proof. repeat split; (reflexivity || discriminate). Qed.

(** C2, amended: a canonical name equal to the zone as it was given, or to
    the zone without its trailing dot, and the canonical name ["@"], become
    the provider name ["@"]; for a record whose type is not SRV the provider
    name ["@"] (or the empty name) is rebuilt as the zone name with exactly
    one trailing dot. *)
Theorem apex_names `{codec : libdns.Codec} (zone : string) :
  (forall rec : libdns.Record_,
      libdns.Name (libdns.toRR rec) = zone
      \/ libdns.Name (libdns.toRR rec) = GoStrings.TrimSuffix zone "."
      \/ libdns.Name (libdns.toRR rec) = "@" ->
      Name (libdnsToInternal zone rec) = "@")
  /\ (forall rec : Record_,
         Type_ rec <> "SRV" ->
         Name rec = "@" \/ Name rec = "" ->
         libdns.Name (internalToRR zone rec) = GoStrings.TrimSuffix zone "." +:+ "."
         /\ GoStrings.HasSuffix (libdns.Name (internalToRR zone rec)) "." = true
         /\ GoStrings.TrimSuffix (libdns.Name (internalToRR zone rec)) "."
            = GoStrings.TrimSuffix zone ".")
  /\ (forall rec : Record_,
         Type_ rec = "SRV" ->
         Name rec = "@" \/ Name rec = "" ->
         libdns.Name (internalToRR zone rec) = absoluteName zone "_service._tcp").
Proof.
  split; [|split].
  - intros rec Hname. rewrite Name_libdnsToInternal.
    apply providerName_apex. tauto.
  - intros rec Hsrv Hname.
    assert (libdns.Name (internalToRR zone rec)
            = GoStrings.TrimSuffix zone "." +:+ ".") as ->.
    { unfold internalToRR. simpl.
      rewrite (eqb_false_of_ne _ _ Hsrv). simpl.
      by apply absoluteName_apex. }
    by rewrite HasSuffix_app, TrimSuffix_app.
  - intros rec Hsrv [Hname | Hname]; unfold internalToRR; simpl;
      by rewrite Hsrv, Hname.
Qed.

Lemma apex_names_witness :
  Name (libdnsToInternal (codec := TestDouble.codec) "example.com."
          (TestDouble.rr "example.com" "A" "192.0.2.1" 3600)) = "@"
  /\ libdns.Name (internalToRR "example.com" (TestDouble.rec 1 "@" "A" "192.0.2.1"))
     = "example.com.".
Proof.
  split.
  - apply (proj1 (apex_names (codec := TestDouble.codec) "example.com.")).
    right; left; reflexivity.
  - apply (proj1 (proj2 (apex_names (codec := TestDouble.codec) "example.com"))
             (TestDouble.rec 1 "@" "A" "192.0.2.1")).
    + discriminate.
    + left; reflexivity.
Defined.

(** C3: for an MX record with at least two fields and an SRV record with at
    least four, the provider record holds the first field, read as a decimal
    integer, as its priority and the other fields, joined by single spaces,
    as its content; the way back renders the priority, a space and the
    content.  The two examples of the specification go there and back. *)
Theorem mx_srv_priority `{codec : libdns.Codec} (zone : string) :
  (forall rec : libdns.Record_,
      let rr := libdns.toRR rec in
      let parts := GoStrings.Fields (libdns.Data rr) in
      (libdns.Type_ rr = "MX" /\ 2 <= length parts)
      \/ (libdns.Type_ rr = "SRV" /\ 4 <= length parts) ->
      Priority (libdnsToInternal zone rec) = default 0%Z (GoFmt.Sscanf_d (hd "" parts))
      /\ Content (libdnsToInternal zone rec) = GoStrings.Join (tl parts) " ")
  /\ (forall rec : Record_,
         Type_ rec = "MX" \/ Type_ rec = "SRV" ->
         libdns.Data (internalToRR zone rec)
         = pretty (Priority rec) +:+ " " +:+ Content rec)
  /\ (forall rec : libdns.Record_,
         libdns.Type_ (libdns.toRR rec) = "MX" ->
         libdns.Data (libdns.toRR rec) = "10 mail.example.com" ->
         Content (libdnsToInternal zone rec) = "mail.example.com"
         /\ Priority (libdnsToInternal zone rec) = 10%Z
         /\ libdns.Data (internalToRR zone (libdnsToInternal zone rec))
            = "10 mail.example.com")
  /\ (forall rec : libdns.Record_,
         libdns.Type_ (libdns.toRR rec) = "SRV" ->
         libdns.Data (libdns.toRR rec) = "10 20 5060 sip.example.com" ->
         Content (libdnsToInternal zone rec) = "20 5060 sip.example.com"
         /\ Priority (libdnsToInternal zone rec) = 10%Z
         /\ libdns.Data (internalToRR zone (libdnsToInternal zone rec))
            = "10 20 5060 sip.example.com").
Proof.
  assert (forall rec : Record_,
             Type_ rec = "MX" \/ Type_ rec = "SRV" ->
             libdns.Data (internalToRR zone rec)
             = pretty (Priority rec) +:+ " " +:+ Content rec) as Hback.
  { intros rec [Ht | Ht]; unfold internalToRR; simpl; by rewrite Ht. }
  split; [|split; [exact Hback|split]].
  - intros rec rr parts Hcase.
    pose proof (payload_libdnsToInternal zone rec) as Hp. cbv zeta in Hp.
    fold rr in Hp.
    destruct Hcase as [[Ht Hlen] | [Ht Hlen]]; rewrite Ht in Hp.
    + rewrite providerPayload_MX in Hp. cbv zeta in Hp. fold parts in Hp.
      destruct (Nat.leb_spec 2 (length parts)); [|lia].
      by inversion Hp.
    + rewrite providerPayload_SRV in Hp. cbv zeta in Hp. fold parts in Hp.
      destruct (Nat.leb_spec 4 (length parts)); [|lia].
      by inversion Hp.
  - intros rec Ht Hd.
    pose proof (payload_libdnsToInternal zone rec) as Hp. cbv zeta in Hp.
    rewrite Ht, Hd in Hp.
    injection Hp as Hprio Hcont.
    rewrite Hback by (left; by rewrite Type_libdnsToInternal).
    by rewrite Hprio, Hcont.
  - intros rec Ht Hd.
    pose proof (payload_libdnsToInternal zone rec) as Hp. cbv zeta in Hp.
    rewrite Ht, Hd in Hp.
    injection Hp as Hprio Hcont.
    rewrite Hback by (right; by rewrite Type_libdnsToInternal).
    by rewrite Hprio, Hcont.
Qed.

Lemma mx_srv_priority_witness :
  Priority (libdnsToInternal (codec := TestDouble.codec) "example.com"
              (TestDouble.rr "_sip._tcp" "SRV" "10 20 5060 sip.example.com" 3600))
  = default 0%Z (GoFmt.Sscanf_d "10")
  /\ Content (libdnsToInternal (codec := TestDouble.codec) "example.com"
                 (TestDouble.rr "_sip._tcp" "SRV" "10 20 5060 sip.example.com" 3600))
     = GoStrings.Join ["20"; "5060"; "sip.example.com"] " ".
Proof.
  apply (proj1 (mx_srv_priority (codec := TestDouble.codec) "example.com")
           (TestDouble.rr "_sip._tcp" "SRV" "10 20 5060 sip.example.com" 3600)).
  right. split; [reflexivity | vm_compute; lia].
Defined.

(** C9: the translation to the provider form is a total function with no
    error result; an MX record with fewer than two fields and an SRV record
    with fewer than four keep their data as the content, with priority 0. *)
Theorem malformed_mx_srv_pass_through `{codec : libdns.Codec}
    (zone : string) (rec : libdns.Record_) :
  let rr := libdns.toRR rec in
  let parts := GoStrings.Fields (libdns.Data rr) in
  (libdns.Type_ rr = "MX" /\ length parts < 2)
  \/ (libdns.Type_ rr = "SRV" /\ length parts < 4) ->
  exists r : Record_,
    libdnsToInternal zone rec = r
    /\ Content r = libdns.Data rr
    /\ Priority r = 0%Z.
Proof.
  intros rr parts Hcase. eexists; split; [reflexivity|].
  pose proof (payload_libdnsToInternal zone rec) as Hp. cbv zeta in Hp.
  fold rr in Hp.
  destruct Hcase as [[Ht Hlen] | [Ht Hlen]]; rewrite Ht in Hp.
  - rewrite providerPayload_MX in Hp. cbv zeta in Hp. fold parts in Hp.
    destruct (Nat.leb_spec 2 (length parts)); [lia|].
    by inversion Hp.
  - rewrite providerPayload_SRV in Hp. cbv zeta in Hp. fold parts in Hp.
    destruct (Nat.leb_spec 4 (length parts)); [lia|].
    by inversion Hp.
Qed.

Lemma malformed_mx_srv_pass_through_witness :
  exists r : Record_,
    libdnsToInternal (codec := TestDouble.codec) "example.com"
      (TestDouble.rr "@" "MX" "mail.example.com" 3600) = r
    /\ Content r = "mail.example.com"
    /\ Priority r = 0%Z.
Proof.
  apply (malformed_mx_srv_pass_through (codec := TestDouble.codec) "example.com"
           (TestDouble.rr "@" "MX" "mail.example.com" 3600)).
  left. split; [reflexivity | vm_compute; lia].
Defined.

(** ** Running computations *)

Section MonadFacts.

Context {backend : Backend}.

Lemma bind_Ok {A B} (m : M A) (k : A -> M B) (w w1 : World) (a : A) :
  m w = (w1, Ok a) -> bind m k w = k a w1.
Proof. intros Hm. unfold bind. by rewrite Hm. Qed.

Lemma bind_Err {A B} (m : M A) (k : A -> M B) (w w1 : World) (e : error) :
  m w = (w1, Err e) -> bind m k w = (w1, Err e).
Proof. intros Hm. unfold bind. by rewrite Hm. Qed.

Lemma bind_inv {A B} (m : M A) (k : A -> M B) (w w' : World) (r : result B) :
  bind m k w = (w', r) ->
  (exists w1 a, m w = (w1, Ok a) /\ k a w1 = (w', r))
  \/ (exists e, m w = (w', Err e) /\ r = Err e).
Proof.
  unfold bind. destruct (m w) as [w1 [a|e]]; intros Hk.
  - left. by exists w1, a.
  - right. exists e. by inversion Hk.
Qed.

Lemma bind_inv_Ok {A B} (m : M A) (k : A -> M B) (w w' : World) (b : B) :
  bind m k w = (w', Ok b) ->
  exists w1 a, m w = (w1, Ok a) /\ k a w1 = (w', Ok b).
Proof.
  intros Hb. apply bind_inv in Hb as [H | (e & _ & He)]; [done | discriminate].
Qed.

Lemma wrapErr_inv {A} (msg : string) (m : M A) (w w' : World) (r : result A) :
  wrapErr msg m w = (w', r) ->
  (exists a, m w = (w', Ok a) /\ r = Ok a)
  \/ (exists e, m w = (w', Err e) /\ r = Err (Wrapf msg e)).
Proof.
  unfold wrapErr. destruct (m w) as [w1 [a|e]]; intros Hk; inversion Hk; subst.
  - left. by exists a.
  - right. by exists e.
Qed.

Lemma wrapErr_inv_Ok {A} (msg : string) (m : M A) (w w' : World) (a : A) :
  wrapErr msg m w = (w', Ok a) -> m w = (w', Ok a).
Proof.
  intros Hw. apply wrapErr_inv in Hw as [(a' & Hm & Ha) | (e & _ & He)];
    [by inversion Ha; subst | discriminate].
Qed.

Lemma lift_inv {A} (x : result A) (w w' : World) (r : result A) :
  lift x w = (w', r) -> w' = w /\ r = x.
Proof. unfold lift. intros Hl. by inversion Hl. Qed.

Lemma call_calls {A} (c : Call) (f : Server -> Server * result A)
      (w w' : World) (r : result A) :
  call c f w = (w', r) -> calls w' = calls w ++ [c].
Proof.
  unfold call. destruct (f (server w)) as [s r']. intros Hc. by inversion Hc.
Qed.

End MonadFacts.

(** Taking a finished run apart, one bind at a time. *)
Ltac run_inv :=
  repeat match goal with
    | H : bind _ _ _ = (_, _) |- _ =>
        apply bind_inv in H as [(? & ? & ? & H) | (? & H & ?)]
    | H : wrapErr _ _ _ = (_, _) |- _ =>
        apply wrapErr_inv in H as [(? & H & ?) | (? & H & ?)]
    | H : lift _ _ = (_, _) |- _ => apply lift_inv in H as [? ?]
    | H : call _ _ _ = (_, _) |- _ => apply call_calls in H
    | H : ret _ _ = (_, _) |- _ => inversion H; clear H
    end;
  subst.

(** ** Zone resolution *)

Section ZoneFacts.

Context {codec : libdns.Codec} {backend : Backend} {runtime : Runtime}.

Lemma zoneLoop_None (zoneName : string) (zones : list Zone) :
  zoneLoop zoneName zones = None <->
  forall y, y ∈ zones -> GoStrings.TrimSuffix (ZoneName y) "." <> zoneName.
Proof.
  induction zones as [|z zones IH]; simpl.
  - split; [|done]. intros _ y Hy. by apply elem_of_nil in Hy.
  - destruct (String.eqb_spec (GoStrings.TrimSuffix (ZoneName z) ".") zoneName)
      as [Heq | Hne].
    + split; [done|]. intros Hall. exfalso. apply (Hall z); [left | done].
    + rewrite IH. split.
      * intros Hall y Hy. apply elem_of_cons in Hy as [-> | Hy]; auto.
      * intros Hall y Hy. apply Hall. by right.
Qed.

Lemma zoneLoop_Some (zoneName : string) (zones : list Zone) (id : Z) :
  zoneLoop zoneName zones = Some id <->
  exists pre z post,
    zones = pre ++ z :: post
    /\ (forall y, y ∈ pre -> GoStrings.TrimSuffix (ZoneName y) "." <> zoneName)
    /\ GoStrings.TrimSuffix (ZoneName z) "." = zoneName
    /\ ZoneID z = id.
Proof.
  induction zones as [|z zones IH]; simpl.
  - split; [done|]. intros (pre & z & post & Hz & _). by destruct pre.
  - destruct (String.eqb_spec (GoStrings.TrimSuffix (ZoneName z) ".") zoneName)
      as [Heq | Hne].
    + split.
      * intros [= <-]. exists [], z, zones. repeat split; try done.
        intros y Hy. by apply elem_of_nil in Hy.
      * intros (pre & z' & post & Hz & Hpre & Hmatch & Hid).
        destruct pre as [|y pre]; simpl in Hz; inversion Hz; subst.
        -- done.
        -- exfalso. apply (Hpre y); [left | done].
    + rewrite IH. split.
      * intros (pre & z' & post & -> & Hpre & Hmatch & Hid).
        exists (z :: pre), z', post. repeat split; try done.
        intros y Hy. apply elem_of_cons in Hy as [-> | Hy]; auto.
      * intros (pre & z' & post & Hz & Hpre & Hmatch & Hid).
        destruct pre as [|y pre]; simpl in Hz; inversion Hz; subst.
        -- done.
        -- exists pre, z', post. repeat split; try done.
           intros y' Hy'. apply Hpre. by right.
Qed.

Lemma getZoneID_run (p : Provider) (zone : string) (w w1 : World)
      (c : Client) (zones : list Zone) :
  newClient p = Ok c ->
  getZones c w = (w1, Ok zones) ->
  getZoneID p zone w =
    (w1, match zoneLoop (GoStrings.TrimSuffix zone ".") zones with
         | Some id => Ok id
         | None => Err (Errorf ("zone not found: " +:+ zone))
         end).
Proof.
  intros Hc Hz. unfold getZoneID.
  rewrite (bind_Ok _ _ w w c) by (by rewrite Hc).
  rewrite (bind_Ok _ _ w w1 zones) by done.
  by destruct (zoneLoop _ zones).
Qed.

Lemma getZoneID_inv_Ok (p : Provider) (zone : string) (w w1 : World) (id : Z) :
  getZoneID p zone w = (w1, Ok id) ->
  exists c zones,
    newClient p = Ok c
    /\ getZones c w = (w1, Ok zones)
    /\ zoneLoop (GoStrings.TrimSuffix zone ".") zones = Some id.
Proof.
  unfold getZoneID. intros Hg.
  apply bind_inv_Ok in Hg as (w0 & c & Hc & Hg).
  apply lift_inv in Hc as [-> Hc].
  apply bind_inv_Ok in Hg as (w2 & zones & Hz & Hg).
  exists c, zones. destruct (zoneLoop _ zones) as [id'|] eqn:Hl.
  - inversion Hg; subst. by rewrite Hc.
  - inversion Hg.
Qed.

Lemma getZoneID_calls (p : Provider) (zone : string) (w w1 : World) (id : Z) :
  getZoneID p zone w = (w1, Ok id) -> calls w1 = calls w ++ [CallGetZones].
Proof.
  intros Hg. apply getZoneID_inv_Ok in Hg as (c & zones & _ & Hz & _).
  by apply call_calls in Hz.
Qed.

End ZoneFacts.

(** C6: once the zone list is fetched, [getZoneID] compares the requested
    name and every candidate name each without one trailing dot, byte for
    byte, and returns the ID of the first candidate that is equal; when no
    candidate is equal it fails with the zone-not-found error.  A trailing
    dot on either side makes no difference; a difference of case or a mere
    common suffix is no match. *)
Theorem getZoneID_first_exact_match `{backend : Backend}
    (p : Provider) (zone : string) (w w1 : World) (c : Client) (zones : list Zone) :
  newClient p = Ok c ->
  getZones c w = (w1, Ok zones) ->
  (forall id,
      getZoneID p zone w = (w1, Ok id) <->
      exists pre z post,
        zones = pre ++ z :: post
        /\ (forall y, y ∈ pre ->
               GoStrings.TrimSuffix (ZoneName y) "." <> GoStrings.TrimSuffix zone ".")
        /\ GoStrings.TrimSuffix (ZoneName z) "." = GoStrings.TrimSuffix zone "."
        /\ ZoneID z = id)
  /\ ((forall y, y ∈ zones ->
          GoStrings.TrimSuffix (ZoneName y) "." <> GoStrings.TrimSuffix zone ".")
      <-> getZoneID p zone w = (w1, Err (Errorf ("zone not found: " +:+ zone))))
  /\ (forall s, GoStrings.TrimSuffix (s +:+ ".") "." = s)
  /\ (GoStrings.HasSuffix zone "." = false ->
      forall id, getZoneID p (zone +:+ ".") w = (w1, Ok id)
                 <-> getZoneID p zone w = (w1, Ok id))
  /\ zoneLoop (GoStrings.TrimSuffix "example.com." ".")
       [ {| ZoneID := 1; ZoneName := "Example.com" |};
         {| ZoneID := 2; ZoneName := "sub.example.com" |};
         {| ZoneID := 3; ZoneName := "example.co" |};
         {| ZoneID := 4; ZoneName := "example.com.." |} ] = None.
Proof.
  intros Hc Hz.
  assert (forall zn id,
             getZoneID p zn w = (w1, Ok id)
             <-> zoneLoop (GoStrings.TrimSuffix zn ".") zones = Some id) as Hok.
  { intros zn id. rewrite (getZoneID_run p zn w w1 c zones Hc Hz).
    destruct (zoneLoop _ zones); split; intros H; by inversion H. }
  split; [|split; [|split; [|split]]].
  - intros id. rewrite Hok. apply zoneLoop_Some.
  - rewrite <- zoneLoop_None, (getZoneID_run p zone w w1 c zones Hc Hz).
    destruct (zoneLoop _ zones); split; intros H; by inversion H.
  - intros s. apply TrimSuffix_app.
  - intros Hdot id. rewrite !Hok.
    by rewrite TrimSuffix_app, (TrimSuffix_without zone ".").
  - reflexivity.
Qed.

Lemma getZoneID_first_exact_match_witness :
  getZoneID (backend := TestDouble.backend) TestDouble.provider "example.org."
    (TestDouble.start [] 0)
  = ({| server := server (TestDouble.start [] 0); calls := [CallGetZones] |}, Ok 2%Z).
Proof.
  apply (proj1 (getZoneID_first_exact_match (backend := TestDouble.backend)
                  TestDouble.provider "example.org." (TestDouble.start [] 0)
                  {| server := server (TestDouble.start [] 0);
                     calls := [CallGetZones] |}
                  {| token := "test-token"; BaseURL := DefaultBaseURL |}
                  [ {| ZoneID := 1; ZoneName := "example.com" |};
                    {| ZoneID := 2; ZoneName := "example.org" |} ]
                  eq_refl eq_refl) 2%Z).
  exists [ {| ZoneID := 1; ZoneName := "example.com" |} ],
         {| ZoneID := 2; ZoneName := "example.org" |}, [].
  split; [reflexivity|]. split; [|split; reflexivity].
  intros y Hy. apply list_elem_of_singleton in Hy as ->. vm_compute. discriminate.
Defined.

(** ** Listing *)

Section ListFacts.

Context {codec : libdns.Codec} {backend : Backend}.

Lemma getLoop_converted (zone : string) (records : list Record_)
      (acc : list libdns.Record_) :
  getLoop zone records acc = acc ++ converted zone records.
Proof.
  revert acc. induction records as [|record records IH]; intros acc; simpl.
  - by rewrite app_nil_r.
  - unfold converted. simpl.
    destruct (internalToLibdns zone record) as [l|e]; rewrite IH.
    + by rewrite <- app_assoc.
    + done.
Qed.

End ListFacts.

(** C7: when the zone is found and the record list is fetched, [GetRecords]
    succeeds whatever the records are: it returns the conversions of the
    records that convert, in order, and leaves the others out; in
    particular a record that does not convert is not in the result and an
    empty record list gives an empty result.  When no zone of the fetched
    zone list has the requested name, [GetRecords] returns the
    zone-not-found error. *)
Theorem GetRecords_skips_unconvertible `{codec : libdns.Codec} `{backend : Backend}
    (p : Provider) (zone : string) (w : World) :
  (forall w1 w2 zoneID c records,
      getZoneID p zone w = (w1, Ok zoneID) ->
      newClient p = Ok c ->
      getRecords c zoneID "" w1 = (w2, Ok records) ->
      GetRecords p zone w = (w2, Ok (converted zone records))
      /\ (forall pre record post e,
             records = pre ++ record :: post ->
             internalToLibdns zone record = Err e ->
             converted zone records = converted zone pre ++ converted zone post)
      /\ (forall pre record post libdnsRec,
             records = pre ++ record :: post ->
             internalToLibdns zone record = Ok libdnsRec ->
             converted zone records
             = converted zone pre ++ libdnsRec :: converted zone post)
      /\ (records = [] ->
          exists res, GetRecords p zone w = (w2, Ok res) /\ length res = 0))
  /\ (forall w1 c zones,
         newClient p = Ok c ->
         getZones c w = (w1, Ok zones) ->
         (forall y, y ∈ zones ->
             GoStrings.TrimSuffix (ZoneName y) "." <> GoStrings.TrimSuffix zone ".") ->
         GetRecords p zone w = (w1, Err (Errorf ("zone not found: " +:+ zone)))).
Proof.
  split.
  - intros w1 w2 zoneID c records Hz Hc Hr.
    assert (GetRecords p zone w = (w2, Ok (converted zone records))) as Hrun.
    { unfold GetRecords.
      rewrite (bind_Ok _ _ w w1 zoneID) by done.
      rewrite (bind_Ok _ _ w1 w1 c) by (by rewrite Hc).
      rewrite (bind_Ok _ _ w1 w2 records) by done.
      unfold ret. by rewrite getLoop_converted. }
    split; [done|]. split; [|split].
    + intros pre record post e -> He. unfold converted.
      rewrite omap_app. simpl. by rewrite He.
    + intros pre record post l -> Hl. unfold converted.
      rewrite omap_app. simpl. by rewrite Hl.
    + intros ->. exists []. by rewrite Hrun.
  - intros w1 c zones Hc Hz Hnone.
    unfold GetRecords. apply bind_Err.
    rewrite (getZoneID_run p zone w w1 c zones Hc Hz).
    apply zoneLoop_None in Hnone. by rewrite Hnone.
Qed.

Lemma GetRecords_skips_unconvertible_witness :
  GetRecords (codec := TestDouble.codec) (backend := TestDouble.backend)
    TestDouble.provider "example.com"
    (TestDouble.start [TestDouble.rec 1 "www" "A" "192.0.2.1";
                       TestDouble.rec 2 "bad" "A" "";
                       TestDouble.rec 3 "mail" "A" "192.0.2.2"] 0)
  = ({| server := server (TestDouble.start
                            [TestDouble.rec 1 "www" "A" "192.0.2.1";
                             TestDouble.rec 2 "bad" "A" "";
                             TestDouble.rec 3 "mail" "A" "192.0.2.2"] 0);
        calls := [CallGetZones; CallGetRecords 1 ""] |},
     Ok [TestDouble.rr "www.example.com." "A" "192.0.2.1" 3600;
         TestDouble.rr "mail.example.com." "A" "192.0.2.2" 3600])
  /\ GetRecords (codec := TestDouble.codec) (backend := TestDouble.backend)
       TestDouble.provider "example.net" (TestDouble.start [] 0)
     = ({| server := server (TestDouble.start [] 0); calls := [CallGetZones] |},
        Err (Errorf "zone not found: example.net")).
Proof.
  split.
  - apply (proj1 (GetRecords_skips_unconvertible
                    (codec := TestDouble.codec) (backend := TestDouble.backend)
                    TestDouble.provider "example.com" _)
             {| server := server (TestDouble.start
                            [TestDouble.rec 1 "www" "A" "192.0.2.1";
                             TestDouble.rec 2 "bad" "A" "";
                             TestDouble.rec 3 "mail" "A" "192.0.2.2"] 0);
                calls := [CallGetZones] |}
             _ 1%Z {| token := "test-token"; BaseURL := DefaultBaseURL |}
             [TestDouble.rec 1 "www" "A" "192.0.2.1";
              TestDouble.rec 2 "bad" "A" "";
              TestDouble.rec 3 "mail" "A" "192.0.2.2"]);
      reflexivity.
  - apply (proj2 (GetRecords_skips_unconvertible
                    (codec := TestDouble.codec) (backend := TestDouble.backend)
                    TestDouble.provider "example.net" _)
             _ {| token := "test-token"; BaseURL := DefaultBaseURL |}
             [ {| ZoneID := 1; ZoneName := "example.com" |};
               {| ZoneID := 2; ZoneName := "example.org" |} ]);
      [reflexivity | reflexivity |].
    intros y Hy.
    apply elem_of_cons in Hy as [-> | Hy];
      [|apply list_elem_of_singleton in Hy as ->]; vm_compute; discriminate.
Defined.

(** ** Runs of plans *)

Section RunOpsFacts.

Context {codec : libdns.Codec} {backend : Backend}.

Variables (convertMsg zone : string) (client : Client) (zoneID : Z).

Local Abbreviation step := (stepOp convertMsg zone client zoneID).
Local Abbreviation run := (runOps convertMsg zone client zoneID).

Lemma bind_ext {A B} (m m' : M A) (k k' : A -> M B) (w : World) :
  m w = m' w -> (forall a w1, k a w1 = k' a w1) -> bind m k w = bind m' k' w.
Proof.
  intros Hm Hk. unfold bind. rewrite Hm.
  destruct (m' w) as [w1 [a|e]]; [apply Hk | done].
Qed.

Lemma bind_assoc {A B C} (m : M A) (k : A -> M B) (h : B -> M C) (w : World) :
  bind (bind m k) h w = bind m (fun a => bind (k a) h) w.
Proof. unfold bind. by destruct (m w) as [w1 [a|e]]. Qed.

Lemma runOps_app (ops1 ops2 : list Op) (acc : list libdns.Record_) (w : World) :
  run (ops1 ++ ops2) acc w = bind (run ops1 acc) (run ops2) w.
Proof.
  revert acc w. induction ops1 as [|op ops1 IH]; intros acc w; simpl.
  - done.
  - rewrite bind_assoc. apply bind_ext; [done|]. intros o w1. apply IH.
Qed.

(** A step makes exactly one call, whatever comes of it. *)
Lemma stepOp_calls (op : Op) (w w' : World) (r : result (option libdns.Record_)) :
  step op w = (w', r) -> calls w' = calls w ++ [callOf zoneID op].
Proof.
  destruct op as [id rec | rec | id]; simpl; intros Hs;
    unfold updateRecord, createRecord, deleteRecord in Hs; run_inv; congruence.
Qed.

(** The error of a failed step is a wrapped one. *)
Lemma stepOp_wraps (op : Op) (w w' : World) (e : error) :
  step op w = (w', Err e) -> exists msg cause, e = Wrapf msg cause.
Proof.
  destruct op as [id rec | rec | id]; simpl; intros Hs;
    run_inv; simplify_eq; eauto.
Qed.

(** A step gives a record back exactly when it is a write. *)
Lemma stepOp_isWrite (op : Op) (w w' : World) (o : option libdns.Record_) :
  step op w = (w', Ok o) -> is_Some o <-> isWrite op = true.
Proof.
  destruct op as [id rec | rec | id]; simpl; intros Hs;
    run_inv; simplify_eq;
    first [ by split; eauto | split; [by intros [? ?] | done] ].
Qed.

(** The first failing step ends the run: the error is the error of the
    step and the world is the world the step left. *)
Lemma runOps_abort (pre post : list Op) (op : Op)
      (acc acc1 : list libdns.Record_) (w w1 w2 : World) (e : error) :
  run pre acc w = (w1, Ok acc1) ->
  step op w1 = (w2, Err e) ->
  run (pre ++ op :: post) acc w = (w2, Err e).
Proof.
  intros Hpre Hop. rewrite runOps_app.
  rewrite (bind_Ok _ _ w w1 acc1) by done.
  simpl. by apply bind_Err.
Qed.

(** What a run has done when it returns. *)
Lemma runOps_trace (ops : list Op) (acc : list libdns.Record_)
      (w w' : World) (r : result (list libdns.Record_)) :
  run ops acc w = (w', r) ->
  match r with
  | Ok res =>
      calls w' = calls w ++ map (callOf zoneID) ops
      /\ length res = length acc + length (List.filter isWrite ops)
  | Err e =>
      exists pre op post acc1 w1,
        ops = pre ++ op :: post
        /\ run pre acc w = (w1, Ok acc1)
        /\ step op w1 = (w', Err e)
        /\ calls w' = calls w ++ map (callOf zoneID) (pre ++ [op])
  end.
Proof.
  revert acc w. induction ops as [|op ops IH]; intros acc w; simpl.
  - intros Hr. inversion Hr; subst. rewrite app_nil_r. split; [done | lia].
  - intros Hr.
    apply bind_inv in Hr as [(w1 & o & Hs & Hr) | (e & Hs & ->)].
    + pose proof (stepOp_calls _ _ _ _ Hs) as Hc.
      pose proof (stepOp_isWrite _ _ _ _ Hs) as Hw.
      apply IH in Hr. destruct r as [res | e].
      * destruct Hr as [Hcalls Hlen]. split.
        -- rewrite Hcalls, Hc. by rewrite <- app_assoc.
        -- rewrite Hlen. destruct o as [l|]; destruct (isWrite op).
           ++ rewrite length_app. simpl. lia.
           ++ destruct Hw as [Hw _]. by specialize (Hw (mk_is_Some _ _ eq_refl)).
           ++ destruct Hw as [_ Hw]. by destruct (Hw eq_refl).
           ++ done.
      * destruct Hr as (pre & op' & post & acc1 & w2 & -> & Hpre & Hop & Hcalls).
        exists (op :: pre), op', post, acc1, w2. repeat split; try done.
        -- simpl. by rewrite (bind_Ok _ _ w w1 o).
        -- rewrite Hcalls, Hc. by rewrite <- app_assoc.
    + exists [], op, ops, acc, w. repeat split; try done.
      simpl. by apply stepOp_calls in Hs.
Qed.

End RunOpsFacts.

(** ** The loops of the provider are runs of plans *)

Section Refinement.

Context {codec : libdns.Codec} {backend : Backend} {runtime : Runtime}.

Variables (zone : string) (client : Client) (zoneID : Z).

Lemma hasKey_true (key : recordKey) (e : Record_) :
  hasKey key e = true <-> keyOf e = key.
Proof.
  unfold hasKey, keyOf. destruct key as [n t]. simpl.
  rewrite andb_true_iff, !String.eqb_eq. split.
  - by intros [-> ->].
  - by intros [= -> ->].
Qed.

Lemma existingLoop_filter (key : recordKey) (existingRecords acc : list Record_) :
  existingLoop key existingRecords acc = acc ++ existingFor key existingRecords.
Proof.
  revert acc. unfold existingFor.
  induction existingRecords as [|e rest IH]; intros acc; simpl.
  - by rewrite app_nil_r.
  - destruct (hasKey key e) eqn:Hk.
    + apply hasKey_true in Hk. rewrite filter_cons_True by done.
      rewrite IH. by rewrite <- app_assoc.
    + rewrite filter_cons_False; [apply IH|].
      intros Hk'. apply hasKey_true in Hk'. congruence.
Qed.

Lemma inputLoop_runOps (existingForKey : list Record_) (i : nat)
      (inputRecs : list Record_) (acc : list libdns.Record_) (w : World) :
  inputLoop zone client zoneID existingForKey i inputRecs acc w
  = runOps "failed to convert record" zone client zoneID
           (planInputs existingForKey i inputRecs) acc w.
Proof.
  revert i acc w. induction inputRecs as [|d rest IH]; intros i acc w; simpl.
  - done.
  - destruct (existingForKey !! i) as [e|]; simpl;
      rewrite bind_assoc; (apply bind_ext; [done|]); intros resultRec w1;
      rewrite bind_assoc; (apply bind_ext; [done|]); intros l w2;
      apply IH.
Qed.

Lemma extraLoop_runOps {B} (convertMsg : string) (extra : list Record_)
      (acc : list libdns.Record_) (k : list libdns.Record_ -> M B) (w : World) :
  bind (extraLoop client zoneID extra) (fun _ => k acc) w
  = bind (runOps convertMsg zone client zoneID
                 (map (fun e => OpDelete (ID e)) extra) acc) k w.
Proof.
  revert w. induction extra as [|e rest IH]; intros w; simpl.
  - done.
  - rewrite !bind_assoc. apply bind_ext; [done|]. intros [] w1.
    apply IH.
Qed.

Lemma keyLoop_runOps (existingRecords : list Record_)
      (entries : list (recordKey * list Record_))
      (acc : list libdns.Record_) (w : World) :
  keyLoop zone client zoneID existingRecords entries acc w
  = runOps "failed to convert record" zone client zoneID
           (plan existingRecords entries) acc w.
Proof.
  revert acc w. induction entries as [|[key inputRecs] rest IH]; intros acc w.
  - done.
  - change (plan existingRecords ((key, inputRecs) :: rest))
      with (planKey existingRecords (key, inputRecs) ++ plan existingRecords rest).
    unfold planKey. cbn [fst snd keyLoop].
    rewrite <- app_assoc, runOps_app.
    rewrite existingLoop_filter. cbn [app].
    apply bind_ext; [apply inputLoop_runOps|]. intros sr w1.
    rewrite runOps_app.
    rewrite (extraLoop_runOps "failed to convert record").
    apply bind_ext; [done|]. intros sr' w2. apply IH.
Qed.

Lemma appendLoop_runOps (records : list libdns.Record_)
      (acc : list libdns.Record_) (w : World) :
  appendLoop zone client zoneID records acc w
  = runOps "failed to convert created record" zone client zoneID
           (map (fun r => OpCreate (libdnsToInternal zone r)) records) acc w.
Proof.
  revert acc w. induction records as [|r rest IH]; intros acc w; simpl.
  - done.
  - rewrite bind_assoc. apply bind_ext; [done|]. intros createdRec w1.
    rewrite bind_assoc. apply bind_ext; [done|]. intros l w2.
    apply IH.
Qed.

End Refinement.

(** ** Grouping the input by key *)

Section Grouping.

Context {codec : libdns.Codec} {runtime : Runtime}.

Variable zone : string.

Lemma bucket_snoc (records : list libdns.Record_) (r : libdns.Record_)
      (key : recordKey) :
  bucket zone (records ++ [r]) key
  = bucket zone records key
    ++ (if decide (keyOf (libdnsToInternal zone r) = key)
        then [libdnsToInternal zone r] else []).
Proof.
  unfold bucket. by rewrite map_app, filter_app.
Qed.

(** The map built by the grouping loop holds, under each key, the bucket
    of that key; keys with an empty bucket are absent. *)
Lemma groupInput_lookup (records : list libdns.Record_) (key : recordKey) :
  groupInput zone records !! key
  = match bucket zone records key with
    | [] => None
    | l => Some l
    end.
Proof.
  induction records as [|r records IH] using rev_ind.
  - done.
  - unfold groupInput in *. rewrite fold_left_app. simpl.
    unfold groupStep at 1. rewrite bucket_snoc.
    set (m := fold_left (groupStep zone) records ∅) in *.
    destruct (decide (keyOf (libdnsToInternal zone r) = key)) as [<- | Hne].
    + rewrite lookup_insert_eq, IH.
      destruct (bucket zone records (keyOf (libdnsToInternal zone r))); simpl.
      * done.
      * done.
    + rewrite lookup_insert_ne by done. by rewrite IH, app_nil_r.
Qed.

Lemma elem_of_entriesOf (records : list libdns.Record_)
      (key : recordKey) (v : list Record_) :
  (key, v) ∈ entriesOf zone records <-> bucket zone records key = v /\ v <> [].
Proof.
  unfold entriesOf. rewrite (mapRange_perm _).
  rewrite elem_of_map_to_list, groupInput_lookup.
  destruct (bucket zone records key) as [|x l]; split.
  - done.
  - by intros [<- ?].
  - by intros [= <-].
  - by intros [<- _].
Qed.

Lemma NoDup_entriesOf (records : list libdns.Record_) :
  NoDup (entriesOf zone records).*1.
Proof.
  unfold entriesOf. rewrite (mapRange_perm _). apply NoDup_fst_map_to_list.
Qed.

Lemma bucket_nonempty (records : list libdns.Record_) (key : recordKey) :
  bucket zone records key <> []
  <-> key ∈ map (fun r => keyOf (libdnsToInternal zone r)) records.
Proof.
  unfold bucket. split.
  - intros Hne.
    destruct (filter _ _) as [|x l] eqn:Hf; [done|].
    assert (x ∈ filter (fun r => keyOf r = key) (map (libdnsToInternal zone) records))
      as Hx by (rewrite Hf; left).
    apply list_elem_of_filter in Hx as [Hk Hx].
    apply list_elem_of_fmap in Hx as (r & -> & Hr).
    apply list_elem_of_fmap. by exists r.
  - intros Hin Hnil.
    apply list_elem_of_fmap in Hin as (r & -> & Hr).
    assert (libdnsToInternal zone r
            ∈ filter (fun r0 => keyOf r0 = keyOf (libdnsToInternal zone r))
                (map (libdnsToInternal zone) records)) as Hx.
    { apply list_elem_of_filter. split; [done|].
      apply list_elem_of_fmap. by exists r. }
    rewrite Hnil in Hx. by apply elem_of_nil in Hx.
Qed.

(** The keys visited are the keys present in the input. *)
Lemma keys_entriesOf (records : list libdns.Record_) (key : recordKey) :
  key ∈ (entriesOf zone records).*1
  <-> key ∈ map (fun r => keyOf (libdnsToInternal zone r)) records.
Proof.
  rewrite <- bucket_nonempty. split.
  - intros Hk. apply list_elem_of_fmap in Hk as ([k v] & -> & Hkv).
    apply elem_of_entriesOf in Hkv as [Hb Hv]. simpl. by rewrite Hb.
  - intros Hne. apply list_elem_of_fmap.
    exists (key, bucket zone records key). split; [done|].
    by apply elem_of_entriesOf.
Qed.

Lemma filter_split_length {A} (P Q : A -> Prop)
      `{!forall x, Decision (P x)} `{!forall x, Decision (Q x)} (l : list A) :
  (forall x, P x -> Q x -> False) ->
  length (filter (fun x => P x \/ Q x) l)
  = length (filter P l) + length (filter Q l).
Proof.
  intros Hdisj. induction l as [|x l IH]; [done|].
  destruct (decide (P x)) as [HP|HP]; destruct (decide (Q x)) as [HQ|HQ].
  - destruct (Hdisj x HP HQ).
  - rewrite (filter_cons_True (fun x => P x \/ Q x)) by tauto.
    rewrite (filter_cons_True P), (filter_cons_False Q) by done.
    simpl. lia.
  - rewrite (filter_cons_True (fun x => P x \/ Q x)) by tauto.
    rewrite (filter_cons_False P), (filter_cons_True Q) by done.
    simpl. lia.
  - rewrite (filter_cons_False (fun x => P x \/ Q x)) by tauto.
    rewrite (filter_cons_False P), (filter_cons_False Q) by done.
    done.
Qed.

Lemma buckets_partition (ks : list recordKey) (rs : list Record_) :
  NoDup ks ->
  sum_list (map (fun k => length (filter (fun r => keyOf r = k) rs)) ks)
  = length (filter (fun r => keyOf r ∈ ks) rs).
Proof.
  induction 1 as [|k ks Hk Hnd IH]; simpl.
  - symmetry. apply length_zero_iff_nil.
    induction rs as [|r rs IHrs]; [done|].
    rewrite filter_cons_False; [done|]. apply not_elem_of_nil.
  - rewrite IH.
    rewrite <- (filter_split_length (fun r => keyOf r = k) (fun r => keyOf r ∈ ks)).
    + f_equal. apply list_filter_iff. intros r. rewrite elem_of_cons. done.
    + intros r <- Hin. done.
Qed.

Lemma filter_all {A} (P : A -> Prop) `{!forall x, Decision (P x)} (l : list A) :
  (forall x, x ∈ l -> P x) -> filter P l = l.
Proof.
  induction l as [|x l IH]; intros Hall; [done|].
  rewrite filter_cons_True by (apply Hall; left).
  f_equal. apply IH. intros y Hy. apply Hall. by right.
Qed.

(** Every input record is in exactly one visited bucket. *)
Lemma entries_total (records : list libdns.Record_) :
  sum_list (map (fun kv => length kv.2) (entriesOf zone records)) = length records.
Proof.
  transitivity
    (sum_list (map (fun k => length (bucket zone records k)) (entriesOf zone records).*1)).
  - f_equal. change ((entriesOf zone records).*1) with (map fst (entriesOf zone records)).
    rewrite map_map.
    apply map_ext_in. intros [k v] Hkv%list_elem_of_In. simpl.
    apply elem_of_entriesOf in Hkv as [-> _]. done.
  - unfold bucket. rewrite buckets_partition by apply NoDup_entriesOf.
    rewrite <- (length_map (libdnsToInternal zone) records).
    f_equal. apply filter_all.
    intros x Hx. apply keys_entriesOf.
    apply list_elem_of_fmap in Hx as (r & -> & Hr).
    apply list_elem_of_fmap. by exists r.
Qed.

End Grouping.

(** ** Shape of the plan *)

Section PlanFacts.

Variable existingRecords : list Record_.

Lemma planInputs_lookup (existing : list Record_) (j i : nat)
      (inputRecs : list Record_) :
  planInputs existing j inputRecs !! i
  = (fun d => match existing !! (j + i) with
              | Some e => OpUpdate (ID e) d
              | None => OpCreate d
              end) <$> inputRecs !! i.
Proof.
  revert j i. induction inputRecs as [|d rest IH]; intros j i; [done|].
  destruct i as [|i]; simpl.
  - by rewrite Nat.add_0_r.
  - rewrite IH. by replace (S j + i) with (j + S i) by lia.
Qed.

Lemma planInputs_isWrite (existing : list Record_) (j : nat)
      (inputRecs : list Record_) :
  List.filter isWrite (planInputs existing j inputRecs)
  = planInputs existing j inputRecs
  /\ length (planInputs existing j inputRecs) = length inputRecs.
Proof.
  revert j. induction inputRecs as [|d rest IH]; intros j; [done|].
  simpl. destruct (IH (S j)) as [-> ->].
  by destruct (existing !! j).
Qed.

Lemma deletes_not_isWrite (extra : list Record_) :
  List.filter isWrite (map (fun e => OpDelete (ID e)) extra) = [].
Proof. induction extra as [|e rest IH]; [done | exact IH]. Qed.

Lemma plan_cons (entry : recordKey * list Record_)
      (entries : list (recordKey * list Record_)) :
  plan existingRecords (entry :: entries)
  = planKey existingRecords entry ++ plan existingRecords entries.
Proof. reflexivity. Qed.

Lemma plan_writes (entries : list (recordKey * list Record_)) :
  length (List.filter isWrite (plan existingRecords entries))
  = sum_list (map (fun kv => length kv.2) entries).
Proof.
  induction entries as [|[k v] rest IH]; [done|].
  rewrite plan_cons, List.filter_app, length_app, IH. simpl. f_equal.
  unfold planKey. simpl.
  rewrite List.filter_app, deletes_not_isWrite, app_nil_r.
  destruct (planInputs_isWrite (existingFor k existingRecords) 0 v) as [-> ->].
  done.
Qed.

Lemma elem_of_plan (entries : list (recordKey * list Record_)) (op : Op) :
  op ∈ plan existingRecords entries
  <-> exists kv, kv ∈ entries /\ op ∈ planKey existingRecords kv.
Proof.
  induction entries as [|entry rest IH].
  - split; [intros H; by apply elem_of_nil in H|].
    intros (kv & H & _). by apply elem_of_nil in H.
  - rewrite plan_cons, elem_of_app, IH. split.
    + intros [H | (kv & Hkv & H)].
      * exists entry. split; [left | done].
      * exists kv. split; [by right | done].
    + intros (kv & Hkv & H). apply elem_of_cons in Hkv as [-> | Hkv].
      * by left.
      * right. by exists kv.
Qed.

(** Where an operation of the plan of a key comes from. *)
Lemma planKey_origin (key : recordKey) (desired : list Record_) (op : Op) :
  op ∈ planKey existingRecords (key, desired) <->
  match op with
  | OpUpdate id d =>
      exists i e, desired !! i = Some d
                  /\ existingFor key existingRecords !! i = Some e
                  /\ ID e = id
  | OpCreate d =>
      exists i, desired !! i = Some d
                /\ length (existingFor key existingRecords) <= i
  | OpDelete id =>
      exists i e, existingFor key existingRecords !! i = Some e
                  /\ length desired <= i
                  /\ ID e = id
  end.
Proof.
  unfold planKey. simpl.
  set (existing := existingFor key existingRecords).
  rewrite elem_of_app, !list_elem_of_lookup.
  setoid_rewrite planInputs_lookup. setoid_rewrite list_lookup_fmap.
  setoid_rewrite lookup_drop. simpl.
  split.
  - intros [[i Hi] | [i Hi]].
    + destruct (desired !! i) as [d|] eqn:Hd; [|done]. simpl in Hi.
      destruct (existing !! i) as [e|] eqn:He; inversion Hi; subst.
      * by exists i, e.
      * exists i. split; [done|]. by apply lookup_ge_None.
    + destruct (existing !! (length desired + i)) as [e|] eqn:He; [|done].
      inversion Hi; subst. exists (length desired + i), e.
      repeat split; [done | lia].
  - destruct op as [id d | d | id].
    + intros (i & e & Hd & He & <-). left. exists i. by rewrite Hd, He.
    + intros (i & Hd & Hlen). left. exists i.
      apply lookup_ge_None in Hlen. by rewrite Hd, Hlen.
    + intros (i & e & He & Hlen & <-). right. exists (i - length desired).
      replace (length desired + (i - length desired)) with i by lia.
      by rewrite He.
Qed.

Lemma elem_of_existingFor (key : recordKey) (e : Record_) :
  e ∈ existingFor key existingRecords <-> keyOf e = key /\ e ∈ existingRecords.
Proof. unfold existingFor. by rewrite list_elem_of_filter. Qed.

Lemma isWriteCall_callOf (zoneID : Z) (ops : list Op) :
  List.filter isWriteCall (map (callOf zoneID) ops)
  = map (callOf zoneID) (List.filter isWrite ops).
Proof.
  induction ops as [|op ops IH]; [done|].
  destruct op; simpl; by rewrite IH.
Qed.

End PlanFacts.

(** ** Runs of [SetRecords] and [AppendRecords] *)

Section SetFacts.

Context {codec : libdns.Codec} {backend : Backend} {runtime : Runtime}.

Lemma call_inv {A} (c : Call) (f : Server -> Server * result A)
      (w w' : World) (r : result A) :
  call c f w = (w', r) ->
  calls w' = calls w ++ [c] /\ f (server w) = (server w', r).
Proof.
  unfold call. destruct (f (server w)) as [s r'].
  intros Hc. by inversion Hc.
Qed.

(** Whatever the outcome, zone resolution only reads. *)
Lemma getZoneID_reads (p : Provider) (zone : string) (w w' : World)
      (r : result Z) :
  getZoneID p zone w = (w', r) ->
  calls w' = calls w \/ calls w' = calls w ++ [CallGetZones].
Proof.
  unfold getZoneID. intros Hg.
  apply bind_inv in Hg as [(w0 & c & Hc & Hg) | (e & Hc & _)].
  - apply lift_inv in Hc as [-> _].
    apply bind_inv in Hg as [(w1 & zones & Hz & Hg) | (e & Hz & _)].
    + apply call_calls in Hz. right.
      destruct (zoneLoop _ zones); inversion Hg; by subst.
    + apply call_calls in Hz. by right.
  - apply lift_inv in Hc as [-> _]. by left.
Qed.

Lemma SetRecords_run (p : Provider) (zone : string)
      (records : list libdns.Record_) (w w1 w2 : World)
      (zoneID : Z) (c : Client) (existingRecords : list Record_) :
  getZoneID p zone w = (w1, Ok zoneID) ->
  newClient p = Ok c ->
  getRecords c zoneID "" w1 = (w2, Ok existingRecords) ->
  SetRecords p zone records w
  = runOps "failed to convert record" zone c zoneID
           (plan existingRecords (entriesOf zone records)) [] w2.
Proof.
  intros Hz Hc Hr. unfold SetRecords.
  rewrite (bind_Ok _ _ w w1 zoneID) by done.
  rewrite (bind_Ok _ _ w1 w1 c) by (by rewrite Hc).
  rewrite (bind_Ok _ _ w1 w2 existingRecords) by done.
  apply keyLoop_runOps.
Qed.

(** A run of [SetRecords] either stops before its first write, having
    only read, or fetches the existing records and runs the plan. *)
Lemma SetRecords_inv (p : Provider) (zone : string)
      (records : list libdns.Record_) (w w' : World)
      (r : result (list libdns.Record_)) :
  SetRecords p zone records w = (w', r) ->
  (exists e cs, r = Err e /\ calls w' = calls w ++ cs /\ Forall isRead cs)
  \/ (exists w1 w2 zoneID c existingRecords,
         getZoneID p zone w = (w1, Ok zoneID)
         /\ newClient p = Ok c
         /\ getRecords c zoneID "" w1 = (w2, Ok existingRecords)
         /\ calls w2 = calls w ++ [CallGetZones; CallGetRecords zoneID ""]
         /\ runOps "failed to convert record" zone c zoneID
                   (plan existingRecords (entriesOf zone records)) [] w2
            = (w', r)).
Proof.
  intros Hs. pose proof Hs as Hs0. unfold SetRecords in Hs.
  apply bind_inv in Hs as [(w1 & zoneID & Hz & Hs) | (e & Hz & ->)].
  - pose proof (getZoneID_calls _ _ _ _ _ Hz) as Hcz.
    apply bind_inv in Hs as [(w1' & c & Hc & Hs) | (e & Hc & ->)].
    + apply lift_inv in Hc as [-> Hc]. symmetry in Hc.
      apply bind_inv in Hs as [(w2 & ex & Hr & Hs) | (e & Hr & ->)].
      * right. exists w1, w2, zoneID, c, ex.
        repeat split; try done.
        -- apply call_calls in Hr. rewrite Hr, Hcz. by rewrite <- app_assoc.
        -- by rewrite <- (SetRecords_run p zone records w w1 w2 zoneID c ex).
      * left. exists e, [CallGetZones; CallGetRecords zoneID ""].
        repeat split; try done.
        -- apply call_calls in Hr. rewrite Hr, Hcz. by rewrite <- app_assoc.
        -- repeat constructor.
    + apply lift_inv in Hc as [-> Hc].
      left. exists e, [CallGetZones]. repeat split; try done.
      repeat constructor.
  - left. apply getZoneID_reads in Hz as [Hz | Hz].
    + exists e, []. rewrite app_nil_r. by repeat split.
    + exists e, [CallGetZones]. repeat split; try done. repeat constructor.
Qed.

Lemma AppendRecords_run (p : Provider) (zone : string)
      (records : list libdns.Record_) (w w1 : World) (zoneID : Z) (c : Client) :
  getZoneID p zone w = (w1, Ok zoneID) ->
  newClient p = Ok c ->
  AppendRecords p zone records w
  = runOps "failed to convert created record" zone c zoneID
           (map (fun r => OpCreate (libdnsToInternal zone r)) records) [] w1.
Proof.
  intros Hz Hc. unfold AppendRecords.
  rewrite (bind_Ok _ _ w w1 zoneID) by done.
  rewrite (bind_Ok _ _ w1 w1 c) by (by rewrite Hc).
  apply appendLoop_runOps.
Qed.

Lemma AppendRecords_inv (p : Provider) (zone : string)
      (records : list libdns.Record_) (w w' : World)
      (r : result (list libdns.Record_)) :
  AppendRecords p zone records w = (w', r) ->
  (exists e cs, r = Err e /\ calls w' = calls w ++ cs /\ Forall isRead cs)
  \/ (exists w1 zoneID c,
         getZoneID p zone w = (w1, Ok zoneID)
         /\ newClient p = Ok c
         /\ calls w1 = calls w ++ [CallGetZones]
         /\ runOps "failed to convert created record" zone c zoneID
                   (map (fun r => OpCreate (libdnsToInternal zone r)) records)
                   [] w1
            = (w', r)).
Proof.
  intros Hs. pose proof Hs as Hs0. unfold AppendRecords in Hs.
  apply bind_inv in Hs as [(w1 & zoneID & Hz & Hs) | (e & Hz & ->)].
  - pose proof (getZoneID_calls _ _ _ _ _ Hz) as Hcz.
    apply bind_inv in Hs as [(w1' & c & Hc & Hs) | (e & Hc & ->)].
    + apply lift_inv in Hc as [-> Hc]. symmetry in Hc.
      right. exists w1, zoneID, c. repeat split; try done.
      by rewrite <- (AppendRecords_run p zone records w w1 zoneID c).
    + apply lift_inv in Hc as [-> Hc].
      left. exists e, [CallGetZones]. repeat split; try done.
      repeat constructor.
  - left. apply getZoneID_reads in Hz as [Hz | Hz].
    + exists e, []. rewrite app_nil_r. by repeat split.
    + exists e, [CallGetZones]. repeat split; try done. repeat constructor.
Qed.

(** When every input record has the same key, the map has one entry. *)
Lemma entriesOf_one_key (zone : string) (records : list libdns.Record_)
      (key : recordKey) :
  records <> [] ->
  (forall r, r ∈ records -> keyOf (libdnsToInternal zone r) = key) ->
  entriesOf zone records = [(key, map (libdnsToInternal zone) records)].
Proof.
  intros Hne Hall.
  assert (bucket zone records key = map (libdnsToInternal zone) records) as Hb.
  { unfold bucket. apply filter_all. intros x Hx.
    apply list_elem_of_fmap in Hx as (r & -> & Hr). by apply Hall. }
  assert ((key, map (libdnsToInternal zone) records) ∈ entriesOf zone records)
    as Hin.
  { apply elem_of_entriesOf. split; [done|]. by destruct records. }
  assert (forall kv, kv ∈ entriesOf zone records -> kv.1 = key) as Hkeys.
  { intros [k v] Hkv. simpl.
    assert (k ∈ (entriesOf zone records).*1) as Hk.
    { apply list_elem_of_fmap. by exists (k, v). }
    apply keys_entriesOf in Hk.
    apply list_elem_of_fmap in Hk as (r & -> & Hr). by apply Hall. }
  pose proof (NoDup_entriesOf zone records) as Hnd.
  destruct (entriesOf zone records) as [|a [|b E]].
  - by apply elem_of_nil in Hin.
  - by apply list_elem_of_singleton in Hin as <-.
  - exfalso. rewrite !fmap_cons in Hnd.
    apply NoDup_cons in Hnd as [Hnotin _]. apply Hnotin.
    rewrite (Hkeys a) by left.
    rewrite (Hkeys b) by (right; left). left.
Qed.

End SetFacts.

(** C1: in a run of [SetRecords] that returns without error, the calls after
    the two reads are the calls of the plan, key by key in the order in which
    the map is visited, and for every key present in the input, with
    [desired] the input bucket of the key and [existing] the fetched records
    with the key, in the order of the provider: each desired record that
    has an existing record at its index is sent as an update of that
    record's ID, each desired record beyond the existing ones is sent as a
    create, and each existing record beyond the desired ones is deleted.
    One input record against two existing records of its key gives one
    update of the first and one delete of the second, and one returned
    record; three input records of one key against one existing record give
    one update and two creates, no delete, and three returned records. *)
Theorem SetRecords_reconciles
    `{codec : libdns.Codec} `{backend : Backend} `{runtime : Runtime}
    (p : Provider) (zone : string) (records : list libdns.Record_)
    (w w' : World) (res : list libdns.Record_) :
  SetRecords p zone records w = (w', Ok res) ->
  exists w1 w2 zoneID client existingRecords newcalls,
    getZoneID p zone w = (w1, Ok zoneID)
    /\ newClient p = Ok client
    /\ getRecords client zoneID "" w1 = (w2, Ok existingRecords)
    /\ calls w' = calls w ++ [CallGetZones; CallGetRecords zoneID ""] ++ newcalls
    /\ newcalls = map (callOf zoneID) (plan existingRecords (entriesOf zone records))
    /\ (forall key,
           key ∈ map (fun r => keyOf (libdnsToInternal zone r)) records ->
           let desired := bucket zone records key in
           let existing := existingFor key existingRecords in
           (forall i d e,
               desired !! i = Some d -> existing !! i = Some e ->
               CallUpdateRecord zoneID (ID e) d ∈ newcalls)
           /\ (forall i d,
                  desired !! i = Some d -> length existing <= i ->
                  CallCreateRecord zoneID d ∈ newcalls)
           /\ (forall i e,
                  existing !! i = Some e -> length desired <= i ->
                  CallDeleteRecord zoneID (ID e) ∈ newcalls))
    /\ (forall r e1 e2,
           records = [r] ->
           existingFor (keyOf (libdnsToInternal zone r)) existingRecords = [e1; e2] ->
           newcalls = [CallUpdateRecord zoneID (ID e1) (libdnsToInternal zone r);
                       CallDeleteRecord zoneID (ID e2)]
           /\ length res = 1)
    /\ (forall r1 r2 r3 e1,
           records = [r1; r2; r3] ->
           keyOf (libdnsToInternal zone r2) = keyOf (libdnsToInternal zone r1) ->
           keyOf (libdnsToInternal zone r3) = keyOf (libdnsToInternal zone r1) ->
           existingFor (keyOf (libdnsToInternal zone r1)) existingRecords = [e1] ->
           newcalls = [CallUpdateRecord zoneID (ID e1) (libdnsToInternal zone r1);
                       CallCreateRecord zoneID (libdnsToInternal zone r2);
                       CallCreateRecord zoneID (libdnsToInternal zone r3)]
           /\ length res = 3).
Proof.
  intros Hs.
  apply SetRecords_inv in Hs
    as [(e & cs & He & _) | (w1 & w2 & zoneID & c & ex & Hz & Hc & Hr & Hcalls & Hrun)];
    [discriminate|].
  apply runOps_trace in Hrun as [Htrace Hres].
  exists w1, w2, zoneID, c, ex, (map (callOf zoneID) (plan ex (entriesOf zone records))).
  assert (length res = length records) as Hcount.
  { rewrite Hres, plan_writes, entries_total. done. }
  do 3 (split; [done|]).
  split; [rewrite Htrace, Hcalls; by rewrite <- app_assoc|].
  split; [done|].
  split; [|split].
  - intros key Hkey desired existing.
    assert ((key, desired) ∈ entriesOf zone records) as Hentry.
    { apply elem_of_entriesOf. split; [done|]. by apply bucket_nonempty. }
    split; [|split].
    + intros i d e Hd He.
      apply (list_elem_of_fmap_2 (callOf zoneID) _ (OpUpdate (ID e) d)).
      apply elem_of_plan. exists (key, desired). split; [done|].
      apply planKey_origin. by exists i, e.
    + intros i d Hd Hlen.
      apply (list_elem_of_fmap_2 (callOf zoneID) _ (OpCreate d)).
      apply elem_of_plan. exists (key, desired). split; [done|].
      apply planKey_origin. by exists i.
    + intros i e He Hlen.
      apply (list_elem_of_fmap_2 (callOf zoneID) _ (OpDelete (ID e))).
      apply elem_of_plan. exists (key, desired). split; [done|].
      apply planKey_origin. by exists i, e.
  - intros r e1 e2 -> Hex. split; [|done].
    rewrite (entriesOf_one_key zone [r] (keyOf (libdnsToInternal zone r)));
      [|done|].
    + unfold plan, planKey. simpl. by rewrite Hex.
    + intros r' Hr'. by apply list_elem_of_singleton in Hr' as ->.
  - intros r1 r2 r3 e1 -> Hk2 Hk3 Hex. split; [|done].
    rewrite (entriesOf_one_key zone [r1; r2; r3] (keyOf (libdnsToInternal zone r1)));
      [|done|].
    + unfold plan, planKey. simpl. by rewrite Hex.
    + intros r' Hr'. repeat (apply elem_of_cons in Hr' as [-> | Hr']); try done.
      by apply elem_of_nil in Hr'.
Qed.

Lemma SetRecords_reconciles_witness :
  exists newcalls,
    calls (SetRecords (codec := TestDouble.codec) (backend := TestDouble.backend)
             (runtime := TestDouble.backward) TestDouble.provider "example.com."
             [TestDouble.rr "www" "A" "192.0.2.100" 7200]
             (TestDouble.start [TestDouble.rec 1 "www" "A" "192.0.2.1";
                                TestDouble.rec 2 "www" "A" "192.0.2.2";
                                TestDouble.rec 3 "mail" "A" "192.0.2.2"] 10)).1
    = [CallGetZones; CallGetRecords 1 ""] ++ newcalls
    /\ newcalls
       = [CallUpdateRecord 1 1
            (libdnsToInternal (codec := TestDouble.codec) "example.com."
               (TestDouble.rr "www" "A" "192.0.2.100" 7200));
          CallDeleteRecord 1 2].
Proof.
  destruct (SetRecords_reconciles
              (codec := TestDouble.codec) (backend := TestDouble.backend)
              (runtime := TestDouble.backward) TestDouble.provider "example.com."
              [TestDouble.rr "www" "A" "192.0.2.100" 7200]
              (TestDouble.start [TestDouble.rec 1 "www" "A" "192.0.2.1";
                                 TestDouble.rec 2 "www" "A" "192.0.2.2";
                                 TestDouble.rec 3 "mail" "A" "192.0.2.2"] 10)
              _ _ eq_refl)
    as (w1 & w2 & zoneID & c & ex & newcalls & Hz & Hc & Hr & Hcalls & _ & _ & Hone & _).
  vm_compute in Hz. injection Hz as <- <-.
  vm_compute in Hc. injection Hc as <-.
  vm_compute in Hr. injection Hr as <- <-.
  exists newcalls. split.
  - exact Hcalls.
  - apply (Hone _ (TestDouble.rec 1 "www" "A" "192.0.2.1")
             (TestDouble.rec 2 "www" "A" "192.0.2.2") eq_refl eq_refl).
Defined.

Section FrameFacts.

Context {codec : libdns.Codec} {backend : Backend} {runtime : Runtime}.

(** Every call of a run of [SetRecords], failed or not, is a read or an
    operation of the plan. *)
Lemma SetRecords_calls (p : Provider) (zone : string)
      (records : list libdns.Record_) (w w' : World)
      (r : result (list libdns.Record_)) :
  SetRecords p zone records w = (w', r) ->
  exists newcalls,
    calls w' = calls w ++ newcalls
    /\ forall call, call ∈ newcalls ->
         isRead call
         \/ exists w1 w2 zoneID c existingRecords op,
              getZoneID p zone w = (w1, Ok zoneID)
              /\ newClient p = Ok c
              /\ getRecords c zoneID "" w1 = (w2, Ok existingRecords)
              /\ op ∈ plan existingRecords (entriesOf zone records)
              /\ call = callOf zoneID op.
Proof.
  intros Hs.
  apply SetRecords_inv in Hs
    as [(e & cs & He & Hcs & Hread)
       | (w1 & w2 & zoneID & c & ex & Hz & Hc & Hr & Hcalls & Hrun)].
  - exists cs. split; [done|]. intros call Hcall. left.
    rewrite Forall_forall in Hread. by apply Hread.
  - assert (exists ops,
               calls w' = calls w2 ++ map (callOf zoneID) ops
               /\ forall op, op ∈ ops -> op ∈ plan ex (entriesOf zone records))
      as (ops & Hops & Hsub).
    { apply runOps_trace in Hrun. destruct r as [res | e].
      - destruct Hrun as [Htrace _]. by eexists.
      - destruct Hrun as (pre & op & post & acc1 & wa & Hplan & _ & _ & Htrace).
        exists (pre ++ [op]). split; [done|]. intros op' Hop'.
        rewrite Hplan. rewrite elem_of_app in Hop'. rewrite elem_of_app.
        destruct Hop' as [Hop' | Hop']; [by left|].
        apply list_elem_of_singleton in Hop' as ->. right. left. }
    exists ([CallGetZones; CallGetRecords zoneID ""] ++ map (callOf zoneID) ops).
    split; [rewrite Hops, Hcalls; by rewrite <- app_assoc|].
    intros call Hcall. rewrite elem_of_app in Hcall.
    destruct Hcall as [Hcall | Hcall].
    + left. repeat (apply elem_of_cons in Hcall as [-> | Hcall]); try done.
      by apply elem_of_nil in Hcall.
    + right. apply list_elem_of_fmap in Hcall as (op & -> & Hop).
      exists w1, w2, zoneID, c, ex, op. repeat split; try done. by apply Hsub.
Qed.

(** An update or a delete of the plan is aimed at an existing record
    whose key is a key of the input. *)
Lemma plan_touches (zone : string) (records : list libdns.Record_)
      (existingRecords : list Record_) (op : Op) (id : Z) :
  op ∈ plan existingRecords (entriesOf zone records) ->
  (exists d, op = OpUpdate id d) \/ op = OpDelete id ->
  exists e, e ∈ existingRecords
            /\ ID e = id
            /\ keyOf e ∈ map (fun r => keyOf (libdnsToInternal zone r)) records.
Proof.
  intros Hop Hkind.
  apply elem_of_plan in Hop as ([key desired] & Hentry & Hop).
  assert (key ∈ map (fun r => keyOf (libdnsToInternal zone r)) records) as Hkey.
  { apply keys_entriesOf. apply list_elem_of_fmap. by exists (key, desired). }
  apply planKey_origin in Hop.
  destruct Hkind as [[d ->] | ->].
  - destruct Hop as (i & e & _ & He & Hid). exists e.
    apply list_elem_of_lookup_2, elem_of_existingFor in He as [<- He]. done.
  - destruct Hop as (i & e & He & _ & Hid). exists e.
    apply list_elem_of_lookup_2, elem_of_existingFor in He as [<- He]. done.
Qed.

End FrameFacts.

(** C5: in every run of [SetRecords], finished or aborted, each update call
    and each delete call is aimed at the ID of a fetched record whose key
    is a key of the input; so, the IDs of the fetched records being
    distinct, a fetched record whose key is absent from the input gets no
    update call and no delete call. *)
Theorem SetRecords_leaves_other_keys
    `{codec : libdns.Codec} `{backend : Backend} `{runtime : Runtime}
    (p : Provider) (zone : string) (records : list libdns.Record_)
    (w w' : World) (r : result (list libdns.Record_)) :
  SetRecords p zone records w = (w', r) ->
  exists newcalls,
    calls w' = calls w ++ newcalls
    /\ (forall zoneID id,
           (exists d, CallUpdateRecord zoneID id d ∈ newcalls)
           \/ CallDeleteRecord zoneID id ∈ newcalls ->
           exists w1 w2 c existingRecords e,
             getZoneID p zone w = (w1, Ok zoneID)
             /\ newClient p = Ok c
             /\ getRecords c zoneID "" w1 = (w2, Ok existingRecords)
             /\ e ∈ existingRecords
             /\ ID e = id
             /\ keyOf e ∈ map (fun r => keyOf (libdnsToInternal zone r)) records)
    /\ (forall w1 w2 zoneID c existingRecords e,
           getZoneID p zone w = (w1, Ok zoneID) ->
           newClient p = Ok c ->
           getRecords c zoneID "" w1 = (w2, Ok existingRecords) ->
           NoDup (map ID existingRecords) ->
           e ∈ existingRecords ->
           keyOf e ∉ map (fun r => keyOf (libdnsToInternal zone r)) records ->
           forall zoneID' d,
             (CallUpdateRecord zoneID' (ID e) d ∉ newcalls)
             /\ (CallDeleteRecord zoneID' (ID e) ∉ newcalls)).
Proof.
  intros Hs. apply SetRecords_calls in Hs as (newcalls & Hcalls & Hsub).
  exists newcalls. split; [done|].
  assert (forall zoneID id,
             (exists d, CallUpdateRecord zoneID id d ∈ newcalls)
             \/ CallDeleteRecord zoneID id ∈ newcalls ->
             exists w1 w2 c existingRecords e,
               getZoneID p zone w = (w1, Ok zoneID)
               /\ newClient p = Ok c
               /\ getRecords c zoneID "" w1 = (w2, Ok existingRecords)
               /\ e ∈ existingRecords
               /\ ID e = id
               /\ keyOf e ∈ map (fun r => keyOf (libdnsToInternal zone r)) records)
    as Haimed.
  { intros zoneID id Hcall.
    assert (exists call, call ∈ newcalls
                         /\ ((exists d, call = CallUpdateRecord zoneID id d)
                             \/ call = CallDeleteRecord zoneID id))
      as (call & Hin & Hkind).
    { destruct Hcall as [[d Hd] | Hd]; eexists; split; eauto. }
    apply Hsub in Hin
      as [Hread | (w1 & w2 & zid & c & ex & op & Hz & Hc & Hr & Hop & ->)].
    { destruct Hkind as [[d ->] | ->]; destruct Hread. }
    assert (zid = zoneID
            /\ ((exists d, op = OpUpdate id d) \/ op = OpDelete id)) as [-> Hop'].
    { destruct op; destruct Hkind as [[d' Hk] | Hk]; inversion Hk; subst; eauto. }
    destruct (plan_touches zone records ex op id Hop Hop') as (e & He & Hid & Hkey).
    by exists w1, w2, c, ex, e. }
  split; [exact Haimed|].
  intros w1 w2 zoneID c ex e Hz Hc Hr Hnd He Hkey zoneID' d.
  assert (forall call,
             (exists d0, call = CallUpdateRecord zoneID' (ID e) d0)
             \/ call = CallDeleteRecord zoneID' (ID e) ->
             call ∉ newcalls) as Hnone.
  { intros call Hkind Hin.
    destruct (Haimed zoneID' (ID e)) as (w1' & w2' & c' & ex' & e' & Hz' & Hc' & Hr' & He' & Hid & Hkey').
    { destruct Hkind as [[d0 ->] | ->]; eauto. }
    rewrite Hz in Hz'. inversion Hz'; subst.
    rewrite Hc in Hc'. inversion Hc'; subst.
    rewrite Hr in Hr'. inversion Hr'; subst.
    assert (e' = e) as ->; [|done].
    apply list_elem_of_lookup in He as [i Hi].
    apply list_elem_of_lookup in He' as [j Hj].
    assert (i = j) as ->.
    { eapply NoDup_lookup; [exact Hnd | |].
      - change (map ID ex') with (ID <$> ex'). rewrite list_lookup_fmap, Hi. done.
      - change (map ID ex') with (ID <$> ex'). rewrite list_lookup_fmap, Hj. simpl.
        by rewrite Hid. }
    congruence. }
  split; apply Hnone; eauto.
Qed.

Lemma SetRecords_leaves_other_keys_witness :
    (CallUpdateRecord 1 3 (TestDouble.rec 0 "mail" "A" "192.0.2.9")
     ∉ calls (SetRecords (codec := TestDouble.codec)
                (backend := TestDouble.backend)
                (runtime := TestDouble.backward) TestDouble.provider
                "example.com."
                [TestDouble.rr "www" "A" "192.0.2.100" 7200]
                (TestDouble.start [TestDouble.rec 1 "www" "A" "192.0.2.1";
                                   TestDouble.rec 2 "www" "A" "192.0.2.2";
                                   TestDouble.rec 3 "mail" "A" "192.0.2.2"]
                                  10)).1)
    /\ (CallDeleteRecord 1 3
        ∉ calls (SetRecords (codec := TestDouble.codec)
                   (backend := TestDouble.backend)
                   (runtime := TestDouble.backward) TestDouble.provider
                   "example.com."
                   [TestDouble.rr "www" "A" "192.0.2.100" 7200]
                   (TestDouble.start [TestDouble.rec 1 "www" "A" "192.0.2.1";
                                      TestDouble.rec 2 "www" "A" "192.0.2.2";
                                      TestDouble.rec 3 "mail" "A" "192.0.2.2"]
                                     10)).1).
Proof.
  destruct (SetRecords_leaves_other_keys
              (codec := TestDouble.codec) (backend := TestDouble.backend)
              (runtime := TestDouble.backward) TestDouble.provider "example.com."
              [TestDouble.rr "www" "A" "192.0.2.100" 7200]
              (TestDouble.start [TestDouble.rec 1 "www" "A" "192.0.2.1";
                                 TestDouble.rec 2 "www" "A" "192.0.2.2";
                                 TestDouble.rec 3 "mail" "A" "192.0.2.2"] 10)
              _ _ eq_refl)
    as (newcalls & Hcalls & _ & Hframe).
  assert (calls (SetRecords (codec := TestDouble.codec)
                   (backend := TestDouble.backend)
                   (runtime := TestDouble.backward) TestDouble.provider
                   "example.com."
                   [TestDouble.rr "www" "A" "192.0.2.100" 7200]
                   (TestDouble.start [TestDouble.rec 1 "www" "A" "192.0.2.1";
                                      TestDouble.rec 2 "www" "A" "192.0.2.2";
                                      TestDouble.rec 3 "mail" "A" "192.0.2.2"]
                                     10)).1 = newcalls) as -> by exact Hcalls.
  apply (Hframe _ _ 1%Z _ _ (TestDouble.rec 3 "mail" "A" "192.0.2.2")
           eq_refl eq_refl eq_refl).
  - vm_compute. repeat constructor; intros Hin;
      repeat (apply elem_of_cons in Hin as [Hin | Hin]; [discriminate|]);
      by apply elem_of_nil in Hin.
  - right; right; left.
  - vm_compute. intros Hin.
    repeat (apply elem_of_cons in Hin as [Hin | Hin]; [discriminate|]).
    by apply elem_of_nil in Hin.
Defined.

(** C8: once the zone and, for [SetRecords], the existing records are
    fetched, the two operations run their planned steps in order, each step
    being one create, update or delete call followed by the conversion of
    its result.  When the steps before a step succeed and that step fails,
    the operation returns the error of the step, which is a wrapped error,
    in the world that the failing step left: the trace ends with the call
    of the failing step, no call follows it, and the calls made before it
    stay made.  Every run that fails after its reads is of this form. *)
Theorem writes_abort_without_rollback
    `{codec : libdns.Codec} `{backend : Backend} `{runtime : Runtime}
    (p : Provider) (zone : string) (records : list libdns.Record_) (w : World) :
  (forall w1 w2 zoneID c existingRecords pre op post acc wa wb e,
      getZoneID p zone w = (w1, Ok zoneID) ->
      newClient p = Ok c ->
      getRecords c zoneID "" w1 = (w2, Ok existingRecords) ->
      plan existingRecords (entriesOf zone records) = pre ++ op :: post ->
      runOps "failed to convert record" zone c zoneID pre [] w2 = (wa, Ok acc) ->
      stepOp "failed to convert record" zone c zoneID op wa = (wb, Err e) ->
      SetRecords p zone records w = (wb, Err e)
      /\ (exists msg cause, e = Wrapf msg cause)
      /\ calls wb = calls w ++ [CallGetZones; CallGetRecords zoneID ""]
                    ++ map (callOf zoneID) (pre ++ [op]))
  /\ (forall w' e,
         SetRecords p zone records w = (w', Err e) ->
         (exists cs, calls w' = calls w ++ cs /\ Forall isRead cs)
         \/ (exists w1 w2 zoneID c existingRecords pre op post acc wa,
                getZoneID p zone w = (w1, Ok zoneID)
                /\ newClient p = Ok c
                /\ getRecords c zoneID "" w1 = (w2, Ok existingRecords)
                /\ plan existingRecords (entriesOf zone records) = pre ++ op :: post
                /\ runOps "failed to convert record" zone c zoneID pre [] w2
                   = (wa, Ok acc)
                /\ stepOp "failed to convert record" zone c zoneID op wa
                   = (w', Err e)
                /\ (exists msg cause, e = Wrapf msg cause)
                /\ calls w' = calls w ++ [CallGetZones; CallGetRecords zoneID ""]
                              ++ map (callOf zoneID) (pre ++ [op])))
  /\ (forall w1 zoneID c pre record post acc wa wb e,
         getZoneID p zone w = (w1, Ok zoneID) ->
         newClient p = Ok c ->
         records = pre ++ record :: post ->
         appendLoop zone c zoneID pre [] w1 = (wa, Ok acc) ->
         stepOp "failed to convert created record" zone c zoneID
                (OpCreate (libdnsToInternal zone record)) wa = (wb, Err e) ->
         AppendRecords p zone records w = (wb, Err e)
         /\ (exists msg cause, e = Wrapf msg cause)
         /\ calls wb = calls w ++ [CallGetZones]
                       ++ map (fun r => CallCreateRecord zoneID (libdnsToInternal zone r))
                              (pre ++ [record]))
  /\ (forall w' e,
         AppendRecords p zone records w = (w', Err e) ->
         (exists cs, calls w' = calls w ++ cs /\ Forall isRead cs)
         \/ (exists w1 zoneID c pre record post acc wa,
                getZoneID p zone w = (w1, Ok zoneID)
                /\ newClient p = Ok c
                /\ records = pre ++ record :: post
                /\ appendLoop zone c zoneID pre [] w1 = (wa, Ok acc)
                /\ stepOp "failed to convert created record" zone c zoneID
                          (OpCreate (libdnsToInternal zone record)) wa = (w', Err e)
                /\ (exists msg cause, e = Wrapf msg cause)
                /\ calls w' = calls w ++ [CallGetZones]
                              ++ map (fun r => CallCreateRecord zoneID
                                                 (libdnsToInternal zone r))
                                     (pre ++ [record]))).
Proof.
  split; [|split; [|split]].
  - intros w1 w2 zoneID c ex pre op post acc wa wb e Hz Hc Hr Hplan Hpre Hop.
    assert (SetRecords p zone records w = (wb, Err e)) as Hrun.
    { rewrite (SetRecords_run p zone records w w1 w2 zoneID c ex) by done.
      rewrite Hplan. by apply (runOps_abort _ _ _ _ pre post op [] acc w2 wa wb). }
    split; [done|]. split; [by apply stepOp_wraps in Hop|].
    apply runOps_trace in Hpre as [Hpre _].
    apply stepOp_calls in Hop. rewrite Hop, Hpre.
    apply getZoneID_calls in Hz. apply call_calls in Hr. rewrite Hr, Hz.
    rewrite map_app. simpl. by rewrite <- !app_assoc.
  - intros w' e Hs.
    apply SetRecords_inv in Hs
      as [(e' & cs & _ & Hcs & Hread)
         | (w1 & w2 & zoneID & c & ex & Hz & Hc & Hr & Hcalls & Hrun)].
    + left. by exists cs.
    + right. apply runOps_trace in Hrun
        as (pre & op & post & acc & wa & Hplan & Hpre & Hop & Htrace).
      exists w1, w2, zoneID, c, ex, pre, op, post, acc, wa.
      repeat split; try done.
      * by apply stepOp_wraps in Hop.
      * rewrite Htrace, Hcalls. by rewrite <- app_assoc.
  - intros w1 zoneID c pre record post acc wa wb e Hz Hc -> Hpre Hop.
    rewrite appendLoop_runOps in Hpre.
    assert (AppendRecords p zone (pre ++ record :: post) w = (wb, Err e)) as Hrun.
    { rewrite (AppendRecords_run p zone _ w w1 zoneID c) by done.
      rewrite map_app. simpl.
      by apply (runOps_abort _ _ _ _ _ _ _ [] acc w1 wa wb). }
    split; [done|]. split; [by apply stepOp_wraps in Hop|].
    apply runOps_trace in Hpre as [Hpre _].
    apply stepOp_calls in Hop. rewrite Hop, Hpre.
    apply getZoneID_calls in Hz. rewrite Hz.
    rewrite map_app, map_map. simpl. by rewrite <- !app_assoc.
  - intros w' e Hs.
    apply AppendRecords_inv in Hs
      as [(e' & cs & _ & Hcs & Hread)
         | (w1 & zoneID & c & Hz & Hc & Hcalls & Hrun)].
    + left. by exists cs.
    + right. apply runOps_trace in Hrun
        as (pre & op & post & acc & wa & Hplan & Hpre & Hop & Htrace).
      apply map_eq_app in Hplan as (rpre & rrest & -> & <- & Hrest).
      destruct rrest as [|record rpost]; [discriminate|].
      simpl in Hrest. injection Hrest as <- <-.
      exists w1, zoneID, c, rpre, record, rpost, acc, wa.
      repeat split; try done.
      * by rewrite appendLoop_runOps.
      * by apply stepOp_wraps in Hop.
      * rewrite Htrace, Hcalls.
        rewrite !map_app, map_map. simpl. by rewrite <- !app_assoc.
Qed.

Lemma writes_abort_without_rollback_witness :
  SetRecords (codec := TestDouble.codec) (backend := TestDouble.backend)
    (runtime := TestDouble.forward) TestDouble.provider "example.com."
    [TestDouble.rr "www" "A" "192.0.2.100" 7200]
    (TestDouble.start [TestDouble.rec 1 "www" "A" "192.0.2.1";
                       TestDouble.rec 2 "www" "A" "192.0.2.2"] 1)
  = (@mkWorld TestDouble.backend
          {| TestDouble.zones :=
               [ {| ZoneID := 1; ZoneName := "example.com" |};
                 {| ZoneID := 2; ZoneName := "example.org" |} ];
             TestDouble.records :=
               [ {| ID := 1; Name := "www"; Type_ := "A";
                    Content := "192.0.2.100"; TTL := 7200; Priority := 0 |};
                 TestDouble.rec 2 "www" "A" "192.0.2.2" ];
             TestDouble.nextID := 100;
             TestDouble.budget := 0 |}
          [ CallGetZones; CallGetRecords 1 "";
            CallUpdateRecord 1 1
              {| ID := 0; Name := "www"; Type_ := "A";
                 Content := "192.0.2.100"; TTL := 7200; Priority := 0 |};
            CallDeleteRecord 1 2 ],
     Err (Wrapf "failed to delete extra record 2"
            (ExternalError "unexpected status code: 500"))).
Proof.
  apply (proj1 (writes_abort_without_rollback
                  (codec := TestDouble.codec) (backend := TestDouble.backend)
                  (runtime := TestDouble.forward) TestDouble.provider
                  "example.com."
                  [TestDouble.rr "www" "A" "192.0.2.100" 7200]
                  (TestDouble.start [TestDouble.rec 1 "www" "A" "192.0.2.1";
                                     TestDouble.rec 2 "www" "A" "192.0.2.2"] 1))
           (@mkWorld TestDouble.backend
              (server (TestDouble.start [TestDouble.rec 1 "www" "A" "192.0.2.1";
                                         TestDouble.rec 2 "www" "A" "192.0.2.2"] 1))
              [CallGetZones])
           (@mkWorld TestDouble.backend
              (server (TestDouble.start [TestDouble.rec 1 "www" "A" "192.0.2.1";
                                         TestDouble.rec 2 "www" "A" "192.0.2.2"] 1))
              [CallGetZones; CallGetRecords 1 ""])
           1%Z {| token := "test-token"; BaseURL := DefaultBaseURL |}
           [TestDouble.rec 1 "www" "A" "192.0.2.1";
            TestDouble.rec 2 "www" "A" "192.0.2.2"]
           [OpUpdate 1 {| ID := 0; Name := "www"; Type_ := "A";
                          Content := "192.0.2.100"; TTL := 7200; Priority := 0 |}]
           (OpDelete 2) []
           [TestDouble.rr "www.example.com." "A" "192.0.2.100" 7200]
           (@mkWorld TestDouble.backend
              {| TestDouble.zones :=
                   [ {| ZoneID := 1; ZoneName := "example.com" |};
                     {| ZoneID := 2; ZoneName := "example.org" |} ];
                 TestDouble.records :=
                   [ {| ID := 1; Name := "www"; Type_ := "A";
                        Content := "192.0.2.100"; TTL := 7200; Priority := 0 |};
                     TestDouble.rec 2 "www" "A" "192.0.2.2" ];
                 TestDouble.nextID := 100;
                 TestDouble.budget := 0 |}
              [ CallGetZones; CallGetRecords 1 "";
                CallUpdateRecord 1 1
                  {| ID := 0; Name := "www"; Type_ := "A";
                     Content := "192.0.2.100"; TTL := 7200; Priority := 0 |} ]));
    vm_compute; reflexivity.
Defined.

Lemma creates_isWrite {A : Type} (g : A -> Record_) (l : list A) :
  List.filter isWrite (map (fun r => OpCreate (g r)) l)
  = map (fun r => OpCreate (g r)) l.
Proof. induction l as [|x l IH]; [done|]. simpl. by rewrite IH. Qed.

(** C10: a run of [AppendRecords] or of [SetRecords] that returns without
    error returns as many records as it was given, and has made exactly
    that many create and update calls: one per input record. *)
Theorem one_result_per_input
    `{codec : libdns.Codec} `{backend : Backend} `{runtime : Runtime}
    (p : Provider) (zone : string) (records : list libdns.Record_)
    (w w' : World) (res : list libdns.Record_) :
  (AppendRecords p zone records w = (w', Ok res) ->
   length res = length records
   /\ exists zoneID,
        calls w' = calls w ++ CallGetZones
                     :: map (fun r => CallCreateRecord zoneID (libdnsToInternal zone r))
                            records)
  /\ (SetRecords p zone records w = (w', Ok res) ->
      length res = length records
      /\ exists newcalls,
           calls w' = calls w ++ newcalls
           /\ length (List.filter isWriteCall newcalls) = length records).
Proof.
  split.
  - intros Hs.
    apply AppendRecords_inv in Hs
      as [(e & cs & He & _) | (w1 & zoneID & c & Hz & Hc & Hcalls & Hrun)];
      [discriminate|].
    apply runOps_trace in Hrun as [Htrace Hlen]. split.
    + rewrite Hlen. simpl. by rewrite creates_isWrite, length_map.
    + exists zoneID. rewrite Htrace, Hcalls, map_map. simpl.
      by rewrite <- app_assoc.
  - intros Hs.
    apply SetRecords_inv in Hs
      as [(e & cs & He & _)
         | (w1 & w2 & zoneID & c & ex & Hz & Hc & Hr & Hcalls & Hrun)];
      [discriminate|].
    apply runOps_trace in Hrun as [Htrace Hlen]. split.
    + rewrite Hlen, plan_writes, entries_total. done.
    + exists ([CallGetZones; CallGetRecords zoneID ""]
              ++ map (callOf zoneID) (plan ex (entriesOf zone records))).
      split; [rewrite Htrace, Hcalls; by rewrite <- app_assoc|].
      rewrite List.filter_app. simpl.
      rewrite isWriteCall_callOf, length_map, plan_writes, entries_total. done.
Qed.

Lemma one_result_per_input_witness :
  exists res,
    (AppendRecords (codec := TestDouble.codec) (backend := TestDouble.backend)
       TestDouble.provider "example.com"
       [TestDouble.rr "test1" "A" "192.0.2.1" 3600;
        TestDouble.rr "test2" "A" "192.0.2.2" 3600]
       (TestDouble.start [] 10)).2 = Ok res
    /\ length res = 2.
Proof.
  destruct (proj1 (one_result_per_input
                     (codec := TestDouble.codec) (backend := TestDouble.backend)
                     (runtime := TestDouble.forward)
                     TestDouble.provider "example.com"
                     [TestDouble.rr "test1" "A" "192.0.2.1" 3600;
                      TestDouble.rr "test2" "A" "192.0.2.2" 3600]
                     (TestDouble.start [] 10) _ _) eq_refl) as [Hlen _].
  eexists. split; [reflexivity | exact Hlen].
Defined.

(** ** Deleting *)

Section DeleteFacts.

Context {codec : libdns.Codec} {backend : Backend}.

Variables (zone : string) (client : Client) (zoneID : Z).

Local Abbreviation deletes :=
  (map (fun e => CallDeleteRecord zoneID (ID e))).

Local Abbreviation convertsTo :=
  (Forall2 (fun e l => internalToLibdns zone e = Ok l)).

Lemma exact_test (internalRec e : Record_) :
  (Name e =? Name internalRec) && (Type_ e =? Type_ internalRec)
  && (Content e =? Content internalRec) = true
  <-> Name e = Name internalRec /\ Type_ e = Type_ internalRec
      /\ Content e = Content internalRec.
Proof. rewrite !andb_true_iff, !String.eqb_eq. tauto. Qed.

Lemma key_test (internalRec e : Record_) :
  (Name e =? Name internalRec) && (Type_ e =? Type_ internalRec) = true
  <-> Name e = Name internalRec /\ Type_ e = Type_ internalRec.
Proof. by rewrite !andb_true_iff, !String.eqb_eq. Qed.

(** Deleting one record and converting it, as both inner loops do. *)
Lemma delete_convert_inv (e : Record_) (w w' : World)
      {B} (k : libdns.Record_ -> M B) (r : B) :
  bind (wrapErr ("failed to delete record " +:+ GoFmt.Sprintf_d (ID e))
                (deleteRecord client zoneID (ID e)))
       (fun _ => bind (wrapErr "failed to convert deleted record"
                               (lift (internalToLibdns zone e))) k) w
  = (w', Ok r) ->
  exists w1 l,
    calls w1 = calls w ++ [CallDeleteRecord zoneID (ID e)]
    /\ internalToLibdns zone e = Ok l
    /\ k l w1 = (w', Ok r).
Proof.
  intros Hb.
  apply bind_inv_Ok in Hb as (w1 & [] & Hd & Hb).
  apply wrapErr_inv_Ok, call_calls in Hd.
  apply bind_inv_Ok in Hb as (w2 & l' & Hl & Hb).
  apply wrapErr_inv_Ok, lift_inv in Hl as [-> Hl].
  by exists w1, l'.
Qed.

Lemma exactLoop_trace (internalRec : Record_) (existingRecords : list Record_)
      (acc acc' : list libdns.Record_) (found found' : bool) (w w' : World) :
  exactLoop zone client zoneID internalRec existingRecords acc found w
  = (w', Ok (acc', found')) ->
  exists news,
    calls w' = calls w ++ deletes (exactMatches internalRec existingRecords)
    /\ acc' = acc ++ news
    /\ convertsTo (exactMatches internalRec existingRecords) news
    /\ found' = found
                || bool_decide (exactMatches internalRec existingRecords <> []).
Proof.
  revert acc found w. unfold exactMatches.
  induction existingRecords as [|e rest IH]; intros acc found w; simpl.
  - intros Hr. inversion Hr; subst. exists [].
    rewrite !app_nil_r, orb_false_r. repeat split; try done; constructor.
  - destruct ((Name e =? Name internalRec) && (Type_ e =? Type_ internalRec)
              && (Content e =? Content internalRec)) eqn:Ht.
    + apply exact_test in Ht. rewrite filter_cons_True by done.
      intros Hr. apply delete_convert_inv in Hr as (w1 & l & Hc & Hl & Hr).
      apply IH in Hr as (news & Hcalls & -> & Hconv & ->).
      exists (l :: news). simpl. rewrite Hcalls, Hc.
      rewrite <- !app_assoc.
      split; [done|]. split; [done|]. split; [by constructor|].
      by rewrite orb_true_r.
    + rewrite filter_cons_False; [apply IH|].
      intros Ht'. apply exact_test in Ht'. congruence.
Qed.

Lemma fallbackLoop_trace (internalRec : Record_) (existingRecords : list Record_)
      (acc acc' : list libdns.Record_) (w w' : World) :
  fallbackLoop zone client zoneID internalRec existingRecords acc w
  = (w', Ok acc') ->
  exists news,
    calls w' = calls w ++ deletes (take 1 (keyMatches internalRec existingRecords))
    /\ acc' = acc ++ news
    /\ convertsTo (take 1 (keyMatches internalRec existingRecords)) news.
Proof.
  revert acc w. unfold keyMatches.
  induction existingRecords as [|e rest IH]; intros acc w; simpl.
  - intros Hr. inversion Hr; subst. exists [].
    rewrite !app_nil_r. repeat split; try done; constructor.
  - destruct ((Name e =? Name internalRec) && (Type_ e =? Type_ internalRec))
      eqn:Ht.
    + apply key_test in Ht. rewrite filter_cons_True by done.
      intros Hr. apply delete_convert_inv in Hr as (w1 & l & Hc & Hl & Hr).
      inversion Hr; subst. exists [l]. simpl.
      repeat split; try done; by repeat constructor.
    + rewrite filter_cons_False; [apply IH|].
      intros Ht'. apply key_test in Ht'. congruence.
Qed.

Lemma deleteLoop_trace (existingRecords : list Record_)
      (records : list libdns.Record_) (acc acc' : list libdns.Record_)
      (w w' : World) :
  deleteLoop zone client zoneID existingRecords records acc w = (w', Ok acc') ->
  exists news,
    calls w' = calls w ++ deletes (allTargets zone existingRecords records)
    /\ acc' = acc ++ news
    /\ convertsTo (allTargets zone existingRecords records) news.
Proof.
  revert acc w. induction records as [|record rest IH]; intros acc w; simpl.
  - intros Hr. inversion Hr; subst. exists [].
    rewrite !app_nil_r. repeat split; try done; constructor.
  - intros Hr.
    apply bind_inv_Ok in Hr as (w1 & [acc1 found1] & Hexact & Hr).
    apply exactLoop_trace in Hexact as (news1 & Hc1 & -> & Hconv1 & ->).
    apply bind_inv_Ok in Hr as (w2 & acc2 & Hfall & Hr).
    apply IH in Hr as (news3 & Hc3 & -> & Hconv3).
    unfold allTargets. simpl. fold (allTargets zone existingRecords rest).
    unfold deleteTargets at 1 2.
    simpl in Hfall.
    destruct (exactMatches (libdnsToInternal zone record) existingRecords)
      as [|m ms] eqn:Hm.
    + rewrite bool_decide_eq_false_2 in Hfall by (intros H; by apply H).
      simpl in Hfall.
      apply fallbackLoop_trace in Hfall as (news2 & Hc2 & -> & Hconv2).
      exists (news1 ++ news2 ++ news3).
      rewrite Hc3, Hc2, Hc1, !map_app. simpl.
      rewrite <- !app_assoc. repeat split; try done.
      inversion Hconv1; subst. simpl. by apply Forall2_app.
    + rewrite bool_decide_eq_true_2 in Hfall by done.
      simpl in Hfall. inversion Hfall; subst.
      exists (news1 ++ news3).
      rewrite Hc3, Hc1, !map_app.
      rewrite <- !app_assoc. repeat split; try done.
      by apply Forall2_app.
Qed.

End DeleteFacts.

(** C4: in a run of [DeleteRecords] that returns without error, the delete
    calls are, input record by input record and in the order of the fetched
    list, the deletes of the fetched records that are equal to the
    translated input record on name, type and content when there is at
    least one, and otherwise the delete of the first fetched record equal
    to it on name and type, if any; the result is the list of the
    conversions of the deleted records, in the same order. *)
Theorem DeleteRecords_targets
    `{codec : libdns.Codec} `{backend : Backend}
    (p : Provider) (zone : string) (records : list libdns.Record_)
    (w w' : World) (res : list libdns.Record_) :
  DeleteRecords p zone records w = (w', Ok res) ->
  exists w1 w2 zoneID c existingRecords newcalls,
    getZoneID p zone w = (w1, Ok zoneID)
    /\ newClient p = Ok c
    /\ getRecords c zoneID "" w1 = (w2, Ok existingRecords)
    /\ calls w' = calls w ++ [CallGetZones; CallGetRecords zoneID ""] ++ newcalls
    /\ newcalls = map (fun e => CallDeleteRecord zoneID (ID e))
                      (allTargets zone existingRecords records)
    /\ Forall2 (fun e l => internalToLibdns zone e = Ok l)
               (allTargets zone existingRecords records) res
    /\ forall record,
         record ∈ records ->
         let internalRec := libdnsToInternal zone record in
         (exactMatches internalRec existingRecords <> [] ->
          deleteTargets internalRec existingRecords
          = exactMatches internalRec existingRecords)
         /\ (exactMatches internalRec existingRecords = [] ->
             deleteTargets internalRec existingRecords
             = take 1 (keyMatches internalRec existingRecords))
         /\ (forall e,
                e ∈ deleteTargets internalRec existingRecords ->
                CallDeleteRecord zoneID (ID e) ∈ newcalls
                /\ exists l, internalToLibdns zone e = Ok l /\ l ∈ res).
Proof.
  intros Hs. unfold DeleteRecords in Hs.
  apply bind_inv_Ok in Hs as (w1 & zoneID & Hz & Hs).
  apply bind_inv_Ok in Hs as (w1' & c & Hc & Hs).
  apply lift_inv in Hc as [-> Hc]. symmetry in Hc.
  apply bind_inv_Ok in Hs as (w2 & ex & Hr & Hs).
  apply deleteLoop_trace in Hs as (news & Hcalls & -> & Hconv).
  exists w1, w2, zoneID, c, ex,
    (map (fun e => CallDeleteRecord zoneID (ID e)) (allTargets zone ex records)).
  do 3 (split; [done|]).
  split.
  { apply getZoneID_calls in Hz. apply call_calls in Hr.
    rewrite Hcalls, Hr, Hz. by rewrite <- !app_assoc. }
  split; [done|]. split; [done|].
  intros record Hrecord internalRec.
  split; [|split].
  - unfold deleteTargets. by destruct (exactMatches internalRec ex).
  - unfold deleteTargets. by intros ->.
  - intros e He.
    assert (e ∈ allTargets zone ex records) as Hall.
    { unfold allTargets. apply list_elem_of_In, in_concat.
      exists (deleteTargets internalRec ex). split.
      - apply in_map_iff. exists record. split; [done|].
        by apply list_elem_of_In.
      - by apply list_elem_of_In. }
    split.
    + by apply (list_elem_of_fmap_2 (fun e => CallDeleteRecord zoneID (ID e))).
    + apply list_elem_of_lookup in Hall as [i Hi].
      destruct (Forall2_lookup_l _ _ _ _ _ Hconv Hi) as (l & Hl & Hok).
      exists l. split; [done|]. by apply list_elem_of_lookup_2 in Hl.
Qed.

Lemma DeleteRecords_targets_witness :
  exists newcalls,
    calls (DeleteRecords (codec := TestDouble.codec) (backend := TestDouble.backend)
             TestDouble.provider "example.com"
             [TestDouble.rr "www" "A" "192.0.2.1" 3600;
              TestDouble.rr "mail" "A" "192.0.2.99" 3600]
             (TestDouble.start [TestDouble.rec 1 "www" "A" "192.0.2.1";
                                TestDouble.rec 2 "mail" "A" "192.0.2.2";
                                TestDouble.rec 3 "www" "A" "192.0.2.1";
                                TestDouble.rec 4 "mail" "A" "192.0.2.3"] 10)).1
    = [CallGetZones; CallGetRecords 1 ""] ++ newcalls
    /\ newcalls = [CallDeleteRecord 1 1; CallDeleteRecord 1 3; CallDeleteRecord 1 2].
Proof.
  destruct (DeleteRecords_targets
              (codec := TestDouble.codec) (backend := TestDouble.backend)
              TestDouble.provider "example.com"
              [TestDouble.rr "www" "A" "192.0.2.1" 3600;
               TestDouble.rr "mail" "A" "192.0.2.99" 3600]
              (TestDouble.start [TestDouble.rec 1 "www" "A" "192.0.2.1";
                                 TestDouble.rec 2 "mail" "A" "192.0.2.2";
                                 TestDouble.rec 3 "www" "A" "192.0.2.1";
                                 TestDouble.rec 4 "mail" "A" "192.0.2.3"] 10)
              _ _ eq_refl)
    as (w1 & w2 & zoneID & c & ex & newcalls & Hz & Hc & Hr & Hcalls & Hnew & _).
  vm_compute in Hz. injection Hz as <- <-.
  vm_compute in Hc. injection Hc as <-.
  vm_compute in Hr. injection Hr as <- <-.
  exists newcalls. split; [exact Hcalls|].
  rewrite Hnew. reflexivity.
Defined.

(** * Further properties *)

(** ** More facts about the string functions *)

Section MoreStringFacts.

Import GoStrings.

Lemma app_assoc_string (s t u : string) : (s +:+ t) +:+ u = s +:+ (t +:+ u).
Proof. induction s as [|c s IH]; [done | exact (f_equal (String c) IH)]. Qed.

Lemma app_cons_string (a : ascii) (s t : string) :
  String a s +:+ t = String a (s +:+ t).
Proof. reflexivity. Qed.

Lemma app_nil_l_string (s : string) : "" +:+ s = s.
Proof. reflexivity. Qed.

Lemma app_nil_r_string (s : string) : s +:+ "" = s.
Proof. induction s as [|c s IH]; [done | exact (f_equal (String c) IH)]. Qed.

Lemma CutSuffix_app (s suffix : string) : CutSuffix (s +:+ suffix) suffix = (s, true).
Proof.
  unfold CutSuffix. rewrite HasSuffix_app, length_app_string.
  replace (String.length s + String.length suffix - String.length suffix)
    with (String.length s) by lia.
  by rewrite take_app.
Qed.

Lemma trimLeftByte_head (s : string) (c : ascii) (p : string) :
  trimLeftByte s c <> String c p.
Proof.
  induction s as [|a s IH]; simpl; [done|].
  destruct (Ascii.eqb_spec a c) as [-> | Hne]; [done|].
  intros [= Ha _]. done.
Qed.

Lemma trimLeftByte_suffix (s : string) (c : ascii) :
  exists q, s = q +:+ trimLeftByte s c.
Proof.
  induction s as [|a s [q IH]]; simpl.
  - by exists "".
  - destruct (Ascii.eqb a c).
    + exists (String a q). exact (f_equal (String a) IH).
    + by exists "".
Qed.

Lemma trimLeftByte_id (s : string) (c : ascii) :
  (forall p, s <> String c p) -> trimLeftByte s c = s.
Proof.
  destruct s as [|a s]; simpl; [done|]. intros Hs.
  destruct (Ascii.eqb_spec a c) as [-> | Hne]; [by destruct (Hs s) | done].
Qed.

Lemma app_one_inv (p : string) (c a : ascii) (t : string) :
  String a t = p +:+ String c "" ->
  (p = "" /\ a = c /\ t = "") \/ (exists p', p = String a p' /\ t = p' +:+ String c "").
Proof.
  destruct p as [|b p];
    rewrite ?app_nil_l_string, ?app_cons_string; intros He.
  - left. by inversion He.
  - right. inversion He; subst. eauto.
Qed.

Lemma trimRightByte_last (s : string) (c : ascii) (p : string) :
  trimRightByte s c <> p +:+ String c "".
Proof.
  revert p. induction s as [|a s IH]; intros p; simpl.
  - by destruct p.
  - destruct (trimRightByte s c) as [|b t] eqn:Ht.
    + destruct (Ascii.eqb_spec a c) as [-> | Hne].
      * by destruct p.
      * intros He. apply app_one_inv in He as [(_ & ? & _) | (p' & _ & He)];
          [done | by destruct p'].
    + intros He. apply app_one_inv in He as [(_ & _ & ?) | (p' & _ & He)];
        [done | by apply (IH p')].
Qed.

Lemma trimRightByte_id (s : string) (c : ascii) :
  (forall p, s <> p +:+ String c "") -> trimRightByte s c = s.
Proof.
  induction s as [|a s IH]; simpl; [done|]. intros Hs.
  rewrite IH.
  - destruct s as [|b t]; [|done].
    destruct (Ascii.eqb_spec a c) as [-> | Hne]; [by destruct (Hs "") | done].
  - intros p ->. by apply (Hs (String a p)).
Qed.

(** What [Trim] leaves has the byte at neither end, and trimming it again
    changes nothing. *)
Lemma TrimByte_ends (s : string) (c : ascii) :
  (forall p, TrimByte s c <> String c p)
  /\ (forall p, TrimByte s c <> p +:+ String c "")
  /\ TrimByte (TrimByte s c) c = TrimByte s c.
Proof.
  assert (forall p, TrimByte s c <> p +:+ String c "") as Hlast.
  { intros p Hp. unfold TrimByte in Hp.
    destruct (trimLeftByte_suffix (trimRightByte s c) c) as [q Hq].
    rewrite Hp, <- app_assoc_string in Hq.
    by apply trimRightByte_last in Hq. }
  split; [apply trimLeftByte_head|]. split; [done|].
  unfold TrimByte at 1. rewrite trimRightByte_id by done.
  apply trimLeftByte_id. apply trimLeftByte_head.
Qed.

End MoreStringFacts.

(** ** More about the record translator *)

Section MoreTranslatorFacts.

Context {codec : libdns.Codec}.

Lemma absoluteName_dotted (zone name : string) :
  GoStrings.HasSuffix (absoluteName zone name) "." = true.
Proof.
  unfold absoluteName.
  destruct ((name =? "") || (name =? "@")).
  - destruct (GoStrings.HasSuffix zone ".") eqn:Hz; simpl;
      [done | apply HasSuffix_app].
  - destruct (_ || _); [apply HasSuffix_app|].
    destruct (_ || _); [apply HasSuffix_app|].
    rewrite <- !app_assoc_string. apply HasSuffix_app.
Qed.

Lemma Name_internalToRR (zone : string) (rec : Record_) :
  libdns.Name (internalToRR zone rec)
  = absoluteName zone
      (if (Type_ rec =? "SRV") && ((Name rec =? "") || (Name rec =? "@"))
       then "_service._tcp" else Name rec).
Proof. reflexivity. Qed.

(** The relative names: the ones that the last branch of the name
    reconstruction turns into [name.zone.]. *)
Lemma absoluteName_relative (zone name : string) :
  name <> "" -> name <> "@" ->
  GoStrings.HasSuffix name ("." +:+ GoStrings.TrimSuffix zone ".") = false ->
  GoStrings.HasSuffix name ("." +:+ GoStrings.TrimSuffix zone "." +:+ ".") = false ->
  name <> GoStrings.TrimSuffix zone "." ->
  name <> GoStrings.TrimSuffix zone "." +:+ "." ->
  absoluteName zone name = name +:+ "." +:+ GoStrings.TrimSuffix zone "." +:+ ".".
Proof.
  intros H1 H2 H3 H4 H5 H6. unfold absoluteName.
  rewrite (eqb_false_of_ne _ _ H1), (eqb_false_of_ne _ _ H2), H3, H4.
  by rewrite (eqb_false_of_ne _ _ H5), (eqb_false_of_ne _ _ H6).
Qed.

Lemma providerName_of_absolute (zone name : string) :
  name <> "" -> name <> "@" ->
  name <> GoStrings.TrimSuffix zone "." ->
  name <> GoStrings.TrimSuffix zone "." +:+ "." ->
  providerName zone (name +:+ "." +:+ GoStrings.TrimSuffix zone "." +:+ ".") = name.
Proof.
  intros H1 H2 H5 H6. unfold providerName.
  rewrite <- !app_assoc_string, TrimSuffix_app.
  rewrite app_assoc_string, CutSuffix_app.
  rewrite (eqb_false_of_ne _ _ H1), (eqb_false_of_ne _ _ H2),
    (eqb_false_of_ne _ _ H5). simpl.
  destruct (String.eqb_spec name zone) as [-> | Hne]; [|done].
  exfalso. destruct (GoStrings.HasSuffix zone ".") eqn:Hz.
  - apply H6. by rewrite TrimSuffix_restore.
  - apply H5. by rewrite TrimSuffix_without.
Qed.

End MoreTranslatorFacts.

(** X1: whatever the zone and the provider record, the name that
    [internalToLibdns] hands to the libdns parser ends with a dot. *)
Theorem rebuilt_name_ends_with_dot (zone : string) (rec : Record_) :
  GoStrings.HasSuffix (libdns.Name (internalToRR zone rec)) "." = true.
Proof. rewrite Name_internalToRR. apply absoluteName_dotted. Qed.

(** X2: a provider name that is relative (not empty, not ["@"], not ending
    with the zone and not the zone itself) comes back unchanged when the
    name rebuilt by [internalToLibdns] is translated by [libdnsToInternal];
    the apex name ["@"] of a record that is not an SRV record comes back as
    ["@"] when the zone is given with its trailing dot. *)
Theorem provider_name_round_trip `{codec : libdns.Codec}
    (zone : string) (rec : Record_) (l : libdns.Record_) :
  libdns.Name (libdns.toRR l) = libdns.Name (internalToRR zone rec) ->
  (Name rec <> "" ->
   Name rec <> "@" ->
   GoStrings.HasSuffix (Name rec) ("." +:+ GoStrings.TrimSuffix zone ".") = false ->
   GoStrings.HasSuffix (Name rec) ("." +:+ GoStrings.TrimSuffix zone "." +:+ ".")
   = false ->
   Name rec <> GoStrings.TrimSuffix zone "." ->
   Name rec <> GoStrings.TrimSuffix zone "." +:+ "." ->
   libdns.Name (libdns.toRR l)
   = Name rec +:+ "." +:+ GoStrings.TrimSuffix zone "." +:+ "."
   /\ Name (libdnsToInternal zone l) = Name rec)
  /\ (Name rec = "@" ->
      Type_ rec <> "SRV" ->
      GoStrings.HasSuffix zone "." = true ->
      libdns.Name (libdns.toRR l) = zone
      /\ Name (libdnsToInternal zone l) = "@").
Proof.
  intros Hl. rewrite Name_libdnsToInternal, Hl, Name_internalToRR. split.
  - intros H1 H2 H3 H4 H5 H6.
    rewrite (eqb_false_of_ne _ _ H1), (eqb_false_of_ne _ _ H2), andb_false_r.
    rewrite absoluteName_relative by done.
    split; [done|]. by apply providerName_of_absolute.
  - intros Hat Hsrv Hz.
    rewrite (eqb_false_of_ne _ _ Hsrv), Hat. simpl.
    unfold absoluteName. simpl. rewrite Hz. simpl.
    split; [done|]. apply providerName_apex. by left.
Qed.

Lemma provider_name_round_trip_witness :
  Name (libdnsToInternal (codec := TestDouble.codec) "example.com"
          (TestDouble.rr "_acme-challenge.git.example.com." "TXT" "token" 300))
  = "_acme-challenge.git".
Proof.
  apply (proj1 (provider_name_round_trip (codec := TestDouble.codec) "example.com"
                  (TestDouble.rec 7 "_acme-challenge.git" "TXT" "token")
                  (TestDouble.rr "_acme-challenge.git.example.com." "TXT" "token" 300)
                  eq_refl));
    (reflexivity || discriminate).
Defined.

(** X3: for a record whose type is not TXT, MX or SRV the data is the
    content of the provider record, with priority 0, and translating the
    provider record back gives the same type and the same data. *)
Theorem plain_types_round_trip `{codec : libdns.Codec}
    (zone : string) (l : libdns.Record_) :
  libdns.Type_ (libdns.toRR l) <> "TXT" ->
  libdns.Type_ (libdns.toRR l) <> "MX" ->
  libdns.Type_ (libdns.toRR l) <> "SRV" ->
  Content (libdnsToInternal zone l) = libdns.Data (libdns.toRR l)
  /\ Priority (libdnsToInternal zone l) = 0%Z
  /\ libdns.Type_ (internalToRR zone (libdnsToInternal zone l))
     = libdns.Type_ (libdns.toRR l)
  /\ libdns.Data (internalToRR zone (libdnsToInternal zone l))
     = libdns.Data (libdns.toRR l).
Proof.
  intros Htxt Hmx Hsrv.
  pose proof (payload_libdnsToInternal zone l) as Hp. cbv zeta in Hp.
  unfold providerPayload in Hp.
  rewrite (eqb_false_of_ne _ _ Htxt), (eqb_false_of_ne _ _ Hmx),
    (eqb_false_of_ne _ _ Hsrv) in Hp.
  injection Hp as Hprio Hcont.
  split; [done|]. split; [done|].
  unfold internalToRR. simpl. rewrite Type_libdnsToInternal.
  rewrite (eqb_false_of_ne _ _ Htxt), (eqb_false_of_ne _ _ Hmx),
    (eqb_false_of_ne _ _ Hsrv).
  done.
Qed.

Lemma plain_types_round_trip_witness :
  Content (libdnsToInternal (codec := TestDouble.codec) "example.com"
             (TestDouble.rr "www" "CNAME" "example.com." 3600))
  = "example.com."
  /\ libdns.Data (internalToRR "example.com"
                    (libdnsToInternal (codec := TestDouble.codec) "example.com"
                       (TestDouble.rr "www" "CNAME" "example.com." 3600)))
     = "example.com.".
Proof.
  destruct (plain_types_round_trip (codec := TestDouble.codec) "example.com"
              (TestDouble.rr "www" "CNAME" "example.com." 3600))
    as (Hc & _ & _ & Hd); try discriminate.
  by split.
Defined.

(** X4: the content of a TXT record is the data without the double quotes
    at its two ends: it neither starts nor ends with a double quote, and
    translating the provider record back gives that content as the data,
    unchanged. *)
Theorem txt_content_unquoted `{codec : libdns.Codec}
    (zone : string) (l : libdns.Record_) :
  libdns.Type_ (libdns.toRR l) = "TXT" ->
  Content (libdnsToInternal zone l)
  = GoStrings.TrimByte (libdns.Data (libdns.toRR l)) quote
  /\ (forall p, Content (libdnsToInternal zone l) <> String quote p)
  /\ (forall p, Content (libdnsToInternal zone l) <> p +:+ String quote "")
  /\ libdns.Data (internalToRR zone (libdnsToInternal zone l))
     = Content (libdnsToInternal zone l).
Proof.
  intros Htxt.
  pose proof (payload_libdnsToInternal zone l) as Hp. cbv zeta in Hp.
  rewrite Htxt in Hp. injection Hp as _ Hcont.
  destruct (TrimByte_ends (libdns.Data (libdns.toRR l)) quote) as (Hhead & Hlast & Hid).
  rewrite Hcont. repeat split; try done.
  unfold internalToRR. simpl. rewrite Type_libdnsToInternal, Htxt. simpl.
  by rewrite Hcont.
Qed.

Lemma txt_content_unquoted_witness :
  Content (libdnsToInternal (codec := TestDouble.codec) "example.com"
             (TestDouble.rr "_acme-challenge" "TXT"
                (String quote ("validation-token" +:+ String quote "")) 300))
  = "validation-token".
Proof.
  rewrite (proj1 (txt_content_unquoted (codec := TestDouble.codec) "example.com"
                    (TestDouble.rr "_acme-challenge" "TXT"
                       (String quote ("validation-token" +:+ String quote "")) 300)
                    eq_refl)).
  reflexivity.
Defined.

(** ** Reading back what was printed *)

Section FmtFacts.

Import GoFmt.

Lemma isDigit_not_sign (a : ascii) : isDigit a = true -> isSign a = false.
Proof. destruct a as [[] [] [] [] [] [] [] []]; done. Qed.

Lemma isDigit_isWordByte (a : ascii) : isDigit a = true -> isWordByte a = true.
Proof. destruct a as [[] [] [] [] [] [] [] []]; done. Qed.

Lemma pretty_N_char_digit (d : N) :
  (d < 10)%N ->
  isDigit (pretty_N_char d) = true /\ digitValue (pretty_N_char d) = Z.of_N d.
Proof.
  intros Hd.
  assert (d = 0 \/ d = 1 \/ d = 2 \/ d = 3 \/ d = 4 \/ d = 5 \/ d = 6 \/ d = 7
          \/ d = 8 \/ d = 9)%N as Hcases by lia.
  repeat (destruct Hcases as [-> | Hcases]; [done|]). by subst.
Qed.

Lemma scanNumber_digits (ds : list ascii) (s : string) :
  forallb isDigit ds = true ->
  scanNumber (string_of_list_ascii ds +:+ s) = ds ++ scanNumber s.
Proof.
  induction ds as [|a ds IH]; simpl; [done|].
  intros [Ha Hds]%andb_true_iff.
  rewrite Ha. by rewrite IH.
Qed.

(** The digits that [pretty] writes in front of [s] for the number [x]. *)
Lemma pretty_N_go_digits (x : N) (s : string) :
  exists ds,
    pretty_N_go x s = string_of_list_ascii ds +:+ s
    /\ forallb isDigit ds = true
    /\ (forall acc, fold_left (fun acc a => 10 * acc + digitValue a)%Z ds acc
                    = (acc * 10 ^ Z.of_nat (length ds) + Z.of_N x)%Z)
    /\ ((0 < x)%N -> ds <> []).
Proof.
  revert s. induction (N.lt_wf_0 x) as [x _ IH]; intros s.
  destruct (decide (x = 0)%N) as [-> | Hx].
  - exists []. rewrite pretty_N_go_0. split; [done|]. split; [done|].
    split; [intros acc; simpl; lia | lia].
  - rewrite pretty_N_go_step by lia.
    destruct (IH (x `div` 10)%N) with (s := String (pretty_N_char (x `mod` 10)) s)
      as (ds & Heq & Hdig & Hval & _).
    { apply N.div_lt; lia. }
    destruct (pretty_N_char_digit (x `mod` 10)%N) as [Hd Hv].
    { apply N.mod_lt. lia. }
    exists (ds ++ [pretty_N_char (x `mod` 10)]).
    split; [|split; [|split]].
    + rewrite Heq. clear. induction ds as [|a ds IHds]; [done|].
      simpl. rewrite !app_cons_string. by rewrite IHds.
    + rewrite forallb_app, Hdig. simpl. by rewrite Hd.
    + intros acc. rewrite fold_left_app, Hval. simpl. rewrite Hv.
      rewrite length_app. simpl.
      replace (Z.of_nat (length ds + 1)) with (Z.of_nat (length ds) + 1)%Z by lia.
      rewrite Z.pow_add_r by lia.
      rewrite N2Z.inj_div in *.
      pose proof (Z.div_mod (Z.of_N x) 10 ltac:(lia)) as Hdm.
      rewrite N2Z.inj_mod. lia.
    + intros _. by destruct ds.
Qed.

Lemma Sscanf_d_digits (ds : list ascii) :
  ds <> [] ->
  forallb isDigit ds = true ->
  Sscanf_d (string_of_list_ascii ds)
  = (if ((minInt64 <=? decimalValue ds) && (decimalValue ds <=? maxInt64))%Z
     then Some (decimalValue ds) else None)
  /\ Sscanf_d (String "-" (string_of_list_ascii ds))
     = (if ((minInt64 <=? - decimalValue ds) && (- decimalValue ds <=? maxInt64))%Z
        then Some (- decimalValue ds)%Z else None).
Proof.
  intros Hne Hdig.
  pose proof (scanNumber_digits ds "" Hdig) as Hscan.
  rewrite app_nil_r_string, app_nil_r in Hscan.
  destruct ds as [|a ds]; [done|]. split.
  - unfold Sscanf_d.
    assert (isSign a = false) as Hs.
    { apply isDigit_not_sign. simpl in Hdig. by apply andb_true_iff in Hdig as [? _]. }
    change (string_of_list_ascii (a :: ds)) with (String a (string_of_list_ascii ds)).
    cbv beta iota. rewrite Hs.
    change (String a (string_of_list_ascii ds)) with (string_of_list_ascii (a :: ds)).
    by rewrite Hscan.
  - unfold Sscanf_d. cbv beta iota.
    change (isSign "-") with true. change (Ascii.eqb "-" "-") with true.
    cbv beta iota. by rewrite Hscan.
Qed.

(** Reading a printed number gives the number. *)
Lemma Sscanf_d_Sprintf_d (n : Z) :
  (minInt64 <= n <= maxInt64)%Z -> Sscanf_d (Sprintf_d n) = Some n.
Proof.
  intros Hn. unfold Sprintf_d, pretty, pretty_Z.
  assert (forall x : positive,
             exists ds, pretty (N.pos x) = string_of_list_ascii ds
                        /\ ds <> [] /\ forallb isDigit ds = true
                        /\ decimalValue ds = Z.pos x) as Hpos.
  { intros x. unfold pretty, pretty_N.
    destruct (decide (N.pos x = 0%N)); [done|].
    destruct (pretty_N_go_digits (N.pos x) "") as (ds & Heq & Hdig & Hval & Hne).
    exists ds. rewrite Heq, app_nil_r_string. repeat split; try done.
    - apply Hne. lia.
    - unfold decimalValue. rewrite Hval. lia. }
  destruct n as [|x|x].
  - reflexivity.
  - destruct (Hpos x) as (ds & Heq & Hne & Hdig & Hval).
    unfold pretty, pretty_positive. rewrite Heq.
    rewrite (proj1 (Sscanf_d_digits ds Hne Hdig)), Hval.
    destruct (Z.leb_spec minInt64 (Z.pos x)); [|lia].
    destruct (Z.leb_spec (Z.pos x) maxInt64); [done | lia].
  - destruct (Hpos x) as (ds & Heq & Hne & Hdig & Hval).
    unfold pretty, pretty_positive. rewrite Heq.
    rewrite app_cons_string, app_nil_l_string.
    rewrite (proj2 (Sscanf_d_digits ds Hne Hdig)), Hval.
    change (- Z.pos x)%Z with (Z.neg x).
    destruct (Z.leb_spec minInt64 (Z.neg x)); [|lia].
    destruct (Z.leb_spec (Z.neg x) maxInt64); [done | lia].
Qed.

(** A printed number is a word. *)
Lemma Sprintf_d_isWord (n : Z) : isWord (Sprintf_d n) = true.
Proof.
  assert (forall x : positive, isWord (pretty (N.pos x)) = true) as Hpos.
  { intros x. unfold pretty, pretty_N.
    destruct (decide (N.pos x = 0%N)); [done|].
    destruct (pretty_N_go_digits (N.pos x) "") as (ds & Heq & Hdig & _ & Hne).
    rewrite Heq, app_nil_r_string. unfold isWord.
    rewrite list_ascii_of_string_of_list_ascii.
    assert (ds <> []) as Hds by (apply Hne; lia).
    destruct ds as [|a ds]; [done|]. simpl negb.
    simpl. simpl in Hdig. apply andb_true_iff in Hdig as [Ha Hdig].
    rewrite (isDigit_isWordByte a Ha). simpl.
    clear -Hdig. induction ds as [|b ds IH]; [done|].
    simpl in *. apply andb_true_iff in Hdig as [Hb Hdig].
    by rewrite (isDigit_isWordByte b Hb), IH. }
  unfold Sprintf_d, pretty, pretty_Z. destruct n as [|x|x].
  - reflexivity.
  - apply Hpos.
  - specialize (Hpos x). unfold isWord in *.
    apply andb_true_iff in Hpos as [_ Hall].
    change ("-" +:+ pretty x) with (String "-" (pretty x)). simpl.
    exact Hall.
Qed.

End FmtFacts.

(** ** Fields of words *)

Section FieldsFacts.

Import GoStrings.

Lemma spaceWidth_word (a : ascii) (rest : list N) :
  isWordByte a = true -> spaceWidth (N_of_ascii a :: rest) = 0.
Proof. destruct a as [[] [] [] [] [] [] [] []]; done. Qed.

Lemma fieldsFrom_word (w : list ascii) (s : string) (cur : list ascii) :
  forallb isWordByte w = true ->
  fieldsFrom (string_of_list_ascii w +:+ s) 0 cur = fieldsFrom s 0 (rev w ++ cur).
Proof.
  revert cur. induction w as [|a w IH]; intros cur; [done|].
  simpl forallb. intros [Ha Hw]%andb_true_iff.
  change (string_of_list_ascii (a :: w) +:+ s)
    with (String a (string_of_list_ascii w +:+ s)).
  cbn [fieldsFrom].
  change (bytes (String a (string_of_list_ascii w +:+ s)))
    with (N_of_ascii a :: bytes (string_of_list_ascii w +:+ s)).
  rewrite spaceWidth_word by done.
  rewrite IH by done. simpl. by rewrite <- app_assoc.
Qed.

Lemma fieldsFrom_space (s : string) (cur : list ascii) :
  fieldsFrom (" " +:+ s) 0 cur = flush cur ++ fieldsFrom s 0 [].
Proof. reflexivity. Qed.

Lemma flush_word (w : string) :
  w <> "" -> flush (rev (list_ascii_of_string w)) = [w].
Proof.
  intros Hw. unfold flush.
  destruct (rev (list_ascii_of_string w)) as [|a l] eqn:Hr.
  - destruct w as [|b w]; [done|]. simpl in Hr.
    by apply app_eq_nil in Hr as [_ ?].
  - rewrite <- Hr, rev_involutive. by rewrite string_of_list_ascii_of_string.
Qed.

(** Splitting what was joined with single spaces gives the words back. *)
Lemma Fields_Join (ws : list string) :
  forallb isWord ws = true -> Fields (Join ws " ") = ws.
Proof.
  unfold Fields, Join. induction ws as [|w ws IH]; [done|].
  simpl forallb. intros [Hw Hws]%andb_true_iff.
  unfold isWord in Hw. apply andb_true_iff in Hw as [Hne Hbytes].
  apply negb_true_iff, String.eqb_neq in Hne.
  destruct ws as [|w' ws].
  - simpl. rewrite <- (app_nil_r_string w) at 1.
    rewrite <- (string_of_list_ascii_of_string w) at 1.
    rewrite fieldsFrom_word by done. simpl. rewrite app_nil_r.
    by apply flush_word.
  - change (String.concat " " (w :: w' :: ws))
      with (w +:+ " " +:+ String.concat " " (w' :: ws)).
    rewrite <- (string_of_list_ascii_of_string w) at 1.
    rewrite fieldsFrom_word by done.
    rewrite fieldsFrom_space, app_nil_r, flush_word by done.
    by rewrite IH.
Qed.

End FieldsFacts.

(** X5: a priority within the 64-bit range that [internalToLibdns] prints
    in front of the content is read back by [libdnsToInternal] as the same
    number. *)
Theorem printed_priority_read_back (n : Z) :
  (GoFmt.minInt64 <= n <= GoFmt.maxInt64)%Z ->
  GoFmt.Sscanf_d (GoFmt.Sprintf_d n) = Some n.
Proof. apply Sscanf_d_Sprintf_d. Qed.

Lemma printed_priority_read_back_witness :
  GoFmt.Sscanf_d (GoFmt.Sprintf_d (-9223372036854775808)) = Some (-9223372036854775808)%Z.
Proof.
  apply (printed_priority_read_back (-9223372036854775808)).
  unfold GoFmt.minInt64, GoFmt.maxInt64. lia.
Defined.

(** X6: an MX or SRV provider record whose priority fits 64 bits and whose
    content is words joined by single spaces (at least one word for MX, at
    least three for SRV) keeps its priority and its content when the data
    that [internalToLibdns] builds for it is translated by
    [libdnsToInternal]. *)
Theorem mx_srv_payload_round_trip `{codec : libdns.Codec}
    (zone : string) (rec : Record_) (l : libdns.Record_) (ws : list string) :
  (Type_ rec = "MX" /\ 1 <= length ws) \/ (Type_ rec = "SRV" /\ 3 <= length ws) ->
  (GoFmt.minInt64 <= Priority rec <= GoFmt.maxInt64)%Z ->
  forallb isWord ws = true ->
  Content rec = GoStrings.Join ws " " ->
  libdns.Type_ (libdns.toRR l) = Type_ rec ->
  libdns.Data (libdns.toRR l) = libdns.Data (internalToRR zone rec) ->
  Priority (libdnsToInternal zone l) = Priority rec
  /\ Content (libdnsToInternal zone l) = Content rec.
Proof.
  intros Hcase Hprio Hws Hcontent Htype Hdata.
  assert (libdns.Data (libdns.toRR l)
          = GoStrings.Join (GoFmt.Sprintf_d (Priority rec) :: ws) " ") as Hjoin.
  { rewrite Hdata.
    assert (libdns.Data (internalToRR zone rec)
            = GoFmt.Sprintf_d_s (Priority rec) (Content rec)) as ->.
    { unfold internalToRR. simpl.
      destruct Hcase as [[-> _] | [-> _]]; done. }
    unfold GoFmt.Sprintf_d_s, GoFmt.Sprintf_d, GoStrings.Join. rewrite Hcontent.
    destruct ws as [|w ws]; [destruct Hcase as [[_ ?] | [_ ?]]; simpl in *; lia|].
    done. }
  assert (GoStrings.Fields (libdns.Data (libdns.toRR l))
          = GoFmt.Sprintf_d (Priority rec) :: ws) as Hfields.
  { rewrite Hjoin. apply Fields_Join. simpl.
    by rewrite Sprintf_d_isWord, Hws. }
  pose proof (payload_libdnsToInternal zone l) as Hp. cbv zeta in Hp.
  rewrite Htype in Hp.
  destruct Hcase as [[Ht Hlen] | [Ht Hlen]]; rewrite Ht in Hp.
  - rewrite providerPayload_MX in Hp. cbv zeta in Hp.
    rewrite Hfields in Hp. cbn [length hd tl] in Hp.
    destruct (Nat.leb_spec 2 (S (length ws))); [|lia].
    rewrite Sscanf_d_Sprintf_d in Hp by done.
    injection Hp as -> ->. by rewrite Hcontent.
  - rewrite providerPayload_SRV in Hp. cbv zeta in Hp.
    rewrite Hfields in Hp. cbn [length hd tl] in Hp.
    destruct (Nat.leb_spec 4 (S (length ws))); [|lia].
    rewrite Sscanf_d_Sprintf_d in Hp by done.
    injection Hp as -> ->. by rewrite Hcontent.
Qed.

Lemma mx_srv_payload_round_trip_witness :
  Priority (libdnsToInternal (codec := TestDouble.codec) "example.com"
              (TestDouble.rr "_sip._tcp" "SRV" "10 20 5060 sip.example.com" 3600))
  = 10%Z
  /\ Content (libdnsToInternal (codec := TestDouble.codec) "example.com"
                (TestDouble.rr "_sip._tcp" "SRV" "10 20 5060 sip.example.com" 3600))
     = "20 5060 sip.example.com".
Proof.
  apply (mx_srv_payload_round_trip (codec := TestDouble.codec) "example.com"
           {| ID := 5; Name := "_sip._tcp"; Type_ := "SRV";
              Content := "20 5060 sip.example.com"; TTL := 3600; Priority := 10 |}
           (TestDouble.rr "_sip._tcp" "SRV" "10 20 5060 sip.example.com" 3600)
           ["20"; "5060"; "sip.example.com"]).
  - right. split; [reflexivity | simpl; lia].
  - unfold GoFmt.minInt64, GoFmt.maxInt64. simpl. lia.
  - reflexivity.
  - reflexivity.
  - reflexivity.
  - reflexivity.
Defined.

(** ** Before the first write *)

Section SetupFacts.

Context {codec : libdns.Codec} {backend : Backend} {runtime : Runtime}.

Lemma getZoneID_inv_Err (p : Provider) (zone : string) (w w1 : World) (e : error) :
  getZoneID p zone w = (w1, Err e) ->
  (newClient p = Err e /\ w1 = w)
  \/ (exists c,
         newClient p = Ok c
         /\ calls w1 = calls w ++ [CallGetZones]
         /\ (getZones c w = (w1, Err e)
             \/ exists zones,
                  getZones c w = (w1, Ok zones)
                  /\ zoneLoop (GoStrings.TrimSuffix zone ".") zones = None
                  /\ e = Errorf ("zone not found: " +:+ zone))).
Proof.
  unfold getZoneID. intros Hg.
  apply bind_inv in Hg as [(w0 & c & Hc & Hg) | (e' & Hc & [= <-])].
  - apply lift_inv in Hc as [-> Hc]. right. exists c. split; [done|].
    apply bind_inv in Hg as [(w2 & zones & Hz & Hg) | (e' & Hz & [= <-])].
    + pose proof (call_calls _ _ _ _ _ Hz) as Hcalls.
      destruct (zoneLoop _ zones) as [id|] eqn:Hl; inversion Hg; subst.
      split; [done|]. right. by exists zones.
    + pose proof (call_calls _ _ _ _ _ Hz) as Hcalls. split; [done | by left].
  - apply lift_inv in Hc as [-> Hc]. by left.
Qed.

Lemma entriesOf_nil (zone : string) : entriesOf zone [] = [].
Proof.
  unfold entriesOf, groupInput. simpl. rewrite map_to_list_empty.
  apply Permutation_nil. symmetry. apply mapRange_perm.
Qed.

End SetupFacts.

(** X7: when zone resolution fails, each of the four operations returns the
    error of zone resolution as it is, without wrapping it, and makes no
    further call: the client could not be built and no call was made, or
    the zone list was requested and either the request failed or no zone
    had the name. *)
Theorem zone_errors_pass_through
    `{codec : libdns.Codec} `{backend : Backend} `{runtime : Runtime}
    (p : Provider) (zone : string) (records : list libdns.Record_)
    (w w1 : World) (e : error) :
  getZoneID p zone w = (w1, Err e) ->
  GetRecords p zone w = (w1, Err e)
  /\ AppendRecords p zone records w = (w1, Err e)
  /\ SetRecords p zone records w = (w1, Err e)
  /\ DeleteRecords p zone records w = (w1, Err e)
  /\ ((w1 = w /\ exists cause, e = Wrapf "invalid API URL" cause)
      \/ (calls w1 = calls w ++ [CallGetZones]
          /\ exists c,
               newClient p = Ok c
               /\ (getZones c w = (w1, Err e)
                   \/ e = Errorf ("zone not found: " +:+ zone)))).
Proof.
  intros Hz.
  do 4 (split; [by apply bind_Err|]).
  apply getZoneID_inv_Err in Hz as [[Hc ->] | (c & Hc & Hcalls & Hcase)].
  - left. split; [done|]. unfold newClient in Hc.
    destruct (url_Parse _) as [u | err]; inversion Hc. by eexists.
  - right. split; [done|]. exists c. split; [done|].
    destruct Hcase as [Hg | (zones & _ & _ & ->)]; [by left | by right].
Qed.

Lemma zone_errors_pass_through_witness :
  SetRecords (codec := TestDouble.codec) (backend := TestDouble.backend)
    (runtime := TestDouble.forward) TestDouble.provider "example.net"
    [TestDouble.rr "www" "A" "192.0.2.1" 3600]
    (TestDouble.start [TestDouble.rec 1 "www" "A" "192.0.2.9"] 10)
  = (@mkWorld TestDouble.backend
       (server (TestDouble.start [TestDouble.rec 1 "www" "A" "192.0.2.9"] 10))
       [CallGetZones],
     Err (Errorf "zone not found: example.net")).
Proof.
  apply (zone_errors_pass_through
           (codec := TestDouble.codec) (backend := TestDouble.backend)
           (runtime := TestDouble.forward) TestDouble.provider "example.net"
           [TestDouble.rr "www" "A" "192.0.2.1" 3600]
           (TestDouble.start [TestDouble.rec 1 "www" "A" "192.0.2.9"] 10)).
  reflexivity.
Defined.

(** X8: with an empty input, and the zone found, [AppendRecords] returns an
    empty list after the zone lookup alone, and [SetRecords] and
    [DeleteRecords] return an empty list after the zone lookup and the
    fetch of the records: the reads are made, no write is. *)
Theorem empty_input_only_reads
    `{codec : libdns.Codec} `{backend : Backend} `{runtime : Runtime}
    (p : Provider) (zone : string) (w w1 : World) (zoneID : Z) (c : Client) :
  getZoneID p zone w = (w1, Ok zoneID) ->
  newClient p = Ok c ->
  AppendRecords p zone [] w = (w1, Ok [])
  /\ calls w1 = calls w ++ [CallGetZones]
  /\ (forall w2 existingRecords,
         getRecords c zoneID "" w1 = (w2, Ok existingRecords) ->
         SetRecords p zone [] w = (w2, Ok [])
         /\ DeleteRecords p zone [] w = (w2, Ok [])
         /\ calls w2 = calls w ++ [CallGetZones; CallGetRecords zoneID ""]).
Proof.
  intros Hz Hc.
  pose proof (getZoneID_calls _ _ _ _ _ Hz) as Hcalls.
  split; [|split; [done|]].
  - by rewrite (AppendRecords_run p zone [] w w1 zoneID c).
  - intros w2 ex Hr. split; [|split].
    + rewrite (SetRecords_run p zone [] w w1 w2 zoneID c ex) by done.
      by rewrite entriesOf_nil.
    + unfold DeleteRecords.
      rewrite (bind_Ok _ _ w w1 zoneID) by done.
      rewrite (bind_Ok _ _ w1 w1 c) by (by rewrite Hc).
      by rewrite (bind_Ok _ _ w1 w2 ex).
    + apply call_calls in Hr. rewrite Hr, Hcalls. by rewrite <- app_assoc.
Qed.

Lemma empty_input_only_reads_witness :
  AppendRecords (codec := TestDouble.codec) (backend := TestDouble.backend)
    TestDouble.provider "example.com" [] (TestDouble.start [] 0)
  = (@mkWorld TestDouble.backend (server (TestDouble.start [] 0)) [CallGetZones],
     Ok []).
Proof.
  apply (empty_input_only_reads
           (codec := TestDouble.codec) (backend := TestDouble.backend)
           (runtime := TestDouble.forward) TestDouble.provider "example.com"
           (TestDouble.start [] 0) _ 1%Z
           {| token := "test-token"; BaseURL := DefaultBaseURL |});
    reflexivity.
Defined.

(** ** The traces of the four operations *)

Section TraceFacts.

Context {codec : libdns.Codec} {backend : Backend} {runtime : Runtime}.

Lemma take_app_le_length {A} (l k : list A) : take (length l) (l ++ k) = l.
Proof. by rewrite take_app_length. Qed.

(** The calls of a failed run of a plan are a prefix of the calls of the
    plan. *)
Lemma runOps_prefix (convertMsg zone : string) (client : Client) (zoneID : Z)
      (ops : list Op) (acc : list libdns.Record_) (w w' : World)
      (r : result (list libdns.Record_)) :
  runOps convertMsg zone client zoneID ops acc w = (w', r) ->
  exists n,
    n <= length ops
    /\ calls w' = calls w ++ map (callOf zoneID) (take n ops)
    /\ (forall res, r = Ok res -> n = length ops).
Proof.
  intros Hrun. apply runOps_trace in Hrun. destruct r as [res | e].
  - destruct Hrun as [Hcalls _]. exists (length ops).
    rewrite firstn_all. by repeat split.
  - destruct Hrun as (pre & op & post & acc1 & w1 & -> & _ & _ & Hcalls).
    exists (length (pre ++ [op])). split; [|split].
    + rewrite !length_app. simpl. lia.
    + rewrite Hcalls. do 2 f_equal.
      replace (pre ++ op :: post) with ((pre ++ [op]) ++ post)
        by (by rewrite <- app_assoc).
      by rewrite take_app_length.
    + intros res [=].
Qed.

(** The inner loops of [DeleteRecords], whatever their outcome, only
    delete fetched records that have the name and the type of the input
    record. *)
Lemma exactLoop_calls (zone : string) (client : Client) (zoneID : Z)
      (internalRec : Record_) (existingRecords : list Record_)
      (acc : list libdns.Record_) (found : bool) (w w' : World)
      (r : result (list libdns.Record_ * bool)) :
  exactLoop zone client zoneID internalRec existingRecords acc found w = (w', r) ->
  exists cs,
    calls w' = calls w ++ cs
    /\ Forall (fun c => exists e, e ∈ existingRecords
                                  /\ Name e = Name internalRec
                                  /\ Type_ e = Type_ internalRec
                                  /\ c = CallDeleteRecord zoneID (ID e)) cs.
Proof.
  revert acc found w.
  induction existingRecords as [|e rest IH]; intros acc found w; simpl.
  - intros Hr. inversion Hr; subst. exists []. by rewrite app_nil_r.
  - assert (forall cs,
               Forall (fun c => exists e0, e0 ∈ rest
                                          /\ Name e0 = Name internalRec
                                          /\ Type_ e0 = Type_ internalRec
                                          /\ c = CallDeleteRecord zoneID (ID e0)) cs ->
               Forall (fun c => exists e0, e0 ∈ e :: rest
                                          /\ Name e0 = Name internalRec
                                          /\ Type_ e0 = Type_ internalRec
                                          /\ c = CallDeleteRecord zoneID (ID e0)) cs)
      as Hmono.
    { intros cs Hcs. eapply Forall_impl; [exact Hcs|].
      intros c (e0 & He0 & ?). exists e0.
      split; [by right | done]. }
    destruct ((Name e =? Name internalRec) && (Type_ e =? Type_ internalRec)
              && (Content e =? Content internalRec)) eqn:Ht.
    + apply exact_test in Ht as (Hn & Hty & _).
      assert (exists e0, e0 ∈ e :: rest /\ Name e0 = Name internalRec
                         /\ Type_ e0 = Type_ internalRec
                         /\ CallDeleteRecord zoneID (ID e) = CallDeleteRecord zoneID (ID e0))
        as Hhere by (exists e; repeat split; [left | done..]).
      intros Hr. unfold deleteRecord in Hr.
      apply bind_inv in Hr as [(w1 & [] & Hd & Hr) | (e' & Hd & _)].
      * apply wrapErr_inv_Ok, call_calls in Hd.
        apply bind_inv in Hr as [(w2 & l & Hl & Hr) | (e' & Hl & _)].
        -- apply wrapErr_inv_Ok, lift_inv in Hl as [-> _].
           apply IH in Hr as (cs & Hcs & Hall).
           exists (CallDeleteRecord zoneID (ID e) :: cs). split.
           ++ rewrite Hcs, Hd. by rewrite <- app_assoc.
           ++ constructor; [done | by apply Hmono].
        -- apply wrapErr_inv in Hl as [(? & Hl & _) | (? & Hl & _)];
             apply lift_inv in Hl as [-> _];
             exists [CallDeleteRecord zoneID (ID e)]; split; try done;
             by constructor.
      * apply wrapErr_inv in Hd as [(? & Hd & _) | (? & Hd & _)];
          apply call_calls in Hd;
          exists [CallDeleteRecord zoneID (ID e)]; split; try done;
          by constructor.
    + intros Hr. apply IH in Hr as (cs & Hcs & Hall).
      exists cs. split; [done | by apply Hmono].
Qed.

Lemma fallbackLoop_calls (zone : string) (client : Client) (zoneID : Z)
      (internalRec : Record_) (existingRecords : list Record_)
      (acc : list libdns.Record_) (w w' : World)
      (r : result (list libdns.Record_)) :
  fallbackLoop zone client zoneID internalRec existingRecords acc w = (w', r) ->
  exists cs,
    calls w' = calls w ++ cs
    /\ Forall (fun c => exists e, e ∈ existingRecords
                                  /\ Name e = Name internalRec
                                  /\ Type_ e = Type_ internalRec
                                  /\ c = CallDeleteRecord zoneID (ID e)) cs.
Proof.
  revert acc w.
  induction existingRecords as [|e rest IH]; intros acc w; simpl.
  - intros Hr. inversion Hr; subst. exists []. by rewrite app_nil_r.
  - destruct ((Name e =? Name internalRec) && (Type_ e =? Type_ internalRec))
      eqn:Ht.
    + apply key_test in Ht as (Hn & Hty).
      assert (exists e0, e0 ∈ e :: rest /\ Name e0 = Name internalRec
                         /\ Type_ e0 = Type_ internalRec
                         /\ CallDeleteRecord zoneID (ID e) = CallDeleteRecord zoneID (ID e0))
        as Hhere by (exists e; repeat split; [left | done..]).
      intros Hr. unfold deleteRecord in Hr.
      exists [CallDeleteRecord zoneID (ID e)]. split; [|by constructor].
      run_inv; congruence.
    + intros Hr. apply IH in Hr as (cs & Hcs & Hall).
      exists cs. split; [done|].
      eapply Forall_impl; [exact Hall|]. intros c (e0 & He0 & ?). exists e0.
      split; [by right | done].
Qed.

Lemma deleteLoop_calls (zone : string) (client : Client) (zoneID : Z)
      (existingRecords : list Record_) (records : list libdns.Record_)
      (acc : list libdns.Record_) (w w' : World)
      (r : result (list libdns.Record_)) :
  deleteLoop zone client zoneID existingRecords records acc w = (w', r) ->
  exists cs,
    calls w' = calls w ++ cs
    /\ Forall (deleteOf zone zoneID existingRecords records) cs.
Proof.
  revert acc w. induction records as [|record rest IH]; intros acc w; simpl.
  - intros Hr. inversion Hr; subst. exists []. by rewrite app_nil_r.
  - assert (forall cs,
               Forall (fun c => exists e, e ∈ existingRecords
                                  /\ Name e = Name (libdnsToInternal zone record)
                                  /\ Type_ e = Type_ (libdnsToInternal zone record)
                                  /\ c = CallDeleteRecord zoneID (ID e)) cs ->
               Forall (deleteOf zone zoneID existingRecords (record :: rest)) cs)
      as Hhere.
    { intros cs Hcs. eapply Forall_impl; [exact Hcs|].
      intros c (e & He & Hn & Hty & ->).
      exists record, e. repeat split; try done. left. }
    assert (forall cs,
               Forall (deleteOf zone zoneID existingRecords rest) cs ->
               Forall (deleteOf zone zoneID existingRecords (record :: rest)) cs)
      as Hlater.
    { intros cs Hcs. eapply Forall_impl; [exact Hcs|].
      intros c (r0 & e & Hr0 & ?).
      exists r0, e. split; [by right | done]. }
    intros Hr.
    apply bind_inv in Hr as [(w1 & [acc1 found1] & Hexact & Hr) | (e & Hexact & _)].
    + apply exactLoop_calls in Hexact as (cs1 & Hc1 & Hall1).
      apply bind_inv in Hr as [(w2 & acc2 & Hfall & Hr) | (e & Hfall & _)].
      * assert (exists cs2,
                   calls w2 = calls w1 ++ cs2
                   /\ Forall (deleteOf zone zoneID existingRecords (record :: rest)) cs2)
          as (cs2 & Hc2 & Hall2).
        { destruct (negb found1).
          - apply fallbackLoop_calls in Hfall as (cs2 & ? & ?).
            exists cs2. split; [done | by apply Hhere].
          - inversion Hfall; subst. exists []. by rewrite app_nil_r. }
        apply IH in Hr as (cs3 & Hc3 & Hall3).
        exists (cs1 ++ cs2 ++ cs3). split.
        -- rewrite Hc3, Hc2, Hc1. by rewrite <- !app_assoc.
        -- rewrite !Forall_app. repeat split; [by apply Hhere | done | by apply Hlater].
      * assert (exists cs2,
                   calls w' = calls w1 ++ cs2
                   /\ Forall (deleteOf zone zoneID existingRecords (record :: rest)) cs2)
          as (cs2 & Hc2 & Hall2).
        { destruct (negb found1).
          - apply fallbackLoop_calls in Hfall as (cs2 & ? & ?).
            exists cs2. split; [done | by apply Hhere].
          - inversion Hfall. }
        exists (cs1 ++ cs2). split.
        -- rewrite Hc2, Hc1. by rewrite <- !app_assoc.
        -- rewrite Forall_app. split; [by apply Hhere | done].
    + apply exactLoop_calls in Hexact as (cs1 & Hc1 & Hall1).
      exists cs1. split; [done | by apply Hhere].
Qed.

End TraceFacts.

(** X9: the calls of any run of [AppendRecords], finished or aborted, are a
    prefix of: the zone lookup, then one create per input record, in input
    order, of the translated record.  It makes no other call; the prefix is
    the whole list when the run returns without error. *)
Theorem AppendRecords_trace
    `{codec : libdns.Codec} `{backend : Backend}
    (p : Provider) (zone : string) (records : list libdns.Record_)
    (w w' : World) (r : result (list libdns.Record_)) :
  AppendRecords p zone records w = (w', r) ->
  exists zoneID n,
    calls w' = calls w
               ++ take n (CallGetZones
                            :: map (fun r => CallCreateRecord zoneID
                                               (libdnsToInternal zone r)) records)
    /\ (forall res, r = Ok res -> n = S (length records)).
Proof.
  intros Hs. unfold AppendRecords in Hs.
  apply bind_inv in Hs as [(w1 & zoneID & Hz & Hs) | (e & Hz & ->)].
  - pose proof (getZoneID_calls _ _ _ _ _ Hz) as Hcz.
    apply bind_inv in Hs as [(w1' & c & Hc & Hs) | (e & Hc & ->)].
    + apply lift_inv in Hc as [-> Hc].
      rewrite appendLoop_runOps in Hs.
      apply runOps_prefix in Hs as (n & Hn & Hcalls & Hok).
      exists zoneID, (S n). split.
      * rewrite Hcalls, Hcz. simpl.
        rewrite <- app_assoc. simpl. do 2 f_equal.
        rewrite <- firstn_map, map_map. done.
      * intros res Hres. rewrite (Hok res Hres). by rewrite length_map.
    + apply lift_inv in Hc as [-> Hc]. exists zoneID, 1. split; [done|].
      intros res [=].
  - apply getZoneID_reads in Hz as [Hz | Hz].
    + exists 0%Z, 0. rewrite Hz. simpl. rewrite app_nil_r. split; [done|].
      intros res [=].
    + exists 0%Z, 1. split; [done|]. intros res [=].
Qed.

Lemma AppendRecords_trace_witness :
  exists n,
    calls (AppendRecords (codec := TestDouble.codec) (backend := TestDouble.backend)
             TestDouble.provider "example.com"
             [TestDouble.rr "test1" "A" "192.0.2.1" 3600;
              TestDouble.rr "test2" "A" "192.0.2.2" 3600;
              TestDouble.rr "test3" "A" "192.0.2.3" 3600]
             (TestDouble.start [] 2)).1
    = take n (CallGetZones
                :: map (fun r => CallCreateRecord 1
                                   (libdnsToInternal (codec := TestDouble.codec)
                                      "example.com" r))
                       [TestDouble.rr "test1" "A" "192.0.2.1" 3600;
                        TestDouble.rr "test2" "A" "192.0.2.2" 3600;
                        TestDouble.rr "test3" "A" "192.0.2.3" 3600]).
Proof.
  destruct (AppendRecords_trace
              (codec := TestDouble.codec) (backend := TestDouble.backend)
              TestDouble.provider "example.com"
              [TestDouble.rr "test1" "A" "192.0.2.1" 3600;
               TestDouble.rr "test2" "A" "192.0.2.2" 3600;
               TestDouble.rr "test3" "A" "192.0.2.3" 3600]
              (TestDouble.start [] 2) _ _ eq_refl) as (zoneID & n & Hcalls & _).
  exists 4. reflexivity.
Defined.

(** X10: every call of any run of [DeleteRecords], finished or aborted, is
    the zone lookup, the fetch of the whole record list, or the delete of a
    fetched record that has the name and the type of one of the translated
    input records.  It never creates or updates a record, and never deletes
    a record of another name or type. *)
Theorem DeleteRecords_only_deletes_matching
    `{codec : libdns.Codec} `{backend : Backend}
    (p : Provider) (zone : string) (records : list libdns.Record_)
    (w w' : World) (r : result (list libdns.Record_)) :
  DeleteRecords p zone records w = (w', r) ->
  (exists e n zoneID,
      r = Err e
      /\ calls w' = calls w ++ take n [CallGetZones; CallGetRecords zoneID ""])
  \/ (exists w1 w2 zoneID c existingRecords cs,
         getZoneID p zone w = (w1, Ok zoneID)
         /\ newClient p = Ok c
         /\ getRecords c zoneID "" w1 = (w2, Ok existingRecords)
         /\ calls w' = calls w ++ [CallGetZones; CallGetRecords zoneID ""] ++ cs
         /\ Forall (deleteOf zone zoneID existingRecords records) cs).
Proof.
  intros Hs. unfold DeleteRecords in Hs.
  apply bind_inv in Hs as [(w1 & zoneID & Hz & Hs) | (e & Hz & ->)].
  - pose proof (getZoneID_calls _ _ _ _ _ Hz) as Hcz.
    apply bind_inv in Hs as [(w1' & c & Hc & Hs) | (e & Hc & ->)].
    + apply lift_inv in Hc as [-> Hc]. symmetry in Hc.
      apply bind_inv in Hs as [(w2 & ex & Hr & Hs) | (e & Hr & ->)].
      * right. apply deleteLoop_calls in Hs as (cs & Hcs & Hall).
        exists w1, w2, zoneID, c, ex, cs. repeat split; try done.
        apply call_calls in Hr. rewrite Hcs, Hr, Hcz. by rewrite <- !app_assoc.
      * left. exists e, 2, zoneID. split; [done|].
        apply call_calls in Hr. rewrite Hr, Hcz. by rewrite <- app_assoc.
    + apply lift_inv in Hc as [-> Hc]. left. by exists e, 1, zoneID.
  - left. apply getZoneID_reads in Hz as [Hz | Hz].
    + exists e, 0, 0%Z. rewrite Hz. simpl. by rewrite app_nil_r.
    + by exists e, 1, 0%Z.
Qed.

Lemma DeleteRecords_only_deletes_matching_witness :
  exists cs,
    calls (DeleteRecords (codec := TestDouble.codec) (backend := TestDouble.backend)
             TestDouble.provider "example.com"
             [TestDouble.rr "www" "A" "192.0.2.1" 3600;
              TestDouble.rr "mail" "A" "192.0.2.99" 3600]
             (TestDouble.start [TestDouble.rec 1 "www" "A" "192.0.2.1";
                                TestDouble.rec 2 "mail" "A" "192.0.2.2";
                                TestDouble.rec 3 "ftp" "A" "192.0.2.1"] 1)).1
    = [CallGetZones; CallGetRecords 1 ""] ++ cs
    /\ Forall (deleteOf (codec := TestDouble.codec) "example.com" 1
                 [TestDouble.rec 1 "www" "A" "192.0.2.1";
                  TestDouble.rec 2 "mail" "A" "192.0.2.2";
                  TestDouble.rec 3 "ftp" "A" "192.0.2.1"]
                 [TestDouble.rr "www" "A" "192.0.2.1" 3600;
                  TestDouble.rr "mail" "A" "192.0.2.99" 3600]) cs.
Proof.
  destruct (DeleteRecords_only_deletes_matching
              (codec := TestDouble.codec) (backend := TestDouble.backend)
              TestDouble.provider "example.com"
              [TestDouble.rr "www" "A" "192.0.2.1" 3600;
               TestDouble.rr "mail" "A" "192.0.2.99" 3600]
              (TestDouble.start [TestDouble.rec 1 "www" "A" "192.0.2.1";
                                 TestDouble.rec 2 "mail" "A" "192.0.2.2";
                                 TestDouble.rec 3 "ftp" "A" "192.0.2.1"] 1)
              _ _ eq_refl)
    as [(e & n & zoneID & _ & Hcalls)
       | (w1 & w2 & zoneID & c & ex & cs & Hz & Hc & Hr & Hcalls & Hall)].
  - exfalso. vm_compute in Hcalls. by destruct n as [|[|[|n]]].
  - vm_compute in Hz. injection Hz as <- <-.
    vm_compute in Hc. injection Hc as <-.
    vm_compute in Hr. injection Hr as <- <-.
    exists cs. split; [exact Hcalls | exact Hall].
Defined.

(** X11: the calls of any run of [GetRecords] are a prefix of: the zone
    lookup, then the fetch of the record list of the zone without a type
    filter; the prefix is the whole list when the run returns without
    error.  It makes no write. *)
Theorem GetRecords_only_reads
    `{codec : libdns.Codec} `{backend : Backend}
    (p : Provider) (zone : string) (w w' : World)
    (r : result (list libdns.Record_)) :
  GetRecords p zone w = (w', r) ->
  exists zoneID n,
    calls w' = calls w ++ take n [CallGetZones; CallGetRecords zoneID ""]
    /\ (forall res, r = Ok res -> n = 2).
Proof.
  intros Hs. unfold GetRecords in Hs.
  apply bind_inv in Hs as [(w1 & zoneID & Hz & Hs) | (e & Hz & ->)].
  - pose proof (getZoneID_calls _ _ _ _ _ Hz) as Hcz.
    apply bind_inv in Hs as [(w1' & c & Hc & Hs) | (e & Hc & ->)].
    + apply lift_inv in Hc as [-> Hc].
      apply bind_inv in Hs as [(w2 & records & Hr & Hs) | (e & Hr & ->)].
      * exists zoneID, 2. inversion Hs; subst. split; [|done].
        apply call_calls in Hr. rewrite Hr, Hcz. by rewrite <- app_assoc.
      * exists zoneID, 2. split; [|intros res [=]].
        apply call_calls in Hr. rewrite Hr, Hcz. by rewrite <- app_assoc.
    + apply lift_inv in Hc as [-> Hc]. exists zoneID, 1. split; [done|].
      intros res [=].
  - apply getZoneID_reads in Hz as [Hz | Hz].
    + exists 0%Z, 0. rewrite Hz. simpl. rewrite app_nil_r. split; [done|].
      intros res [=].
    + exists 0%Z, 1. split; [done|]. intros res [=].
Qed.

Lemma GetRecords_only_reads_witness :
  exists n,
    calls (GetRecords (codec := TestDouble.codec) (backend := TestDouble.backend)
             TestDouble.provider "example.com"
             (TestDouble.start [TestDouble.rec 1 "www" "A" "192.0.2.1"] 0)).1
    = take n [CallGetZones; CallGetRecords 1 ""].
Proof.
  destruct (GetRecords_only_reads
              (codec := TestDouble.codec) (backend := TestDouble.backend)
              TestDouble.provider "example.com"
              (TestDouble.start [TestDouble.rec 1 "www" "A" "192.0.2.1"] 0)
              _ _ eq_refl) as (zoneID & n & Hcalls & Hn).
  exists n. rewrite (Hn _ eq_refl) in *. exact (eq_refl).
Defined.

(** ** Counting the calls of a reconciliation *)

Section CountFacts.

Variable zoneID : Z.

Local Abbreviation updatesOf ops :=
  (length (List.filter isUpdateCall (map (callOf zoneID) ops))).
Local Abbreviation createsOf ops :=
  (length (List.filter isCreateCall (map (callOf zoneID) ops))).
Local Abbreviation deletesOf ops :=
  (length (List.filter isDeleteCall (map (callOf zoneID) ops))).

Lemma planInputs_counts (existing : list Record_) (i : nat)
      (inputRecs : list Record_) :
  updatesOf (planInputs existing i inputRecs)
  = length inputRecs `min` (length existing - i)
  /\ createsOf (planInputs existing i inputRecs)
     = length inputRecs - (length existing - i)
  /\ deletesOf (planInputs existing i inputRecs) = 0.
Proof.
  revert i. induction inputRecs as [|d rest IH]; intros i; [done|].
  destruct (IH (S i)) as (Hu & Hc & Hd). simpl planInputs.
  destruct (existing !! i) as [e|] eqn:He;
    cbn [map List.filter length callOf isUpdateCall isCreateCall isDeleteCall];
    rewrite ?Hu, ?Hc, ?Hd.
  - apply lookup_lt_Some in He. repeat split; lia.
  - apply lookup_ge_None in He. repeat split; lia.
Qed.

Lemma deletes_counts (extra : list Record_) :
  updatesOf (map (fun e => OpDelete (ID e)) extra) = 0
  /\ createsOf (map (fun e => OpDelete (ID e)) extra) = 0
  /\ deletesOf (map (fun e => OpDelete (ID e)) extra) = length extra.
Proof.
  induction extra as [|e rest (Hu & Hc & Hd)]; [done|].
  simpl. by rewrite Hu, Hc, Hd.
Qed.

Lemma planKey_counts (existingRecords : list Record_) (key : recordKey)
      (desired : list Record_) :
  updatesOf (planKey existingRecords (key, desired))
  = length desired `min` length (existingFor key existingRecords)
  /\ createsOf (planKey existingRecords (key, desired))
     = length desired - length (existingFor key existingRecords)
  /\ deletesOf (planKey existingRecords (key, desired))
     = length (existingFor key existingRecords) - length desired.
Proof.
  unfold planKey. simpl.
  rewrite !map_app, !List.filter_app, !length_app.
  destruct (planInputs_counts (existingFor key existingRecords) 0 desired)
    as (-> & -> & ->).
  destruct (deletes_counts (drop (length desired) (existingFor key existingRecords)))
    as (-> & -> & ->).
  rewrite length_drop. repeat split; lia.
Qed.

Lemma plan_counts (existingRecords : list Record_)
      (entries : list (recordKey * list Record_)) :
  updatesOf (plan existingRecords entries)
  = sum_list (map (fun kv => length kv.2
                             `min` length (existingFor kv.1 existingRecords))
                  entries)
  /\ createsOf (plan existingRecords entries)
     = sum_list (map (fun kv => length kv.2
                                - length (existingFor kv.1 existingRecords))
                     entries)
  /\ deletesOf (plan existingRecords entries)
     = sum_list (map (fun kv => length (existingFor kv.1 existingRecords)
                                - length kv.2)
                     entries).
Proof.
  induction entries as [|[key desired] rest (Hu & Hc & Hd)]; [done|].
  rewrite plan_cons, !map_app, !List.filter_app, !length_app, Hu, Hc, Hd.
  destruct (planKey_counts existingRecords key desired) as (-> & -> & ->).
  done.
Qed.

End CountFacts.

(** X12: in a run of [SetRecords] that returns without error, with the map
    of the input visited key by key, the number of update calls is the sum
    over the keys of the smaller of the number of desired and of existing
    records of the key, the number of create calls is the sum of the
    desired records in excess of the existing ones, and the number of
    delete calls is the sum of the existing records in excess of the
    desired ones: per key, as many writes as the larger of the two
    numbers, and no more. *)
Theorem SetRecords_call_counts
    `{codec : libdns.Codec} `{backend : Backend} `{runtime : Runtime}
    (p : Provider) (zone : string) (records : list libdns.Record_)
    (w w' : World) (res : list libdns.Record_) :
  SetRecords p zone records w = (w', Ok res) ->
  exists w1 w2 zoneID client existingRecords newcalls,
    getZoneID p zone w = (w1, Ok zoneID)
    /\ newClient p = Ok client
    /\ getRecords client zoneID "" w1 = (w2, Ok existingRecords)
    /\ calls w' = calls w ++ [CallGetZones; CallGetRecords zoneID ""] ++ newcalls
    /\ length (List.filter isUpdateCall newcalls)
       = sum_list (map (fun kv => length kv.2
                                  `min` length (existingFor kv.1 existingRecords))
                       (entriesOf zone records))
    /\ length (List.filter isCreateCall newcalls)
       = sum_list (map (fun kv => length kv.2
                                  - length (existingFor kv.1 existingRecords))
                       (entriesOf zone records))
    /\ length (List.filter isDeleteCall newcalls)
       = sum_list (map (fun kv => length (existingFor kv.1 existingRecords)
                                  - length kv.2)
                       (entriesOf zone records))
    /\ length newcalls
       = sum_list (map (fun kv => length kv.2
                                  `max` length (existingFor kv.1 existingRecords))
                       (entriesOf zone records)).
Proof.
  intros Hs.
  apply SetRecords_inv in Hs
    as [(e & cs & He & _) | (w1 & w2 & zoneID & c & ex & Hz & Hc & Hr & Hcalls & Hrun)];
    [discriminate|].
  apply runOps_trace in Hrun as [Htrace _].
  exists w1, w2, zoneID, c, ex, (map (callOf zoneID) (plan ex (entriesOf zone records))).
  do 3 (split; [done|]).
  split; [rewrite Htrace, Hcalls; by rewrite <- app_assoc|].
  destruct (plan_counts zoneID ex (entriesOf zone records)) as (Hu & Hcr & Hd).
  do 3 (split; [done|]).
  clear. induction (entriesOf zone records) as [|[key desired] rest IH]; [done|].
  rewrite plan_cons, map_app, length_app, IH. simpl. f_equal.
  unfold planKey. simpl.
  rewrite length_map, length_app, length_map, length_drop.
  destruct (planInputs_isWrite (existingFor key ex) 0 desired) as [_ ->]. lia.
Qed.

Lemma SetRecords_call_counts_witness :
  exists newcalls,
    calls (SetRecords (codec := TestDouble.codec) (backend := TestDouble.backend)
             (runtime := TestDouble.backward) TestDouble.provider "example.com."
             [TestDouble.rr "www" "A" "192.0.2.100" 7200;
              TestDouble.rr "mail" "A" "192.0.2.7" 7200;
              TestDouble.rr "mail" "A" "192.0.2.8" 7200]
             (TestDouble.start [TestDouble.rec 1 "www" "A" "192.0.2.1";
                                TestDouble.rec 2 "www" "A" "192.0.2.2";
                                TestDouble.rec 3 "ftp" "A" "192.0.2.2"] 10)).1
    = [CallGetZones; CallGetRecords 1 ""] ++ newcalls
    /\ length (List.filter isUpdateCall newcalls) = 1
    /\ length (List.filter isCreateCall newcalls) = 2
    /\ length (List.filter isDeleteCall newcalls) = 1.
Proof.
  assert (exists w' res,
    SetRecords (codec := TestDouble.codec) (backend := TestDouble.backend)
      (runtime := TestDouble.backward) TestDouble.provider "example.com."
      [TestDouble.rr "www" "A" "192.0.2.100" 7200;
       TestDouble.rr "mail" "A" "192.0.2.7" 7200;
       TestDouble.rr "mail" "A" "192.0.2.8" 7200]
      (TestDouble.start [TestDouble.rec 1 "www" "A" "192.0.2.1";
                         TestDouble.rec 2 "www" "A" "192.0.2.2";
                         TestDouble.rec 3 "ftp" "A" "192.0.2.2"] 10)
    = (w', Ok res)) as (w' & res & Hs).
  { eexists _, _. vm_compute. reflexivity. }
  destruct (SetRecords_call_counts _ _ _ _ _ _ Hs)
    as (w1 & w2 & zoneID & c & ex & newcalls & Hz & Hc & Hr & Hcalls
        & Hu & Hcr & Hd & _).
  vm_compute in Hz. injection Hz as <- <-.
  vm_compute in Hc. injection Hc as <-.
  vm_compute in Hr. injection Hr as <- <-.
  exists newcalls. split; [rewrite Hs; exact Hcalls|].
  rewrite Hu, Hcr, Hd. clear. vm_compute. repeat split; reflexivity.
Defined.

(** ** The client on the wire *)

Section ClientSetup.

Context {backend : Backend}.

Lemma newClient_token (p : Provider) (c : Client) :
  newClient p = Ok c -> token c = APIToken p.
Proof.
  unfold newClient. destruct (url_Parse _); [|discriminate].
  by intros [= <-].
Qed.

End ClientSetup.

(** X13: a provider without an API URL builds the client that the same
    provider with the default URL builds: [newClient] looks at the URL only
    through this default, and the client it builds has the token of the
    provider. *)
Theorem newClient_default_url `{backend : Backend} (p : Provider) (c : Client) :
  APIURL p = "" ->
  newClient p = newClient {| APIToken := APIToken p; APIURL := DefaultBaseURL |}
  /\ (newClient p = Ok c ->
      token c = APIToken p /\ url_Parse DefaultBaseURL = Ok (BaseURL c)).
Proof.
  intros Hurl. unfold newClient. simpl. rewrite Hurl. simpl. split; [done|].
  destruct (url_Parse DefaultBaseURL); [|discriminate].
  by intros [= <-].
Qed.

Lemma newClient_default_url_witness :
  newClient (backend := TestDouble.backend) TestDouble.provider
  = newClient (backend := TestDouble.backend)
      {| APIToken := "test-token"; APIURL := DefaultBaseURL |}.
Proof.
  exact (proj1 (newClient_default_url (backend := TestDouble.backend)
                  TestDouble.provider
                  {| token := "test-token"; BaseURL := DefaultBaseURL |}
                  eq_refl)).
Defined.

Section WireFacts.

Context {W : Wire}.

Lemma Get_setHeader (req : http.Request) (key value key' : string) :
  http.Header_Get (http.Header_ (wire.setHeader req key value)) key'
  = if (textproto.CanonicalMIMEHeaderKey key
        =? textproto.CanonicalMIMEHeaderKey key')
    then value
    else http.Header_Get (http.Header_ req) key'.
Proof.
  unfold http.Header_Get, wire.setHeader, http.Header_Set, http.Header. simpl.
  destruct (String.eqb_spec (textproto.CanonicalMIMEHeaderKey key)
                            (textproto.CanonicalMIMEHeaderKey key')) as [->|Hne].
  - by rewrite lookup_insert_eq.
  - by rewrite lookup_insert_ne.
Qed.

Lemma Get_empty (key : string) : http.Header_Get ∅ key = "".
Proof. unfold http.Header_Get, http.Header. by rewrite lookup_empty. Qed.

(** The headers of a request after some [Set]s, one key compared with
    another by evaluation. *)
Ltac get_headers :=
  rewrite ?Get_setHeader;
  repeat match goal with
         | |- context [String.eqb (textproto.CanonicalMIMEHeaderKey ?a)
                                  (textproto.CanonicalMIMEHeaderKey ?b)] =>
             let v := eval vm_compute in
                        (String.eqb (textproto.CanonicalMIMEHeaderKey a)
                                    (textproto.CanonicalMIMEHeaderKey b)) in
             replace (String.eqb (textproto.CanonicalMIMEHeaderKey a)
                                 (textproto.CanonicalMIMEHeaderKey b))
               with v by (vm_compute; reflexivity)
         end;
  cbv iota.

Lemma quot_100_is_2 (status : Z) :
  (status `quot` 100 =? 2)%Z = true <-> (200 <= status <= 299)%Z.
Proof.
  rewrite Z.eqb_eq. split.
  - intros H. destruct (Z.le_gt_cases 0 status) as [Hpos|Hneg].
    + rewrite Z.quot_div_nonneg in H by lia.
      pose proof (Z.div_mod status 100 ltac:(lia)).
      pose proof (Z.mod_pos_bound status 100 ltac:(lia)). lia.
    + pose proof (Z.quot_opp_l status 100 ltac:(lia)) as Hq.
      rewrite Z.quot_div_nonneg in Hq by lia.
      pose proof (Z.div_pos (- status) 100 ltac:(lia) ltac:(lia)). lia.
  - intros H. rewrite Z.quot_div_nonneg by lia.
    symmetry. apply Z.div_unique with (r := (status - 200)%Z); lia.
Qed.

(** What [doJSONRequest] builds. *)
Lemma doJSONRequest_request (method endpoint : string) (payload : option Record_)
      (req : http.Request) :
  wire.doJSONRequest method endpoint payload = Ok req ->
  http.Method req = (if method =? "" then http.MethodGet else method)
  /\ request_URL (if method =? "" then http.MethodGet else method) endpoint
     = Ok (http.URL req)
  /\ http.Header_Get (http.Header_ req) "X-TCpanel-Token" = ""
  /\ http.Header_Get (http.Header_ req) "User-Agent" = userAgent
  /\ http.Header_Get (http.Header_ req) "Accept" = "application/json"
  /\ http.Header_Get (http.Header_ req) "Content-Type"
     = match payload with Some _ => "application/json" | None => "" end
  /\ match payload with
     | Some record => json_Encode record = Ok (http.Body req)
     | None => http.Body req = ""
     end.
Proof.
  unfold wire.doJSONRequest, wire.NewRequestWithContext.
  destruct payload as [record|].
  - destruct (json_Encode record) as [bytes|]; [|discriminate].
    cbv zeta. destruct (request_URL _ endpoint) as [u|]; [|discriminate].
    intros [= <-]. get_headers. cbn [http.Header_ http.Method http.URL http.Body].
    by rewrite !Get_empty.
  - cbv zeta. destruct (request_URL _ endpoint) as [u|]; [|discriminate].
    intros [= <-]. get_headers. cbn [http.Header_ http.Method http.URL http.Body].
    by rewrite !Get_empty.
Qed.

(** The one request of [do]. *)
Lemma do_sent {A : Type} (c : Client) (req : http.Request)
      (result_ : option (string -> result A)) (zero : A) (l : wire.Line) :
  wire.sent (wire.do c req result_ zero l).1
  = wire.sent l ++ [wire.setHeader req "X-TCpanel-Token" (token c)].
Proof.
  unfold wire.do, wire.roundTrip.
  destruct (HTTPClient_Do _ _) as [s [resp|err]]; [|done].
  destruct (negb _); [done|].
  destruct result_ as [unmarshal|]; [|done].
  destruct (http.ReadErr resp); [done|].
  by destruct (unmarshal _).
Qed.

Lemma verb_nonempty (method : string) :
  method ∈ [http.MethodGet; http.MethodPost; http.MethodPut; http.MethodDelete] ->
  (if method =? "" then http.MethodGet else method) = method.
Proof.
  intros Hm.
  assert (method = http.MethodGet \/ method = http.MethodPost
          \/ method = http.MethodPut \/ method = http.MethodDelete)
    as [-> | [-> | [-> | ->]]]; [set_unfold in Hm; tauto|done..].
Qed.

(** A request built by [doJSONRequest] and sent by [do] carries the token
    of the client. *)
Lemma built_request_carries (c : Client) (method endpoint : string)
      (payload : option Record_) (req : http.Request) :
  method ∈ [http.MethodGet; http.MethodPost; http.MethodPut; http.MethodDelete] ->
  (payload = None <-> method = http.MethodGet \/ method = http.MethodDelete) ->
  wire.doJSONRequest method endpoint payload = Ok req ->
  wire.carries (token c) (wire.setHeader req "X-TCpanel-Token" (token c)).
Proof.
  intros Hm Hp Hreq.
  apply doJSONRequest_request in Hreq as (HM & _ & _ & HU & HA & HC & HB).
  rewrite (verb_nonempty _ Hm) in HM.
  unfold wire.carries. get_headers.
  cbn [wire.setHeader http.Header_ http.Method http.URL http.Body].
  rewrite HM, HU, HA, HC.
  split; [done|]. do 3 (split; [done|]).
  assert (method = http.MethodGet \/ method = http.MethodPost
          \/ method = http.MethodPut \/ method = http.MethodDelete)
    as [-> | [-> | [-> | ->]]].
  { set_unfold in Hm. tauto. }
  - destruct payload; [|done].
    exfalso. assert (Some r = None) by (apply Hp; by left). done.
  - destruct payload as [r|]; [done|].
    exfalso. destruct (proj1 Hp eq_refl); done.
  - destruct payload as [r|]; [done|].
    exfalso. destruct (proj1 Hp eq_refl); done.
  - destruct payload; [|done].
    exfalso. assert (Some r = None) by (apply Hp; by right). done.
Qed.

(** A client method, as the five are written: no request if the request
    cannot be built, the one request of [do] otherwise. *)
Lemma method_sends {A : Type} (c : Client) (method endpoint : string)
      (payload : option Record_) (result_ : option (string -> result A))
      (zero : A) (l : wire.Line) :
  method ∈ [http.MethodGet; http.MethodPost; http.MethodPut; http.MethodDelete] ->
  (payload = None <-> method = http.MethodGet \/ method = http.MethodDelete) ->
  wire.sends
    (fun req => wire.carries (token c) req
                /\ http.Method req = method
                /\ request_URL method endpoint = Ok (http.URL req)
                /\ match payload with
                   | Some record => json_Encode record = Ok (http.Body req)
                   | None => http.Body req = ""
                   end)
    1 l
    (match wire.doJSONRequest method endpoint payload with
     | Err err => (l, Err err)
     | Ok req => wire.do c req result_ zero l
     end).1.
Proof.
  intros Hm Hp. unfold wire.sends.
  destruct (wire.doJSONRequest method endpoint payload) as [req|err] eqn:Hreq.
  - exists [wire.setHeader req "X-TCpanel-Token" (token c)].
    split; [apply do_sent|]. split; [simpl; lia|].
    apply Forall_singleton. split; [by eapply built_request_carries|].
    apply doJSONRequest_request in Hreq as (HM & HURL & _ & _ & _ & _ & HB).
    by rewrite (verb_nonempty _ Hm) in HM, HURL.
  - exists []. simpl. rewrite app_nil_r. split; [done|]. split; [lia|constructor].
Qed.

End WireFacts.

(** X14: [do] returns without error exactly when the transport answered,
    the status code is between 200 and 299, and, if a result is asked for,
    the body was read to its end and decoded; the value is then the decoded
    body.  Without a result asked for, the body is not looked at.  One
    request has then been sent: the given one with the token of the client
    set. *)
Theorem do_succeeds_iff `{W : Wire} {A : Type} (c : Client) (req : http.Request)
    (result_ : option (string -> result A)) (zero : A) (l l' : wire.Line) (a : A) :
  wire.do c req result_ zero l = (l', Ok a)
  <-> exists resp,
        HTTPClient_Do (wire.setHeader req "X-TCpanel-Token" (token c)) (wire.conn l)
        = (wire.conn l', Ok resp)
        /\ wire.sent l'
           = wire.sent l ++ [wire.setHeader req "X-TCpanel-Token" (token c)]
        /\ (200 <= http.StatusCode resp <= 299)%Z
        /\ match result_ with
           | None => a = zero
           | Some unmarshal =>
               http.ReadErr resp = None /\ unmarshal (http.Raw resp) = Ok a
           end.
Proof.
  unfold wire.do, wire.roundTrip.
  destruct (HTTPClient_Do _ _) as [s [resp|err]] eqn:HDo.
  - destruct (http.StatusCode resp `quot` 100 =? 2)%Z eqn:Hs; simpl.
    + apply quot_100_is_2 in Hs.
      destruct result_ as [unmarshal|].
      * destruct (http.ReadErr resp) as [err|] eqn:Hr.
        -- split; [done|]. intros (resp' & Hc & _ & _ & Hr' & _).
           injection Hc as _ <-. congruence.
        -- destruct (unmarshal (http.Raw resp)) as [a'|err] eqn:Hu.
           ++ split.
              ** intros [= <- <-]. by exists resp.
              ** intros (resp' & Hc & Hsent & _ & _ & Ha).
                 injection Hc as -> <-. rewrite Hu in Ha. injection Ha as <-.
                 destruct l' as [c' s']. simpl in *. by subst.
           ++ split; [done|]. intros (resp' & Hc & _ & _ & _ & Ha).
              injection Hc as _ <-. congruence.
      * split.
        -- intros [= <- <-]. by exists resp.
        -- intros (resp' & Hc & Hsent & _ & ->).
           injection Hc as -> <-.
           destruct l' as [c' s']. simpl in *. by subst.
    + split; [done|]. intros (resp' & Hc & _ & Hrange & _).
      injection Hc as _ <-.
      apply quot_100_is_2 in Hrange. congruence.
  - split; [done|]. intros (resp' & Hc & _). discriminate.
Qed.

(** X15: each of the five client methods sends at most one request,
    whatever it returns.  The request has the method of
    the call (GET for the two reads, POST for a create, PUT for an update,
    DELETE for a delete), the token of the client, the user agent and the
    accepted type; a create and an update carry the encoded record and its
    content type, the other three carry no body and no content type. *)
Theorem client_requests `{W : Wire} (c : Client) (l : wire.Line)
    (zoneID recordID : Z) (recordType : string) (record : Record_) :
  wire.sends (fun req => wire.carries (token c) req
                         /\ http.Method req = "GET" /\ http.Body req = "")
             1 l (wire.getZones c l).1
  /\ wire.sends (fun req => wire.carries (token c) req
                            /\ http.Method req = "GET" /\ http.Body req = "")
                1 l (wire.getRecords c zoneID recordType l).1
  /\ wire.sends (fun req => wire.carries (token c) req
                            /\ http.Method req = "POST"
                            /\ json_Encode record = Ok (http.Body req))
                1 l (wire.createRecord c zoneID record l).1
  /\ wire.sends (fun req => wire.carries (token c) req
                            /\ http.Method req = "PUT"
                            /\ json_Encode record = Ok (http.Body req))
                1 l (wire.updateRecord c zoneID recordID record l).1
  /\ wire.sends (fun req => wire.carries (token c) req
                            /\ http.Method req = "DELETE" /\ http.Body req = "")
                1 l (wire.deleteRecord c zoneID recordID l).1.
Proof.
  assert (forall A method endpoint payload (result_ : option (string -> result A))
                 zero,
    method ∈ [http.MethodGet; http.MethodPost; http.MethodPut; http.MethodDelete] ->
    (payload = None <-> method = http.MethodGet \/ method = http.MethodDelete) ->
    wire.sends
      (fun req => wire.carries (token c) req
                  /\ http.Method req = method
                  /\ match payload with
                     | Some record => json_Encode record = Ok (http.Body req)
                     | None => http.Body req = ""
                     end)
      1 l
      (match wire.doJSONRequest method endpoint payload with
       | Err err => (l, Err err)
       | Ok req => wire.do c req result_ zero l
       end).1) as Hone.
  { intros A method endpoint payload result_ zero Hm Hp.
    destruct (method_sends c method endpoint payload result_ zero l Hm Hp)
      as (reqs & Hsent & Hlen & Hall).
    exists reqs. split; [done|]. split; [done|].
    eapply Forall_impl; [exact Hall|]. simpl. tauto. }
  unfold wire.getZones, wire.getRecords, wire.createRecord, wire.updateRecord,
    wire.deleteRecord.
  repeat split.
  - apply (Hone _ http.MethodGet _ None); [set_solver|]. split; [by left|done].
  - apply (Hone _ http.MethodGet _ None); [set_solver|]. split; [by left|done].
  - apply (Hone _ http.MethodPost _ (Some record)); [set_solver|].
    split; [done|]. by intros [|].
  - apply (Hone _ http.MethodPut _ (Some record)); [set_solver|].
    split; [done|]. by intros [|].
  - apply (Hone _ http.MethodDelete _ None); [set_solver|]. split; [by right|done].
Qed.

Lemma client_requests_witness :
  wire.sends (fun req => wire.carries "test-token" req
                         /\ http.Method req = "POST"
                         /\ json_Encode (Wire := TestWire.net)
                              (TestDouble.rec 0 "www" "A" "192.0.2.1")
                            = Ok (http.Body req))
             1 (TestWire.line 1)
             (wire.createRecord TestWire.client 1
                (TestDouble.rec 0 "www" "A" "192.0.2.1") (TestWire.line 1)).1.
Proof.
  exact (proj1 (proj2 (proj2
           (client_requests (W := TestWire.net) TestWire.client (TestWire.line 1)
              1 0 "" (TestDouble.rec 0 "www" "A" "192.0.2.1"))))).
Defined.

(** ** Relations kept by every run of the provider *)

Section Preservation.

Context {codec : libdns.Codec} {backend : Backend} {runtime : Runtime}.

Variable R : World -> World -> Prop.
Hypothesis R_refl : forall w, R w w.
Hypothesis R_trans : forall a b c, R a b -> R b c -> R a c.

Lemma preserves_ret {A} (a : A) : preserves R (ret a).
Proof. intros w w' r [= <- _]. apply R_refl. Qed.

Lemma preserves_fail {A} (e : error) : preserves R (fail (A := A) e).
Proof. intros w w' r [= <- _]. apply R_refl. Qed.

Lemma preserves_lift {A} (x : result A) : preserves R (lift x).
Proof. intros w w' r [= <- _]. apply R_refl. Qed.

Lemma preserves_bind {A B} (m : M A) (k : A -> M B) :
  preserves R m -> (forall a, preserves R (k a)) -> preserves R (bind m k).
Proof.
  intros Hm Hk w w' r. unfold bind.
  destruct (m w) as [w1 [a|e]] eqn:Hmw.
  - intros Hka. eapply R_trans; [by eapply Hm|by eapply Hk].
  - intros [= <- _]. by eapply Hm.
Qed.

Lemma preserves_bind_lift {A B} (x : result A) (k : A -> M B) :
  (forall a, x = Ok a -> preserves R (k a)) -> preserves R (bind (lift x) k).
Proof.
  intros Hk w w' r. unfold bind, lift. destruct x as [a|e].
  - by apply Hk.
  - intros [= <- _]. apply R_refl.
Qed.

Lemma preserves_wrapErr {A} (msg : string) (m : M A) :
  preserves R m -> preserves R (wrapErr msg m).
Proof.
  intros Hm w w' r. unfold wrapErr.
  destruct (m w) as [w1 [a|e]] eqn:Hmw; intros [= <- _]; by eapply Hm.
Qed.

Variable client : Client.
Hypothesis R_getZones : preserves R (getZones client).
Hypothesis R_getRecords :
  forall zoneID recordType, preserves R (getRecords client zoneID recordType).
Hypothesis R_createRecord :
  forall zoneID record, preserves R (createRecord client zoneID record).
Hypothesis R_updateRecord :
  forall zoneID recordID record,
    preserves R (updateRecord client zoneID recordID record).
Hypothesis R_deleteRecord :
  forall zoneID recordID, preserves R (deleteRecord client zoneID recordID).

Lemma preserves_appendLoop zone zoneID records acc :
  preserves R (appendLoop zone client zoneID records acc).
Proof.
  revert acc. induction records as [|record rest IH]; intros acc; simpl.
  - apply preserves_ret.
  - apply preserves_bind; [by apply preserves_wrapErr|]. intros created.
    apply preserves_bind; [apply preserves_wrapErr, preserves_lift|].
    intros converted_. apply IH.
Qed.

Lemma preserves_inputLoop zone zoneID existingForKey i inputRecs acc :
  preserves R (inputLoop zone client zoneID existingForKey i inputRecs acc).
Proof.
  revert i acc. induction inputRecs as [|internalRec rest IH]; intros i acc; simpl.
  - apply preserves_ret.
  - apply preserves_bind.
    { destruct (existingForKey !! i); by apply preserves_wrapErr. }
    intros resultRec.
    apply preserves_bind; [apply preserves_wrapErr, preserves_lift|].
    intros converted_. apply IH.
Qed.

Lemma preserves_extraLoop zoneID extra :
  preserves R (extraLoop client zoneID extra).
Proof.
  induction extra as [|existing rest IH]; simpl.
  - apply preserves_ret.
  - apply preserves_bind; [by apply preserves_wrapErr|]. intros _. apply IH.
Qed.

Lemma preserves_keyLoop zone zoneID existingRecords entries acc :
  preserves R (keyLoop zone client zoneID existingRecords entries acc).
Proof.
  revert acc. induction entries as [|[key inputRecs] rest IH]; intros acc; simpl.
  - apply preserves_ret.
  - apply preserves_bind; [apply preserves_inputLoop|]. intros acc'.
    apply preserves_bind; [apply preserves_extraLoop|]. intros _. apply IH.
Qed.

Lemma preserves_exactLoop zone zoneID internalRec existingRecords acc found :
  preserves R (exactLoop zone client zoneID internalRec existingRecords acc found).
Proof.
  revert acc found.
  induction existingRecords as [|existing rest IH]; intros acc found; simpl.
  - apply preserves_ret.
  - destruct (_ && _); [|apply IH].
    apply preserves_bind; [by apply preserves_wrapErr|]. intros _.
    apply preserves_bind; [apply preserves_wrapErr, preserves_lift|].
    intros converted_. apply IH.
Qed.

Lemma preserves_fallbackLoop zone zoneID internalRec existingRecords acc :
  preserves R (fallbackLoop zone client zoneID internalRec existingRecords acc).
Proof.
  induction existingRecords as [|existing rest IH]; simpl.
  - apply preserves_ret.
  - destruct (_ && _); [|apply IH].
    apply preserves_bind; [by apply preserves_wrapErr|]. intros _.
    apply preserves_bind; [apply preserves_wrapErr, preserves_lift|].
    intros converted_. apply preserves_ret.
Qed.

Lemma preserves_deleteLoop zone zoneID existingRecords records acc :
  preserves R (deleteLoop zone client zoneID existingRecords records acc).
Proof.
  revert acc. induction records as [|record rest IH]; intros acc; simpl.
  - apply preserves_ret.
  - apply preserves_bind; [apply preserves_exactLoop|]. intros [acc' found].
    apply preserves_bind; [|intros acc''; apply IH].
    destruct (negb found); [apply preserves_fallbackLoop|apply preserves_ret].
Qed.

End Preservation.

Section ProviderPreservation.

Context {codec : libdns.Codec} {backend : Backend} {runtime : Runtime}.

Variable R : World -> World -> Prop.
Hypothesis R_refl : forall w, R w w.
Hypothesis R_trans : forall a b c, R a b -> R b c -> R a c.

Variable p : Provider.
Hypothesis R_getZones :
  forall client, newClient p = Ok client -> preserves R (getZones client).
Hypothesis R_getRecords :
  forall client zoneID recordType,
    newClient p = Ok client -> preserves R (getRecords client zoneID recordType).
Hypothesis R_createRecord :
  forall client zoneID record,
    newClient p = Ok client -> preserves R (createRecord client zoneID record).
Hypothesis R_updateRecord :
  forall client zoneID recordID record,
    newClient p = Ok client ->
    preserves R (updateRecord client zoneID recordID record).
Hypothesis R_deleteRecord :
  forall client zoneID recordID,
    newClient p = Ok client ->
    preserves R (deleteRecord client zoneID recordID).

Lemma preserves_getZoneID zone : preserves R (getZoneID p zone).
Proof.
  unfold getZoneID. apply preserves_bind_lift; [done|]. intros client Hc.
  apply preserves_bind; [done|by apply R_getZones|]. intros zones.
  destruct (zoneLoop _ _); [by apply preserves_ret|by apply preserves_fail].
Qed.

Lemma preserves_operations zone records :
  preserves R (GetRecords p zone)
  /\ preserves R (AppendRecords p zone records)
  /\ preserves R (SetRecords p zone records)
  /\ preserves R (DeleteRecords p zone records).
Proof.
  unfold GetRecords, AppendRecords, SetRecords, DeleteRecords.
  repeat split.
  - apply preserves_bind; [done|apply preserves_getZoneID|]. intros zoneID.
    apply preserves_bind_lift; [done|]. intros client Hc.
    apply preserves_bind; [done|by apply R_getRecords|]. intros recs.
    by apply preserves_ret.
  - apply preserves_bind; [done|apply preserves_getZoneID|]. intros zoneID.
    apply preserves_bind_lift; [done|]. intros client Hc.
    apply preserves_appendLoop; auto.
  - apply preserves_bind; [done|apply preserves_getZoneID|]. intros zoneID.
    apply preserves_bind_lift; [done|]. intros client Hc.
    apply preserves_bind; [done|by apply R_getRecords|]. intros recs.
    apply preserves_keyLoop; auto.
  - apply preserves_bind; [done|apply preserves_getZoneID|]. intros zoneID.
    apply preserves_bind_lift; [done|]. intros client Hc.
    apply preserves_bind; [done|by apply R_getRecords|]. intros recs.
    apply preserves_deleteLoop; auto.
Qed.

End ProviderPreservation.

(** ** The provider over the wire *)

Section OnTheWire.

Context {W : Wire}.

Lemma onTheWire_refl (tok : string) (w : @World wire.backend) :
  onTheWire tok w w.
Proof.
  exists []. rewrite app_nil_r. split; [done|]. split; [constructor|simpl; lia].
Qed.

Lemma onTheWire_trans (tok : string) (a b c : @World wire.backend) :
  onTheWire tok a b -> onTheWire tok b c -> onTheWire tok a c.
Proof.
  intros (r1 & H1 & F1 & L1) (r2 & H2 & F2 & L2). exists (r1 ++ r2).
  rewrite H2, H1, <- app_assoc. split; [done|].
  split; [by apply Forall_app|]. rewrite length_app. lia.
Qed.

(** A client call that sends at most one request. *)
Lemma call_onTheWire {A : Type} (tok : string) (cl : Call)
      (f : wire.Line -> wire.Line * result A) :
  (forall l, wire.sends (wire.carries tok) 1 l (f l).1) ->
  preserves (onTheWire tok) (call (backend := wire.backend) cl f).
Proof.
  intros Hf w w' r. unfold call.
  destruct (Hf (server w)) as (reqs & Hsent & Hlen & Hall).
  destruct (f (server w)) as [s x]. intros [= <- _]. simpl in *.
  exists reqs. split; [done|]. split; [done|].
  cbn [calls]. rewrite length_app. simpl. lia.
Qed.

Lemma method_carries {A : Type} (c : Client) (method endpoint : string)
      (payload : option Record_) (result_ : option (string -> result A))
      (zero : A) (l : wire.Line) :
  method ∈ [http.MethodGet; http.MethodPost; http.MethodPut; http.MethodDelete] ->
  (payload = None <-> method = http.MethodGet \/ method = http.MethodDelete) ->
  wire.sends (wire.carries (token c)) 1 l
    (match wire.doJSONRequest method endpoint payload with
     | Err err => (l, Err err)
     | Ok req => wire.do c req result_ zero l
     end).1.
Proof.
  intros Hm Hp.
  destruct (method_sends c method endpoint payload result_ zero l Hm Hp)
    as (reqs & Hsent & Hlen & Hall).
  exists reqs. split; [done|]. split; [done|].
  eapply Forall_impl; [exact Hall|]. simpl. tauto.
Qed.

End OnTheWire.

(** X16: over the client as it is written, every request that a run of
    [GetRecords], [AppendRecords], [SetRecords] or [DeleteRecords] sends,
    whether the run fails or not, carries the API token of the provider,
    the user agent and the accepted type, has one of the methods GET, POST,
    PUT and DELETE, and has a JSON content type exactly when it is a POST or
    a PUT, and no body when it is a GET or a DELETE; and the run sends no
    more requests than it makes client calls. *)
Theorem provider_requests_carry_token
    `{codec : libdns.Codec} `{W : Wire} `{runtime : Runtime}
    (p : Provider) (zone : string) (records : list libdns.Record_)
    (w : @World wire.backend) :
  onTheWire (APIToken p) w (GetRecords p zone w).1
  /\ onTheWire (APIToken p) w (AppendRecords p zone records w).1
  /\ onTheWire (APIToken p) w (SetRecords p zone records w).1
  /\ onTheWire (APIToken p) w (DeleteRecords p zone records w).1.
Proof.
  destruct (preserves_operations (backend := wire.backend)
              (onTheWire (APIToken p))
              (onTheWire_refl (APIToken p)) (onTheWire_trans (APIToken p)) p)
    with (zone := zone) (records := records) as (Hg & Ha & Hs & Hd).
  - intros c Hc. apply newClient_token in Hc as <-.
    apply call_onTheWire. intros l. simpl. unfold wire.getZones.
    apply method_carries; [set_solver|]. split; [by left|done].
  - intros c zoneID recordType Hc. apply newClient_token in Hc as <-.
    apply call_onTheWire. intros l. simpl. unfold wire.getRecords.
    apply method_carries; [set_solver|]. split; [by left|done].
  - intros c zoneID record Hc. apply newClient_token in Hc as <-.
    apply call_onTheWire. intros l. simpl. unfold wire.createRecord.
    apply method_carries; [set_solver|]. split; [done|]. by intros [|].
  - intros c zoneID recordID record Hc. apply newClient_token in Hc as <-.
    apply call_onTheWire. intros l. simpl. unfold wire.updateRecord.
    apply method_carries; [set_solver|]. split; [done|]. by intros [|].
  - intros c zoneID recordID Hc. apply newClient_token in Hc as <-.
    apply call_onTheWire. intros l. simpl. unfold wire.deleteRecord.
    apply method_carries; [set_solver|]. split; [by right|done].
  - repeat split.
    + destruct (GetRecords p zone w) as [w' r] eqn:E. by eapply Hg.
    + destruct (AppendRecords p zone records w) as [w' r] eqn:E. by eapply Ha.
    + destruct (SetRecords p zone records w) as [w' r] eqn:E. by eapply Hs.
    + destruct (DeleteRecords p zone records w) as [w' r] eqn:E. by eapply Hd.
Qed.

Lemma provider_requests_carry_token_witness :
  onTheWire (W := TestWire.net) "test-token" (TestWire.start 5)
    (SetRecords (codec := TestDouble.codec) (backend := @wire.backend TestWire.net)
       (runtime := TestDouble.forward) TestDouble.provider "example.com."
       [TestDouble.rr "www" "A" "192.0.2.1" 3600] (TestWire.start 5)).1.
Proof.
  exact (proj1 (proj2 (proj2
           (provider_requests_carry_token
              (codec := TestDouble.codec) (W := TestWire.net)
              (runtime := TestDouble.forward) TestDouble.provider "example.com."
              [TestDouble.rr "www" "A" "192.0.2.1" 3600] (TestWire.start 5))))).
Defined.
